(** * circa-zhong: session and token accounting core

  A shallow embedding of the accounting code of the Zhong dashboard:
  - [src/utils/project-id.js]         (module [ProjectId])
  - [src/utils/cursor-token-tracker.js] (module [TokenTracker])
  - [src/utils/session-manager.js]    (module [SessionManager])
  - [scripts/sync-tokens-to-session.js] (module [SyncTokens])
  - [App.jsx], [syncSessionsFromFileSystem] (module [SyncBridge])

  Conventions of the embedding.
  - A JavaScript string is a [string]; only ASCII case mapping is modelled.
  - An integral JavaScript number is a [Z]; a field that may be [undefined]
    or [null] is an [option].
  - An ISO-8601 time stamp, as written by [Date.prototype.toISOString], is
    the [Z] of its epoch milliseconds ([new Date(iso).getTime()]).
  - [new Date()] is an explicit argument [now]; all the clock reads of one
    synchronous call are taken at that instant. *)

From Stdlib Require Import ZArith List String Ascii Bool Lia.
From Stdlib Require Import DecimalString Sorted Permutation.
Import ListNotations.

Local Open Scope string_scope.
Local Open Scope list_scope.
Local Open Scope Z_scope.

(* ================================================================= *)
(** ** JavaScript primitives used by the sources *)

Module JS.

(** [String(n)] and [`${n}`] for an integral number. *)
Definition toString (n : Z) : string :=
  NilZero.string_of_int (Z.to_int n).

(** Truthiness of a string value: only the empty string is falsy. *)
Definition truthy (s : string) : bool :=
  match s with EmptyString => false | String _ _ => true end.

(** Truthiness of a possibly [null]/[undefined] string. *)
Definition truthy_opt (o : option string) : bool :=
  match o with Some s => truthy s | None => false end.

(** Truthiness of a possibly absent number: [undefined] and [0] are falsy. *)
Definition truthy_num (o : option Z) : bool :=
  match o with Some n => negb (n =? 0) | None => false end.

(** [x || 0] on a possibly absent number. *)
Definition num_or_zero (o : option Z) : Z :=
  match o with Some n => n | None => 0 end.

(** [s.substring(0, n)]: the first [n] characters, fewer if [s] is shorter. *)
Fixpoint substring0 (n : nat) (s : string) : string :=
  match n, s with
  | S k, String c r => String c (substring0 k r)
  | _, _ => EmptyString
  end.

Fixpoint drop (n : nat) (s : string) : string :=
  match n, s with
  | S k, String _ r => drop k r
  | _, _ => s
  end.

(** [s.slice(-n)]: the last [n] characters, the whole of [s] if shorter. *)
Definition sliceLast (n : nat) (s : string) : string :=
  drop (String.length s - n) s.

Fixpoint repeatChar (c : ascii) (n : nat) : string :=
  match n with
  | O => EmptyString
  | S k => String c (repeatChar c k)
  end.

(** [s.padStart(n, c)] for a one-character filler. *)
Definition padStart (n : nat) (c : ascii) (s : string) : string :=
  (repeatChar c (n - String.length s) ++ s)%string.

Definition isDigit (c : ascii) : bool :=
  let k := nat_of_ascii c in (48 <=? k)%nat && (k <=? 57)%nat.

Definition isUpper (c : ascii) : bool :=
  let k := nat_of_ascii c in (65 <=? k)%nat && (k <=? 90)%nat.

Definition isLower (c : ascii) : bool :=
  let k := nat_of_ascii c in (97 <=? k)%nat && (k <=? 122)%nat.

Definition upperChar (c : ascii) : ascii :=
  if isLower c then ascii_of_nat (nat_of_ascii c - 32) else c.

(** [s.toUpperCase()] (ASCII letters). *)
Fixpoint toUpperCase (s : string) : string :=
  match s with
  | EmptyString => EmptyString
  | String c r => String (upperChar c) (toUpperCase r)
  end.

Definition digitVal (c : ascii) : Z := Z.of_nat (nat_of_ascii c - 48).

Fixpoint parseDigits (acc : Z) (s : string) : Z :=
  match s with
  | String c r => if isDigit c then parseDigits (10 * acc + digitVal c) r else acc
  | EmptyString => acc
  end.

(** [parseInt(s)] on a string without sign or leading blanks: the value of
    the longest prefix of decimal digits, [None] (NaN) when it is empty. *)
Definition parseInt (s : string) : option Z :=
  match s with
  | String c _ => if isDigit c then Some (parseDigits 0 s) else None
  | EmptyString => None
  end.

(** [Math.ceil(n / d)] for a positive divisor. *)
Definition ceilDiv (n d : Z) : Z := - ((- n) / d).

(** [Math.round(n / d)] for a positive divisor: halves go up. *)
Definition roundDiv (n d : Z) : Z := (2 * n + d) / (2 * d).

(** [arr.includes(x)] and [set.has(x)] on strings. *)
Definition includes (x : string) (l : list string) : bool :=
  existsb (String.eqb x) l.

(** [arr.findIndex(p)]; [None] stands for [-1]. *)
Fixpoint findIndex {A} (p : A -> bool) (l : list A) : option nat :=
  match l with
  | [] => None
  | x :: r => if p x then Some O else option_map S (findIndex p r)
  end.

(** [arr[i] = v] for an index inside the array. *)
Fixpoint setAt {A} (i : nat) (v : A) (l : list A) : list A :=
  match l, i with
  | [], _ => []
  | _ :: r, O => v :: r
  | x :: r, S k => x :: setAt k v r
  end.

(** Insertion of a key into a [Set] kept in insertion order. *)
Definition setAdd (l : list string) (x : string) : list string :=
  if includes x l then l else l ++ [x].

(** [Array.from(new Set(arr))]: first occurrences, in order. *)
Definition setFrom (l : list string) : list string :=
  fold_left setAdd l [].

(** [Math.max(...xs)] folded from a first element. *)
Definition maxList (x : Z) (xs : list Z) : Z := fold_left Z.max xs x.

End JS.

(* ================================================================= *)
(** ** src/utils/project-id.js *)

Module ProjectId.
Import JS.

(** The two methods of [Date] that the generator reads. *)
Record JsDate := mkDate {
  getFullYear : Z;
  getMonth : Z          (* 0 = January .. 11 = December *)
}.

(** [PLATFORM_CODES[key]]; [None] is [undefined]. *)
Definition PLATFORM_CODES (key : string) : option string :=
  if (key =? "WEB")%string then Some "W"
  else if (key =? "DATABASE")%string then Some "D"
  else if (key =? "API")%string then Some "A"
  else if (key =? "ZHONG")%string then Some "Z"
  else if (key =? "UNITY")%string then Some "U"
  else None.

(** [PLATFORM_CODES[type?.toUpperCase()] || 'X'] *)
Definition getPlatformCode (type : option string) : string :=
  match type with
  | Some t =>
      match PLATFORM_CODES (toUpperCase t) with
      | Some c => c
      | None => "X"
      end
  | None => "X"
  end.

Definition generateProjectId (date : JsDate) (type : option string)
    (projectNumber : Z) : string :=
  let year := sliceLast 2 (toString (getFullYear date)) in
  let month := getMonth date in
  let quarter := month / 3 + 1 in
  let platformCode := getPlatformCode type in
  let paddedNumber := padStart 2 "0" (toString projectNumber) in
  (year ++ "Q" ++ toString quarter ++ platformCode ++ paddedNumber)%string.

(** Numeric fields are [option Z]: [None] is NaN. *)
Record Parsed := mkParsed {
  year : option Z;
  quarter : option Z;
  platformCode : string;
  platformType : string;
  projectNumber : option Z;
  fullYear : option Z;
  quarterLabel : string
}.

(** [projectId.match(/^(\d{2})Q(\d)([A-Z])(\d{2})$/)]: the four groups. *)
Definition matchProjectId (s : string)
    : option (string * string * string * string) :=
  match s with
  | String y1 (String y2 (String "Q" (String q (String p
      (String n1 (String n2 EmptyString)))))) =>
      if isDigit y1 && isDigit y2 && isDigit q && isUpper p
         && isDigit n1 && isDigit n2
      then Some (String y1 (String y2 EmptyString), String q EmptyString,
                 String p EmptyString, String n1 (String n2 EmptyString))
      else None
  | _ => None
  end.

Definition codeToPrimaryName (code : string) : option string :=
  if (code =? "W")%string then Some "WEB"
  else if (code =? "D")%string then Some "DATABASE"
  else if (code =? "A")%string then Some "API"
  else if (code =? "U")%string then Some "UNITY"
  else if (code =? "Z")%string then Some "ZHONG"
  else None.

(** [Object.entries(PLATFORM_CODES).find(([_, code]) => code === c)?.[0]] *)
Definition platformEntries : list (string * string) :=
  [("WEB", "W"); ("DATABASE", "D"); ("API", "A"); ("ZHONG", "Z"); ("UNITY", "U")].

Definition reverseLookup (c : string) : option string :=
  option_map fst (find (fun e => (snd e =? c)%string) platformEntries).

Definition parseProjectId (projectId : string) : option Parsed :=
  match matchProjectId projectId with
  | None => None
  | Some (m1, m2, m3, m4) =>
      let year := parseInt ("20" ++ m1)%string in
      let quarter := parseInt m2 in
      let platformCode := m3 in
      let projectNumber := parseInt m4 in
      let platformType :=
        match codeToPrimaryName platformCode with
        | Some n => n
        | None =>
            match reverseLookup platformCode with
            | Some n => n
            | None => "UNKNOWN"
            end
        end in
      Some {| year := year; quarter := quarter;
              platformCode := platformCode; platformType := platformType;
              projectNumber := projectNumber; fullYear := year;
              quarterLabel := ("Q" ++ match quarter with
                                      | Some q => toString q
                                      | None => "NaN"
                                      end)%string |}
  end.

(** The five platform names of the table. *)
Definition platforms : list string :=
  ["WEB"; "DATABASE"; "API"; "UNITY"; "ZHONG"].

(** The four components the round trip is about. *)
Definition components (p : Parsed)
    : option Z * option Z * string * option Z :=
  (year p, quarter p, platformType p, projectNumber p).

Definition range (lo : nat) (len : nat) : list Z :=
  map Z.of_nat (seq lo len).

Definition optZ_eqb (o : option Z) (z : Z) : bool :=
  match o with Some v => v =? z | None => false end.

(** Executable checks of the four pieces of a generated identifier. *)
Definition yearOk (y : Z) : bool :=
  match sliceLast 2 (toString y) with
  | String a (String b EmptyString) =>
      isDigit a && isDigit b
      && optZ_eqb (parseInt ("20" ++ String a (String b EmptyString))%string) y
  | _ => false
  end.

Definition quarterOk (m : Z) : bool :=
  match toString (m / 3 + 1) with
  | String q EmptyString =>
      isDigit q && optZ_eqb (parseInt (String q EmptyString)) (m / 3 + 1)
  | _ => false
  end.

Definition numberOk (n : Z) : bool :=
  match padStart 2 "0" (toString n) with
  | String c (String d EmptyString) =>
      isDigit c && isDigit d && optZ_eqb (parseInt (String c (String d EmptyString))) n
  | _ => false
  end.

End ProjectId.

(* ================================================================= *)
(** ** src/utils/cursor-token-tracker.js: the entry log and its query *)

Module TokenTracker.
Import JS.

(** [entry.metadata]; a missing key is [None]. *)
Record Metadata := mkMetadata {
  entryId : option string;
  sessionId : option string;
  hash : option string;
  conversationId : option string;
  requestId : option string
}.

Record Entry := mkEntry {
  timestamp : Z;
  tokensUsed : Z;
  model : string;
  operation : string;
  project : string;
  file : option string;
  metadata : Metadata
}.

(** The [options] argument of [getTokenHistory]. *)
Record Options := mkOptions {
  startDate : option Z;
  endDate : option Z;
  optProject : option string;
  optOperation : option string
}.

Definition noOptions : Options := mkOptions None None None None.

Record Statistics := mkStatistics {
  totalEntries : nat;
  totalTokens : Z;
  dateRange : option (Z * Z)
}.

Record History := mkHistory {
  entries : list Entry;
  statistics : Statistics
}.

Definition sumTokens (es : list Entry) : Z :=
  fold_left (fun sum e => sum + tokensUsed e) es 0.

(** [getTokenHistory(options)] over the stored log [log] (what
    [loadHistory().entries] returns; a missing or corrupt store is the empty
    log).  The per-label groupings of [statistics] are not embedded. *)
Definition getTokenHistory (options : Options) (log : list Entry) : History :=
  let entries := log in
  let entries :=
    match startDate options with
    | Some start => filter (fun e => timestamp e >=? start) entries
    | None => entries
    end in
  let entries :=
    match endDate options with
    | Some end_ => filter (fun e => timestamp e <=? end_) entries
    | None => entries
    end in
  let entries :=
    if truthy_opt (optProject options)
    then filter (fun e => match optProject options with
                          | Some p => (project e =? p)%string
                          | None => false
                          end) entries
    else entries in
  let entries :=
    if truthy_opt (optOperation options)
    then filter (fun e => match optOperation options with
                          | Some o => (operation e =? o)%string
                          | None => false
                          end) entries
    else entries in
  {| entries := entries;
     statistics :=
       {| totalEntries := List.length entries;
          totalTokens := sumTokens entries;
          dateRange :=
            match entries with
            | [] => None
            | e :: _ => Some (timestamp e, timestamp (last entries e))
            end |} |}.


Section RowImport.
(** [extractProjectFromPath], a chain of regular expressions over the
    file name, only labels the entry; it is kept abstract. *)
Variable extractProjectFromPath : string -> string.



End RowImport.

(** What the specification asks of a query result: time stamps ascending. *)
Definition ascending (es : list Entry) : Prop :=
  Sorted (fun a b => timestamp a <= timestamp b) es.

(** The filter of a query, as one predicate. *)
Definition matches (options : Options) (e : Entry) : bool :=
  match startDate options with Some s => timestamp e >=? s | None => true end
  && match endDate options with Some s => timestamp e <=? s | None => true end
  && match optProject options with
     | Some p => if truthy p then (project e =? p)%string else true
     | None => true
     end
  && match optOperation options with
     | Some o => if truthy o then (operation e =? o)%string else true
     | None => true
     end.

End TokenTracker.

(* ================================================================= *)
(** ** src/utils/session-manager.js *)

Module SessionManager.
Import JS.

Record Activity := mkActivity {
  a_timestamp : Z;
  a_type : string;
  a_description : string
}.

(** A session document as stored ([sessions.json], [cursor_sessions]).
    Optional keys are [option]s: scripts write documents without
    [promptGroups], hand-made ones may lack the arrays. *)
Record Session := mkSession {
  id : string;
  startTime : Z;
  endTime : option Z;
  projectId : option Z;
  projectCode : option string;
  projectName : option string;
  description : string;
  conversationId : option string;
  tokenEntries : option (list string);
  totalTokens : option Z;
  activities : option (list Activity);
  tags : list string;
  promptGroups : option (list string)
}.

Definition setEndTime (v : option Z) (s : Session) : Session :=
  mkSession (id s) (startTime s) v (projectId s) (projectCode s)
    (projectName s) (description s) (conversationId s) (tokenEntries s)
    (totalTokens s) (activities s) (tags s) (promptGroups s).

Definition setDescription (v : string) (s : Session) : Session :=
  mkSession (id s) (startTime s) (endTime s) (projectId s) (projectCode s)
    (projectName s) v (conversationId s) (tokenEntries s)
    (totalTokens s) (activities s) (tags s) (promptGroups s).

Definition setTokenEntries (v : option (list string)) (s : Session) : Session :=
  mkSession (id s) (startTime s) (endTime s) (projectId s) (projectCode s)
    (projectName s) (description s) (conversationId s) v
    (totalTokens s) (activities s) (tags s) (promptGroups s).

Definition setTotalTokens (v : option Z) (s : Session) : Session :=
  mkSession (id s) (startTime s) (endTime s) (projectId s) (projectCode s)
    (projectName s) (description s) (conversationId s) (tokenEntries s)
    v (activities s) (tags s) (promptGroups s).

Definition setActivities (v : option (list Activity)) (s : Session) : Session :=
  mkSession (id s) (startTime s) (endTime s) (projectId s) (projectCode s)
    (projectName s) (description s) (conversationId s) (tokenEntries s)
    (totalTokens s) v (tags s) (promptGroups s).

Definition setPromptGroups (v : option (list string)) (s : Session) : Session :=
  mkSession (id s) (startTime s) (endTime s) (projectId s) (projectCode s)
    (projectName s) (description s) (conversationId s) (tokenEntries s)
    (totalTokens s) (activities s) (tags s) v.

(** [!s.endTime]: an ISO stamp is a non-empty string, hence truthy. *)
Definition isEnded (s : Session) : bool :=
  match endTime s with Some _ => true | None => false end.

(** A write to persistent storage. *)
Inductive Write :=
| WSessions (ss : list Session)        (* saveSessions(ss) *)
| WActive (a : option string).         (* setActiveSessionId(a) *)

(** The storage a process sees: the session list, the active-session
    pointer (what [getActiveSessionId()] returns), the entry log, and the
    writes performed so far, latest first. *)
Record World := mkWorld {
  sessions : list Session;
  activeId : option string;
  history : list TokenTracker.Entry;
  writes : list Write
}.

Definition loadSessions (w : World) : list Session := sessions w.

Definition saveSessions (ss : list Session) (w : World) : World :=
  mkWorld ss (activeId w) (history w) (WSessions ss :: writes w).

Definition getActiveSessionId (w : World) : option string := activeId w.

(** [setActiveSessionId(id)]: a falsy id removes the pointer. *)
Definition setActiveSessionId (a : option string) (w : World) : World :=
  let a' := if truthy_opt a then a else None in
  mkWorld (sessions w) a' (history w) (WActive a' :: writes w).

Definition SESSION_TIMEOUT_MS : Z := 2 * 60 * 60 * 1000.

(** [generateSessionId()]; [rnd] is
    [Math.random().toString(36).substr(2, 9)]. *)
Definition generateSessionId (now : Z) (rnd : string) : string :=
  ("session_" ++ toString now ++ "_" ++ rnd)%string.

Definition opt_str_or_null (o : option string) : option string :=
  if truthy_opt o then o else None.

(** [new Session(data)] on a stored document: every field is
    [data.f || default].  At each such call [data.id] is the non-empty id
    the document was looked up by and [data.startTime] is present, so the
    two generated defaults are dead; [startSession] below covers the
    creation.  The class has no [promptGroups] field. *)
Definition newSession (data : Session) : Session :=
  {| id := id data;
     startTime := startTime data;
     endTime := endTime data;
     projectId := if truthy_num (projectId data) then projectId data else None;
     projectCode := opt_str_or_null (projectCode data);
     projectName := opt_str_or_null (projectName data);
     description := description data;
     conversationId := opt_str_or_null (conversationId data);
     tokenEntries := Some match tokenEntries data with
                          | Some l => l | None => [] end;
     totalTokens := Some (num_or_zero (totalTokens data));
     activities := Some match activities data with
                        | Some l => l | None => [] end;
     tags := tags data;
     promptGroups := None |}.

(** The [options] of [startSession]. *)
Record StartOptions := mkStartOptions {
  o_projectId : option Z;
  o_projectCode : option string;
  o_projectName : option string;
  o_description : option string;
  o_conversationId : option string;
  o_tags : option (list string)
}.

(** [entries.find(e => e.metadata?.entryId === entryId)] *)
Definition findEntry (log : list TokenTracker.Entry) (entryId : string)
    : option TokenTracker.Entry :=
  find (fun e => match TokenTracker.entryId (TokenTracker.metadata e) with
                 | Some x => (x =? entryId)%string
                 | None => false
                 end) log.

(** [session.tokenEntries?.map(id => entries.find(...)).filter(Boolean)
    .reduce((sum, e) => sum + e.tokensUsed, 0) || 0], the expression that
    [endSession] and the timeout sweep both contain. *)
Definition sessionTokens (log : list TokenTracker.Entry) (s : Session) : Z :=
  match tokenEntries s with
  | Some ids =>
      fold_left (fun sum e => sum + TokenTracker.tokensUsed e)
        (flat_map (fun i => match findEntry log i with
                            | Some e => [e]
                            | None => []
                            end) ids) 0
  | None => 0
  end.

(** The block guarded by [!session.totalTokens || session.totalTokens === 0];
    [log] is the stored entry log that [getTokenHistory()] reads. *)
Definition finalizeTokens (log : list TokenTracker.Entry) (s : Session) : Session :=
  if negb (truthy_num (totalTokens s)) then
    let tokenHistory := TokenTracker.getTokenHistory TokenTracker.noOptions log in
    let st := sessionTokens (TokenTracker.entries tokenHistory) s in
    if st >? 0 then setTotalTokens (Some st) s else s
  else s.

Definition getLastActivityTime (log : list TokenTracker.Entry) (s : Session) : Z :=
  let lastActivity := startTime s in
  let lastActivity :=
    match activities s with
    | Some (a :: r) =>
        let latestActivity := maxList (a_timestamp a) (map a_timestamp r) in
        if latestActivity >? lastActivity then latestActivity else lastActivity
    | _ => lastActivity
    end in
  let tokenHistory := TokenTracker.getTokenHistory TokenTracker.noOptions log in
  match tokenEntries s with
  | Some ((_ :: _) as ids) =>
      let sessionTokenEntries :=
        filter (fun e => match TokenTracker.entryId (TokenTracker.metadata e) with
                         | Some x => includes x ids
                         | None => false
                         end) (TokenTracker.entries tokenHistory) in
      match sessionTokenEntries with
      | e :: r =>
          let latestToken :=
            maxList (TokenTracker.timestamp e) (map TokenTracker.timestamp r) in
          if latestToken >? lastActivity then latestToken else lastActivity
      | [] => lastActivity
      end
  | _ => lastActivity
  end.

(** [activeId === session.id] *)
Definition pointsTo (a : option string) (s : Session) : bool :=
  match a with Some x => (x =? id s)%string | None => false end.

(** The text of an automatic end. *)
Definition autoDescription (inactiveMs : Z) : string :=
  ("Auto-ended after " ++ toString (roundDiv inactiveMs (60 * 60 * 1000))
   ++ " hours of inactivity")%string.

(** Whether the sweep ends [s] at [now]. *)
Definition timedOut (now timeoutMs : Z) (log : list TokenTracker.Entry)
    (s : Session) : bool :=
  negb (isEnded s) && (now - getLastActivityTime log s >=? timeoutMs).

(** The session as the sweep leaves it when it ends it. *)
Definition autoEnd (now : Z) (log : list TokenTracker.Entry) (s : Session)
    : Session :=
  let inactiveMs := now - getLastActivityTime log s in
  let s := finalizeTokens log s in
  let s := setEndTime (Some now) s in
  setDescription (if truthy (description s) then description s
                  else autoDescription inactiveMs) s.

(** One turn of [sessions.forEach]: the array built so far, the ids ended
    so far, and the world (pointer and writes) are threaded through. *)
Definition sweepStep (now timeoutMs : Z)
    (acc : list Session * list string * World) (s : Session)
    : list Session * list string * World :=
  let '(done, ended, w) := acc in
  if isEnded s then (done ++ [s], ended, w)
  else
    let lastActivity := getLastActivityTime (history w) s in
    let inactiveMs := now - lastActivity in
    if inactiveMs >=? timeoutMs then
      let s' := autoEnd now (history w) s in
      let w' := if pointsTo (getActiveSessionId w) s'
                then setActiveSessionId None w else w in
      (done ++ [s'], ended ++ [id s'], w')
    else (done ++ [s], ended, w).

Definition checkAndEndTimedOutSessions (now timeoutMs : Z) (w : World)
    : list string * World :=
  let sessions := loadSessions w in
  let '(sessions', endedSessions, w1) :=
    fold_left (sweepStep now timeoutMs) sessions ([], [], w) in
  match endedSessions with
  | [] => (endedSessions, w1)
  | _ :: _ => (endedSessions, saveSessions sessions' w1)
  end.

(** The [new Session({ projectId: options.projectId, ... })] of
    [startSession]: [id] and [startTime] are not given, so the constructor
    generates them. *)
Definition sessionOfOptions (options : StartOptions) (now : Z) (rnd : string)
    : Session :=
  {| id := generateSessionId now rnd;
     startTime := now;
     endTime := None;
     projectId := if truthy_num (o_projectId options)
                  then o_projectId options else None;
     projectCode := opt_str_or_null (o_projectCode options);
     projectName := opt_str_or_null (o_projectName options);
     description := match o_description options with
                    | Some d => d | None => EmptyString end;
     conversationId := opt_str_or_null (o_conversationId options);
     tokenEntries := Some [];
     totalTokens := Some 0;
     activities := Some [];
     tags := match o_tags options with Some t => t | None => [] end;
     promptGroups := None |}.

(** [startSession(options)]; returns the session handed to the caller. *)
Definition startSession (options : StartOptions) (now : Z) (rnd : string)
    (w : World) : Session * World :=
  let w := snd (checkAndEndTimedOutSessions now SESSION_TIMEOUT_MS w) in
  let activeId := getActiveSessionId w in
  let existing :=
    if truthy_opt activeId then
      match find (fun s => pointsTo activeId s) (loadSessions w) with
      | Some active => if negb (isEnded active) then Some active else None
      | None => None
      end
    else None in
  match existing with
  | Some active => (newSession active, w)
  | None =>
      let session := sessionOfOptions options now rnd in
      let sessions := loadSessions w in
      let w := saveSessions (sessions ++ [session]) w in
      let w := setActiveSessionId (Some (id session)) w in
      (session, w)
  end.

(** [endSession(options)]; [None] is [null].  [sessions[sessionIndex]] is
    [nth_error]: the index comes from [findIndex], so its [None] branch is
    never taken (here and in the two functions that add to a session). *)
Definition endSession (o_desc : option string) (now : Z) (w : World)
    : option Session * World :=
  let activeId := getActiveSessionId w in
  if negb (truthy_opt activeId) then (None, w)
  else
    let sessions := loadSessions w in
    match findIndex (fun s => pointsTo activeId s) sessions with
    | None => (None, setActiveSessionId None w)
    | Some sessionIndex =>
        match nth_error sessions sessionIndex with
        | None => (None, setActiveSessionId None w)
        | Some session =>
            if isEnded session
            then (Some (newSession session), setActiveSessionId None w)
            else
              let session :=
                match o_desc with
                | Some d => if truthy d then setDescription d session else session
                | None => session
                end in
              let session := finalizeTokens (history w) session in
              let session := setEndTime (Some now) session in
              let sessions := setAt sessionIndex session sessions in
              let w := saveSessions sessions w in
              let w := setActiveSessionId None w in
              (Some (newSession session), w)
        end
    end.

(** [getActiveSession()] *)
Definition getActiveSession (now : Z) (w : World) : option Session * World :=
  let w := snd (checkAndEndTimedOutSessions now SESSION_TIMEOUT_MS w) in
  let activeId := getActiveSessionId w in
  if negb (truthy_opt activeId) then (None, w)
  else
    (option_map newSession
       (find (fun s => pointsTo activeId s && negb (isEnded s)) (loadSessions w)),
     w).

(** [addTokenEntryToSession(sessionId, entryId)] *)
Definition addTokenEntryToSession (sessionId entryId : string) (now : Z)
    (w : World) : bool * World :=
  let w := snd (checkAndEndTimedOutSessions now SESSION_TIMEOUT_MS w) in
  let sessions := loadSessions w in
  match findIndex (fun s => (id s =? sessionId)%string) sessions with
  | None => (false, w)
  | Some sessionIndex =>
      match nth_error sessions sessionIndex with
      | None => (false, w)
      | Some session =>
          if isEnded session then (false, w)
          else
            let entries := match tokenEntries session with
                           | Some l => l | None => [] end in
            if negb (includes entryId entries) then
              let session := setTokenEntries (Some (entries ++ [entryId])) session in
              (true, saveSessions (setAt sessionIndex session sessions) w)
            else (true, w)
      end
  end.

(** The [activity] argument of [addActivityToSession]. *)
Record ActivityInput := mkActivityInput {
  i_type : string;
  i_description : option string
}.

(** [addActivityToSession(sessionId, activity)] *)
Definition addActivityToSession (sessionId : string) (activity : ActivityInput)
    (now : Z) (w : World) : bool * World :=
  let w := snd (checkAndEndTimedOutSessions now SESSION_TIMEOUT_MS w) in
  let sessions := loadSessions w in
  match findIndex (fun s => (id s =? sessionId)%string) sessions with
  | None => (false, w)
  | Some sessionIndex =>
      match nth_error sessions sessionIndex with
      | None => (false, w)
      | Some session =>
          if isEnded session then (false, w)
          else
            let acts := match activities session with
                        | Some l => l | None => [] end in
            let item := {| a_timestamp := now;
                           a_type := i_type activity;
                           a_description := match i_description activity with
                                            | Some d => d | None => EmptyString end |} in
            let session := setActivities (Some (acts ++ [item])) session in
            (true, saveSessions (setAt sessionIndex session sessions) w)
      end
  end.

(** The manager under Node.  There [getNodeModules] asks for [require]
    inside a function built by [new Function], which runs in the global
    scope, where Node defines no [require]; it returns null, so
    [loadSessions] answers the empty array, [getActiveSessionId] null, and
    [saveSessions] and [setActiveSessionId] return without writing.  A script
    that calls the manager therefore gets what the call returns on an empty
    store (none of the functions embedded here reads again what it has
    written), and the files are left as they are. *)
Definition inertStore : World := mkWorld [] None [] [].

Definition underNode {A} (call : World -> A * World) (w : World) : A * World :=
  (fst (call inertStore), w).

End SessionManager.

(* ================================================================= *)
(** ** scripts/sync-tokens-to-session.js *)

Module SyncTokens.
Import JS SessionManager.

(** A row as the script's [SELECT] delivers it.  The statement does not
    select [requestId], so [row.requestId] is [undefined] on every row. *)
Record Row := mkRow {
  hash : option string;
  model : option string;
  fileName : option string;
  fileExtension : option string;
  source : option string;
  createdAt : Z;
  conversationId : option string
}.

Definition requestId (row : Row) : option string := None.

(** [`entry_${row.createdAt}_${row.hash.substring(0, 8)}`]; a [null] hash
    makes [substring] throw, which is [None]. *)
Definition entryIdOf (row : Row) : option string :=
  match hash row with
  | Some h =>
      Some ("entry_" ++ toString (createdAt row) ++ "_" ++ substring0 8 h)%string
  | None => None
  end.

(** [row.source ? row.source.length : 0] *)
Definition codeLengthOf (row : Row) : Z :=
  match source row with
  | Some src => if truthy src then Z.of_nat (String.length src) else 0
  | None => 0
  end.

Definition estimatedTokensOf (row : Row) : Z := ceilDiv (codeLengthOf row) 4.

Definition promptKeyOf (row : Row) : string :=
  match conversationId row, requestId row with
  | Some c, Some r =>
      if truthy c && truthy r then (c ++ "_" ++ r)%string
      else ("prompt_" ++ toString (createdAt row / 60000))%string
  | _, _ => ("prompt_" ++ toString (createdAt row / 60000))%string
  end.

(** The [Map] from prompt key to entry ids, keys in insertion order. *)
Definition PromptMap := list (string * list string).

Definition mapHas (k : string) (m : PromptMap) : bool :=
  existsb (fun kv => (fst kv =? k)%string) m.

Definition mapPush (k v : string) (m : PromptMap) : PromptMap :=
  let m := if mapHas k m then m else m ++ [(k, [])] in
  map (fun kv => if (fst kv =? k)%string then (fst kv, snd kv ++ [v]) else kv) m.

(** The locals that [rows.forEach] updates. *)
Record Acc := mkAcc {
  newTokens : Z;
  newChars : Z;
  newEntryIds : list string;
  promptGroupsMap : PromptMap;
  fileSet : list string
}.

Definition acc0 : Acc := mkAcc 0 0 [] [] [].

(** One turn of [rows.forEach]; [existingIds] is the set built before the
    loop and never updated inside it. *)
Definition rowStep (existingIds : list string) (acc : option Acc) (row : Row)
    : option Acc :=
  match acc with
  | None => None
  | Some acc =>
      match entryIdOf row with
      | None => None
      | Some entryId =>
          if negb (includes entryId existingIds) then
            let codeLength := codeLengthOf row in
            let estimatedTokens := ceilDiv codeLength 4 in
            Some {| newTokens := newTokens acc + estimatedTokens;
                    newChars := newChars acc + codeLength;
                    newEntryIds := newEntryIds acc ++ [entryId];
                    promptGroupsMap :=
                      mapPush (promptKeyOf row) entryId (promptGroupsMap acc);
                    fileSet := match fileName row with
                               | Some f => if truthy f then setAdd (fileSet acc) f
                                           else fileSet acc
                               | None => fileSet acc
                               end |}
          else Some acc
      end
  end.

Definition processRows (existingIds : list string) (rows : list Row)
    : option Acc :=
  fold_left (rowStep existingIds) rows (Some acc0).

(** The body of the query callback on the active session's document:
    [None] when a row throws, the document unchanged when there is no row. *)
Definition syncRows (session : Session) (rows : list Row) : option Session :=
  match rows with
  | [] => Some session
  | _ :: _ =>
      let entries := match tokenEntries session with
                     | Some l => l | None => [] end in
      let existingIds := entries in
      match processRows existingIds rows with
      | None => None
      | Some acc =>
          let existingPromptGroups :=
            setFrom (match promptGroups session with
                     | Some l => l | None => [] end) in
          let existingPromptGroups :=
            fold_left setAdd (map fst (promptGroupsMap acc)) existingPromptGroups in
          let session := setTokenEntries (Some entries) session in
          let session := setPromptGroups (Some existingPromptGroups) session in
          let session :=
            setTokenEntries (Some (entries ++ newEntryIds acc)) session in
          let previousTokens := num_or_zero (totalTokens session) in
          Some (setTotalTokens (Some (previousTokens + newTokens acc)) session)
      end
  end.

Inductive Outcome :=
| Synced            (* the callback ran to its end *)
| Exit1             (* process.exit(1): no pointer, no such active session,
                       or no database *)
| Thrown.           (* a row without hash: uncaught TypeError *)

(** [main()]; [db] is the database, [None] when its file is missing,
    otherwise the answer to the query for a given [createdAt] threshold.
    A missing [sessions.json] is the empty list: the script exits either
    way.  The script runs under Node: its opening call of
    [checkAndEndTimedOutSessions] goes through the manager and ends
    nothing; pointer and sessions are then read with [fs] by the script
    itself. *)
Definition main (db : option (Z -> list Row)) (now : Z) (w : World)
    : Outcome * World :=
  let w := snd (underNode (checkAndEndTimedOutSessions now SESSION_TIMEOUT_MS) w) in
  match activeId w with
  | None => (Exit1, w)
  | Some activeSessionId =>
      let sessions := loadSessions w in
      match findIndex (fun s => (id s =? activeSessionId)%string
                                && negb (isEnded s)) sessions with
      | None => (Exit1, w)
      | Some sessionIndex =>
          match nth_error sessions sessionIndex, db with
          | Some activeSession, Some query =>
              let sessionStartTimestamp := startTime activeSession in
              let rows := query sessionStartTimestamp in
              match rows with
              | [] => (Synced, w)
              | _ :: _ =>
                  match syncRows activeSession rows with
                  | None => (Thrown, w)
                  | Some session =>
                      (Synced,
                       saveSessions (setAt sessionIndex session sessions) w)
                  end
              end
          | _, _ => (Exit1, w)
          end
      end
  end.

End SyncTokens.

(* ================================================================= *)
(** ** App.jsx, [syncSessionsFromFileSystem]: file tier to browser cache *)

Module SyncBridge.
Import JS SessionManager.

(** The JSON body of [GET /api/sessions]. *)
Record FileData := mkFileData {
  f_sessions : option (list Session);
  activeSessionId : option string
}.

(** The two [localStorage] items; [None] is a missing item. *)
Record Cache := mkCache {
  cursor_sessions : option (list Session);
  cursor_active_session : option string
}.

Definition hasId (x : string) (l : list Session) : bool :=
  existsb (fun s => (id s =? x)%string) l.

Definition findById (x : string) (l : list Session) : option Session :=
  find (fun s => (id s =? x)%string) l.

(** The merged array written to [cursor_sessions]. *)
Definition mergeSessions (fileSessions existingSessions : list Session)
    : list Session :=
  let newSessions :=
    filter (fun s => negb (hasId (id s) existingSessions)) fileSessions in
  let updatedSessions :=
    map (fun existing =>
           match findById (id existing) fileSessions with
           | Some updated => updated
           | None => existing
           end) existingSessions in
  updatedSessions ++ newSessions.

(** [dev] is [import.meta.env.DEV]; [response] is [None] when the request
    fails or is not ok. *)
Definition syncSessionsFromFileSystem (dev : bool) (response : option FileData)
    (c : Cache) : Cache :=
  if dev then
    match response with
    | Some data =>
        match f_sessions data with
        | Some ((_ :: _) as fileSessions) =>
            let existingSessions :=
              match cursor_sessions c with Some l => l | None => [] end in
            let mergedSessions := mergeSessions fileSessions existingSessions in
            {| cursor_sessions := Some mergedSessions;
               cursor_active_session :=
                 if truthy_opt (activeSessionId data)
                 then activeSessionId data
                 else cursor_active_session c |}
        | _ => c
        end
    | None => c
    end
  else c.

End SyncBridge.

(* ================================================================= *)
(** ** Reference notions and sample data used by the statements *)

Module LogSamples.
Import JS TokenTracker.

Definition sampleEntry (t tokens : Z) (proj op : string) (eid : string)
    : TokenTracker.Entry :=
  {| timestamp := t; tokensUsed := tokens; model := "unknown";
     operation := op; project := proj; file := None;
     metadata := TokenTracker.mkMetadata (Some eid) None None None None |}.

(** An entry stamped 100. *)
Definition manualEntry : TokenTracker.Entry :=
  sampleEntry 100 7 "unknown" "chat" "entry_100_abc".

(** An entry stamped 50. *)
Definition olderEntry : TokenTracker.Entry :=
  sampleEntry 50 2 "unknown" "code-generation" "entry_50_def".

(** A stored log that holds the entry of time 100 before the entry of time
    50, as the stored item reads after it was written by hand or by a clock
    that was set back. *)
Definition mixedLog : list TokenTracker.Entry := [manualEntry; olderEntry].

(** A stored log in time order, over two projects. *)
Definition orderedLog : list TokenTracker.Entry :=
  [sampleEntry 50 2 "zhong" "chat" "entry_50_a";
   sampleEntry 100 7 "other" "chat" "entry_100_b";
   sampleEntry 150 3 "zhong" "refactor" "entry_150_c";
   sampleEntry 200 5 "zhong" "chat" "entry_200_d";
   sampleEntry 250 1 "zhong" "chat" "entry_250_e"].

(** Project [zhong], from 60 to 200 inclusive. *)
Definition zhongWindow : Options :=
  mkOptions (Some 60) (Some 200) (Some "zhong") None.
End LogSamples.

Module Samples.
Import JS SessionManager.

(** The cached session list, [JSON.parse(item || '[]')]. *)
Definition cached (c : SyncBridge.Cache) : list Session :=
  match SyncBridge.cursor_sessions c with Some l => l | None => [] end.

Definition endedDoc : Session :=
  mkSession "s1" 10 (Some 90) None None None "done" None (Some []) (Some 5)
    (Some []) [] None.

Definition openDoc : Session :=
  mkSession "s1" 10 None None None None EmptyString None (Some []) (Some 5)
    (Some []) [] None.

(** A logged entry of 7 tokens that session [s2] refers to. *)
Definition entry7 : TokenTracker.Entry :=
  TokenTracker.mkEntry 300 7 "unknown" "chat" "unknown" None
    (TokenTracker.mkMetadata (Some "e1") (Some "s2") None None None).

Definition openDoc2 : Session :=
  mkSession "s2" 100 None None None None EmptyString None (Some ["e1"]) (Some 0)
    (Some []) [] None.

(** One ended and one open session; the pointer names the open one. *)
Definition sampleWorld : World :=
  mkWorld [endedDoc; openDoc2] (Some "s2") [entry7] [].

(** The pointer names a session that has ended. *)
Definition danglingWorld : World := mkWorld [endedDoc] (Some "s1") [] [].

(** An open session started at 10 and never touched since. *)
Definition idleWorld : World := mkWorld [openDoc] (Some "s1") [] [].

Definition emptyWorld : World := mkWorld [] None [] [].

Definition optsA : StartOptions :=
  mkStartOptions None None (Some "A") (Some "first") None None.

Definition optsB : StartOptions :=
  mkStartOptions None None (Some "B") (Some "second") None None.

(** What the sweep does to one stored session. *)
Definition sweepSession (now timeoutMs : Z) (log : list TokenTracker.Entry)
    (s : Session) : Session :=
  if timedOut now timeoutMs log s then autoEnd now log s else s.

(** An entry of the log that the session refers to. *)
Definition referenced (s : Session) (e : TokenTracker.Entry) : bool :=
  match TokenTracker.entryId (TokenTracker.metadata e), tokenEntries s with
  | Some x, Some ids => includes x ids
  | _, _ => false
  end.

Definition activityTimes (s : Session) : list Z :=
  match activities s with Some l => map a_timestamp l | None => [] end.

(** The last activity as the specification words it: the latest of the
    start, the activity stamps and the stamps of the referenced entries. *)
Definition lastActivityRef (log : list TokenTracker.Entry) (s : Session) : Z :=
  maxList (startTime s)
    (activityTimes s ++ map TokenTracker.timestamp (filter (referenced s) log)).

(** A session the sweep has to end: not ended, inactive for the timeout. *)
Definition qualifies (now timeoutMs : Z) (log : list TokenTracker.Entry)
    (s : Session) : bool :=
  match endTime s with
  | None => now - lastActivityRef log s >=? timeoutMs
  | Some _ => false
  end.

(** The sum the specification words: tokens of the log entries whose id the
    session refers to. *)
Definition referencedSum (log : list TokenTracker.Entry) (s : Session) : Z :=
  TokenTracker.sumTokens (filter (referenced s) log).

Definition entryIds (log : list TokenTracker.Entry) : list string :=
  flat_map (fun e => match TokenTracker.entryId (TokenTracker.metadata e) with
                     | Some x => [x]
                     | None => []
                     end) log.

(** The total a closing session gets from the reconciliation rule. *)
Definition reconciledTotal (log : list TokenTracker.Entry) (s : Session)
    : option Z :=
  if truthy_num (totalTokens s) then totalTokens s
  else if sessionTokens log s >? 0 then Some (sessionTokens log s)
       else totalTokens s.

(** A pointer [a] that no open session of the store answers to. *)
Definition stale (a : string) (ss : list Session) : Prop :=
  forall s, In s ss -> id s = a -> isEnded s = true.

Definition open (s : Session) : bool := negb (isEnded s).

(** The pointer after the sweep. *)
Definition sweptPointer (now t : Z) (log : list TokenTracker.Entry)
    (ss : list Session) (a : option string) : option string :=
  if existsb (fun s => timedOut now t log s && pointsTo a s) ss then None else a.

(** The world after the loop: the pointer is removed at the first session
    that is ended while the pointer names it. *)
Definition sweptWorld (now t : Z) (ss : list Session) (w : World) : World :=
  if existsb (fun s => timedOut now t (history w) s && pointsTo (activeId w) s) ss
  then setActiveSessionId None w else w.

(** The world [startSession] leaves when it creates a session. *)
Definition afterCreate (options : StartOptions) (now : Z) (rnd : string)
    (w : World) : World :=
  let w1 := snd (checkAndEndTimedOutSessions now SESSION_TIMEOUT_MS w) in
  setActiveSessionId (Some (generateSessionId now rnd))
    (saveSessions (sessions w1 ++ [sessionOfOptions options now rnd]) w1).

(** [e.metadata?.entryId === i] *)
Definition isId (i : string) (e : TokenTracker.Entry) : bool :=
  match TokenTracker.entryId (TokenTracker.metadata e) with
  | Some x => (x =? i)%string
  | None => false
  end.

Definition refersTo (ids : list string) (e : TokenTracker.Entry) : bool :=
  match TokenTracker.entryId (TokenTracker.metadata e) with
  | Some x => includes x ids
  | None => false
  end.

End Samples.

Module SyncSamples.
Import JS SessionManager SyncTokens.

(** The reference list of a stored session, [tokenEntries || []]. *)
Definition existingOf (s : Session) : list string :=
  match tokenEntries s with Some l => l | None => [] end.

(** A genuinely new row: its derived id is not among [existing]. *)
Definition isNew (existing : list string) (row : Row) : bool :=
  match entryIdOf row with
  | Some i => negb (includes i existing)
  | None => false
  end.

Definition newRows (s : Session) (rows : list Row) : list Row :=
  filter (isNew (existingOf s)) rows.

Definition sumZ (l : list Z) : Z := fold_right Z.add 0 l.

(** The ids pushed for the new rows, in row order. *)
Definition newIds (existing : list string) (rows : list Row) : list string :=
  flat_map (fun r => match entryIdOf r with
                     | Some i => if includes i existing then [] else [i]
                     | None => []
                     end) rows.

(** A row with [len] characters of code, created at [t]. *)
Definition codeRow (t : Z) (h : string) (len : nat) : Row :=
  mkRow (Some h) None (Some "src/a.js") None (Some (repeatChar "x" len)) t
    (Some "conv1").

Definition threeRows : list Row :=
  [codeRow 60000 "aaaaaaaa11" 400; codeRow 120000 "bbbbbbbb22" 400;
   codeRow 180000 "cccccccc33" 400].

(** A session started at 0 with nothing recorded yet. *)
Definition startedDoc : Session :=
  mkSession "s3" 0 None None None None EmptyString None (Some []) (Some 0)
    (Some []) [] None.

(** A session whose total is already 5000. *)
Definition paidDoc : Session :=
  mkSession "s4" 0 None None None None EmptyString None (Some ["entry_1_old"])
    (Some 5000) (Some []) [] None.

(** [startedDoc] after the pass over [threeRows]. *)
Definition syncedDoc : Session :=
  mkSession "s3" 0 None None None None EmptyString None
    (Some ["entry_60000_aaaaaaaa"; "entry_120000_bbbbbbbb";
           "entry_180000_cccccccc"])
    (Some 300) (Some []) []
    (Some ["prompt_1"; "prompt_2"; "prompt_3"]).

End SyncSamples.

From Stdlib Require DecimalPos.

(** * Further code of the dashboard

  The modules below embed the code around the accounting core:
  - [App.jsx], [generateVersion] and [parseVersion]   (module [Versioning])
  - [cursor-token-tracker.js], [loadHistory], [saveHistory],
    [logTokenUsage] and [syncFromCursorDatabase]      (module [TrackerWrite])
  - [session-manager.js], the queries and the edits   (module [SessionQueries])
  - [scripts/start-session.js]                        (module [StartSessionCli])
  - [scripts/move-sessions-to-zhong.js]               (module [MoveToZhong])
  - [scripts/recalculate-all-session-tokens.js]       (module [Recalculate])
  - [scripts/add-tokens-to-session.js]                (module [AddTokens])
  - [components/SessionStats.jsx], the prompt count   (module [PromptStats])
  - [utils/session-prompt.js], the chat commands      (module [SessionPrompt])
  - [data/projects.js], the default projects          (module [DefaultProjects])
  Modules named [...Refs] and [...Samples] hold the notions and the data the
  statements are written with. *)

(* ================================================================= *)
(** ** Further JavaScript primitives *)

Module JSText.
Import JS.

(** A string all of whose characters match [\d]. *)
Fixpoint allDigits (s : string) : bool :=
  match s with
  | EmptyString => true
  | String c r => isDigit c && allDigits r
  end.

(** The string without its last character, and that character. *)
Fixpoint splitLast (s : string) : option (string * ascii) :=
  match s with
  | EmptyString => None
  | String c r =>
      match splitLast r with
      | None => Some (EmptyString, c)
      | Some (front, l) => Some (String c front, l)
      end
  end.

(** [s.startsWith(p)] *)
Fixpoint startsWith (p s : string) : bool :=
  match p, s with
  | EmptyString, _ => true
  | String a p', String b s' => Ascii.eqb a b && startsWith p' s'
  | String _ _, EmptyString => false
  end.

(** The longest prefix of decimal digits of [s], and what follows it. *)
Fixpoint spanDigits (s : string) : string * string :=
  match s with
  | String c r =>
      if isDigit c then let (d, rest) := spanDigits r in (String c d, rest)
      else (EmptyString, s)
  | EmptyString => (EmptyString, EmptyString)
  end.

(** [arr.slice(-n)]: the last [n] elements, all of them if there are fewer. *)
Definition lastN {A} (n : nat) (l : list A) : list A :=
  skipn (List.length l - n) l.

(** The ten characters [\d] matches. *)
Definition digitChars : list ascii :=
  ["0"; "1"; "2"; "3"; "4"; "5"; "6"; "7"; "8"; "9"]%char.

End JSText.

(* ================================================================= *)
(** ** Executable checks on the pieces of identifiers *)

Module IdChecks.
Import JS JSText ProjectId.

Definition two (a b : ascii) : string := String a (String b EmptyString).

(** The two digits [a b] read as a year of this century render back to
    [a b]. *)
Definition yearBack (a b : ascii) : bool :=
  match parseInt ("20" ++ two a b)%string with
  | Some y => (2000 <=? y) && (y <=? 2099)
              && (sliceLast 2 (toString y) =? two a b)%string
  | None => false
  end.

(** The two digits [a b] read as a project number pad back to [a b]. *)
Definition numberBack (a b : ascii) : bool :=
  match parseInt (two a b) with
  | Some n => (0 <=? n) && (n <=? 99)
              && (padStart 2 "0" (toString n) =? two a b)%string
  | None => false
  end.

(** The digit [q] read as a number renders back to [q]. *)
Definition digitBack (q : ascii) : bool :=
  match parseInt (String q EmptyString) with
  | Some v => (0 <=? v) && (v <=? 9)
              && (toString v =? String q EmptyString)%string
  | None => false
  end.

(** The last two digits of year [y] read as the number [y - 2000]. *)
Definition yearShortOk (y : Z) : bool :=
  match sliceLast 2 (toString y) with
  | String a (String b EmptyString) =>
      isDigit a && isDigit b && optZ_eqb (parseInt (two a b)) (y - 2000)
  | _ => false
  end.

(** A two-digit number renders as its tens digit and its units digit. *)
Definition twoDigitOk (u : Z) : bool :=
  match toString u with
  | String a (String b EmptyString) =>
      isDigit a && isDigit b && (digitVal a =? u / 10) && (digitVal b =? u mod 10)
  | _ => false
  end.

End IdChecks.

(* ================================================================= *)
(** ** src/utils/versioning.js *)

Module Versioning.
Import JS JSText ProjectId.

(** [generateVersion(date, featureId, updateIndex)] *)
Definition generateVersion (date : JsDate) (featureId updateIndex : Z) : string :=
  let year := sliceLast 2 (toString (getFullYear date)) in
  let month := getMonth date in
  let quarter := month / 3 + 1 in
  ("c" ++ year ++ "Q" ++ toString quarter ++ "F" ++ toString featureId
   ++ toString updateIndex)%string.

(** The four groups of [/^c(\d{2})Q(\d)F(\d+)(\d+)$/]: the first [\d+] is
    greedy and leaves the second exactly one digit. *)
Definition matchVersion (s : string)
    : option (string * string * string * string) :=
  match s with
  | String "c" (String y1 (String y2 (String "Q" (String q (String "F" rest))))) =>
      if isDigit y1 && isDigit y2 && isDigit q && allDigits rest then
        match splitLast rest with
        | Some (String f fs, l) =>
            Some (String y1 (String y2 EmptyString), String q EmptyString,
                  String f fs, String l EmptyString)
        | _ => None
        end
      else None
  | _ => None
  end.

(** Numeric fields are [option Z]: [None] is NaN. *)
Record ParsedVersion := mkParsedVersion {
  v_year : option Z;
  v_quarter : option Z;
  v_featureId : option Z;
  v_updateIndex : option Z
}.

(** [parseVersion(versionString)]; [None] is [null]. *)
Definition parseVersion (versionString : string) : option ParsedVersion :=
  match matchVersion versionString with
  | None => None
  | Some (m1, m2, m3, m4) =>
      Some {| v_year := parseInt m1;
              v_quarter := parseInt m2;
              v_featureId := parseInt m3;
              v_updateIndex := parseInt m4 |}
  end.

End Versioning.

(* ================================================================= *)
(** ** src/utils/cursor-token-tracker.js: writing the log *)

Module TrackerWrite.
Import JS JSText TokenTracker SessionManager.

Definition MAX_ENTRIES : nat := Z.to_nat 10000.

(** [saveHistory(data)]: the entries as they are persisted. *)
Definition saveHistory (entries : list Entry) : list Entry :=
  if (MAX_ENTRIES <? List.length entries)%nat
  then lastN MAX_ENTRIES entries else entries.

(** The [usage] argument of [logTokenUsage]; [u_metadata] is
    [usage.metadata], spread into the entry's metadata. *)
Record Usage := mkUsage {
  u_tokensUsed : option Z;
  u_model : option string;
  u_operation : option string;
  u_project : option string;
  u_file : option string;
  u_metadata : Metadata
}.

Definition str_or (o : option string) (d : string) : string :=
  match o with Some s => if truthy s then s else d | None => d end.

(** The entry [logTokenUsage] builds; [rnd] is
    [Math.random().toString(36).substr(2, 9)]. *)
Definition entryOfUsage (usage : Usage) (now : Z) (rnd : string)
    (activeSessionId : option string) : Entry :=
  let entryId := ("entry_" ++ toString now ++ "_" ++ rnd)%string in
  {| timestamp := now;
     tokensUsed := num_or_zero (u_tokensUsed usage);
     model := str_or (u_model usage) "unknown";
     operation := str_or (u_operation usage) "unknown";
     project := str_or (u_project usage) "unknown";
     file := if truthy_opt (u_file usage) then u_file usage else None;
     metadata := {| TokenTracker.entryId := Some entryId;
                    TokenTracker.sessionId := activeSessionId;
                    TokenTracker.hash := TokenTracker.hash (u_metadata usage);
                    TokenTracker.conversationId :=
                      TokenTracker.conversationId (u_metadata usage);
                    TokenTracker.requestId :=
                      TokenTracker.requestId (u_metadata usage) |} |}.

(** The synchronous part of [logTokenUsage(usage)] in the browser: the
    pointer is read from the [cursor_active_session] item, the entry is
    pushed and the log saved. *)
Definition logTokenUsage (usage : Usage) (now : Z) (rnd : string) (w : World)
    : Entry * World :=
  let activeSessionId := SessionManager.activeId w in
  let entry := entryOfUsage usage now rnd activeSessionId in
  (entry,
   mkWorld (sessions w) (SessionManager.activeId w)
     (saveHistory (history w ++ [entry])) (writes w)).

(** The callback [logTokenUsage] defers with [Promise.resolve().then]: it
    runs at a later instant [now] and adds the reference to the session that
    was active when the entry was logged. *)
Definition logTokenUsageDeferred (entry : Entry) (now : Z) (w : World) : World :=
  match TokenTracker.sessionId (metadata entry),
        TokenTracker.entryId (metadata entry) with
  | Some sid, Some eid =>
      if truthy sid then snd (addTokenEntryToSession sid eid now w) else w
  | _, _ => w
  end.

(** [clearHistory()] *)
Definition clearHistory (w : World) : World :=
  mkWorld (sessions w) (SessionManager.activeId w) (saveHistory []) (writes w).







Section CursorImport.
Variable extractProjectFromPath : string -> string.


End CursorImport.

End TrackerWrite.

(* ================================================================= *)
(** ** src/utils/session-manager.js: queries and edits *)

Module SessionQueries.
Import JS JSText SessionManager.

(** [updateSessionDescription(sessionId, description)] *)
Definition updateSessionDescription (sessionId description : string) (w : World)
    : bool * World :=
  let sessions := loadSessions w in
  match findIndex (fun s => (id s =? sessionId)%string) sessions with
  | None => (false, w)
  | Some sessionIndex =>
      match nth_error sessions sessionIndex with
      | None => (false, w)
      | Some session =>
          (true,
           saveSessions
             (setAt sessionIndex (setDescription description session) sessions) w)
      end
  end.

Definition setProject (pid : option Z) (pname : option string) (s : Session)
    : Session :=
  mkSession (id s) (startTime s) (endTime s) pid (projectCode s) pname
    (description s) (conversationId s) (tokenEntries s) (totalTokens s)
    (activities s) (tags s) (promptGroups s).

(** [associateSessionWithProject(sessionId, projectId, projectName)] *)
Definition associateSessionWithProject (sessionId : string) (pid : option Z)
    (pname : option string) (w : World) : bool * World :=
  let sessions := loadSessions w in
  match findIndex (fun s => (id s =? sessionId)%string) sessions with
  | None => (false, w)
  | Some sessionIndex =>
      match nth_error sessions sessionIndex with
      | None => (false, w)
      | Some session =>
          (true,
           saveSessions (setAt sessionIndex (setProject pid pname session) sessions) w)
      end
  end.

(** The [options] of [getSessions]; [None] is [undefined], and for the
    two project keys [Some None] is [null]. *)
Record GetOptions := mkGetOptions {
  g_projectId : option (option Z);
  g_projectCode : option (option string);
  g_startDate : option Z;
  g_endDate : option Z;
  g_activeOnly : bool
}.

Definition allSessions : GetOptions := mkGetOptions None None None None false.

(** [===] on values that are a number or [null], a string or [null]. *)
Definition optZ_is (o v : option Z) : bool :=
  match o, v with
  | Some x, Some y => x =? y
  | None, None => true
  | _, _ => false
  end.

Definition optS_is (o v : option string) : bool :=
  match o, v with
  | Some x, Some y => (x =? y)%string
  | None, None => true
  | _, _ => false
  end.

(** [Array.prototype.sort] with [(a, b) => new Date(b.startTime) - new
    Date(a.startTime)]: the sort is stable, so the result is the one an
    insertion from the right gives. *)
Fixpoint insertDesc (s : Session) (l : list Session) : list Session :=
  match l with
  | [] => [s]
  | x :: r =>
      if startTime x <=? startTime s then s :: x :: r
      else x :: insertDesc s r
  end.

Definition sortDesc (l : list Session) : list Session :=
  fold_right insertDesc [] l.

(** [getSessions(options)].  Every stored document goes through
    [new Session]; documents are stored with the id and start stamp they
    were created with. *)
Definition getSessions (options : GetOptions) (w : World) : list Session :=
  let sessions := map newSession (loadSessions w) in
  let sessions :=
    match g_projectId options with
    | Some p => filter (fun s => optZ_is (projectId s) p) sessions
    | None => sessions
    end in
  let sessions :=
    match g_projectCode options with
    | Some c => filter (fun s => optS_is (projectCode s) c) sessions
    | None => sessions
    end in
  let sessions :=
    match g_startDate options with
    | Some start => filter (fun s => startTime s >=? start) sessions
    | None => sessions
    end in
  let sessions :=
    match g_endDate options with
    | Some end_ => filter (fun s => startTime s <=? end_) sessions
    | None => sessions
    end in
  let sessions :=
    if g_activeOnly options then filter (fun s => negb (isEnded s)) sessions
    else sessions in
  sortDesc sessions.

(** [session.duration]: [None] is [null]. *)
Definition duration (s : Session) : option Z :=
  match endTime s with
  | Some e => Some (e - startTime s)
  | None => None
  end.

(** The counters of [getSessionStats]; the average and the per-label
    groupings are not embedded. *)
Record SessionStats := mkSessionStats {
  totalSessions : nat;
  activeSessions : nat;
  statsTotalTokens : Z;
  totalDuration : Z
}.

Definition getSessionStats (options : GetOptions) (w : World) : SessionStats :=
  let sessions := getSessions options w in
  {| totalSessions := List.length sessions;
     activeSessions := List.length (filter (fun s => negb (isEnded s)) sessions);
     statsTotalTokens :=
       fold_left (fun sum s => sum + num_or_zero (totalTokens s)) sessions 0;
     totalDuration :=
       fold_left (fun sum s => sum + match duration s with
                                     | Some d => d | None => 0 end)
         (filter (fun s => match duration s with
                           | Some _ => true | None => false end) sessions) 0 |}.

(** The store as the session manager keeps it: distinct non-empty ids, and
    no session without end time other than the one the pointer names. *)
Definition wellFormed (w : World) : Prop :=
  NoDup (map id (sessions w))
  /\ (forall s, In s (sessions w) -> truthy (id s) = true)
  /\ (forall s, In s (sessions w) -> isEnded s = false ->
        activeId w = Some (id s)).

Definition allEnded (w : World) : Prop :=
  forall s, In s (sessions w) -> isEnded s = true.

End SessionQueries.

(* ================================================================= *)
(** ** Sample data for the log and the store *)

Module MoreSamples.
Import JS TokenTracker SessionManager TrackerWrite Samples.

Definition usage9 : Usage :=
  mkUsage (Some 9) None (Some "chat") None None
    (mkMetadata None None None None None).

(** A session of the centre project, as the move script writes it. *)
Definition zhongDoc : Session :=
  mkSession "s5" 50 None (Some 0) (Some "26Q1Z00") (Some "Zhong") EmptyString
    None (Some []) (Some 12) (Some []) ["ZHONG"; "Project-0"] None.

Definition zhongWorld : World := mkWorld [zhongDoc] (Some "s5") [] [].

(** No stored session keeps the same reference twice. *)
Definition refsDistinct (w : World) : Prop :=
  forall s ids, In s (sessions w) -> tokenEntries s = Some ids -> NoDup ids.

End MoreSamples.

(* ================================================================= *)
(** ** Reference notions for the queries *)

Module QueryRefs.
Import JS SessionManager SessionQueries.

(** The filters of [getSessions] as one predicate. *)
Definition selects (o : GetOptions) (s : Session) : bool :=
  match g_projectId o with Some p => optZ_is (projectId s) p | None => true end
  && match g_projectCode o with Some c => optS_is (projectCode s) c | None => true end
  && match g_startDate o with Some d => startTime s >=? d | None => true end
  && match g_endDate o with Some d => startTime s <=? d | None => true end
  && (if g_activeOnly o then negb (isEnded s) else true).

(** Latest start first. *)
Definition descending (l : list Session) : Prop :=
  Sorted (fun a b => startTime b <= startTime a) l.

Definition startedAt (t : Z) (s : Session) : bool := startTime s =? t.

Definition sumTotals (l : list Session) : Z :=
  fold_right (fun s acc => num_or_zero (totalTokens s) + acc) 0 l.

Definition sumDurations (l : list Session) : Z :=
  fold_right (fun s acc => match endTime s with
                           | Some e => e - startTime s + acc
                           | None => acc
                           end) 0 l.

End QueryRefs.

(* ================================================================= *)
(** ** scripts/start-session.js *)

Module StartSessionCli.
Import JS SessionManager ProjectId.

Inductive CliOutcome :=
| Started (s : Session)
| CliExit1.

(** [`${n}`] for a parsed number. *)
Definition numText (n : option Z) : string :=
  match n with Some z => toString z | None => "NaN" end.

(** The script; [arg] is [process.argv[2]], and the three instants are
    those of the calls to [getActiveSession], [endSession] and
    [startSession].  The script runs under Node and reaches the store only
    through the manager. *)
Definition startSessionCli (arg : option string) (now1 now2 now3 : Z)
    (rnd : string) (w : World) : CliOutcome * World :=
  match (if truthy_opt arg then arg else None) with
  | None => (CliExit1, w)
  | Some projectCode =>
      match parseProjectId projectCode with
      | None => (CliExit1, w)
      | Some parsed =>
          let '(active, w) := underNode (getActiveSession now1) w in
          let w := match active with
                   | Some _ => snd (underNode (endSession None now2) w)
                   | None => w
                   end in
          let platformName :=
            if truthy (platformType parsed) then platformType parsed
            else "Unknown" in
          let projectName :=
            ("Project " ++ numText (projectNumber parsed)
             ++ " (" ++ platformName ++ ")")%string in
          let '(session, w) :=
            underNode
              (startSession
                 {| o_projectId := None;
                    o_projectCode := Some projectCode;
                    o_projectName := Some projectName;
                    o_description := Some ("Session for " ++ projectCode)%string;
                    o_conversationId := None;
                    o_tags := Some [("Q" ++ numText (quarter parsed))%string;
                                    platformType parsed;
                                    ("Project-" ++ numText (projectNumber parsed))%string] |}
                 now3 rnd) w in
          (Started session, w)
      end
  end.

End StartSessionCli.

(* ================================================================= *)
(** ** scripts/move-sessions-to-zhong.js *)

Module MoveToZhong.
Import JS JSText SessionManager.

Definition SOURCE_PROJECT_CODES : list string := ["26Q1W21"; "26Q1W22"].
Definition TARGET_PROJECT_CODE : string := "26Q1Z00".
Definition TARGET_PROJECT_ID : Z := 0.
Definition TARGET_PROJECT_NAME : string := "Zhong".

(** Whether the [map] callback rewrites the session. *)
Definition isSource (session : Session) : bool :=
  match projectCode session with
  | Some c => truthy c && includes c SOURCE_PROJECT_CODES
  | None => false
  end.

Definition keepTag (t : string) : bool :=
  negb (startsWith "Project-" t)
  && negb (t =? "YANG")%string && negb (t =? "YIN")%string
  && negb (t =? "WEB")%string && negb (t =? "DATABASE")%string
  && negb (t =? "API")%string.

(** The callback of [sessions.map]; the stored [tags] are an array. *)
Definition moveSession (session : Session) : Session :=
  if negb (isSource session) then session
  else
    mkSession (id session) (startTime session) (endTime session)
      (Some TARGET_PROJECT_ID) (Some TARGET_PROJECT_CODE)
      (Some TARGET_PROJECT_NAME) (description session)
      (conversationId session) (tokenEntries session) (totalTokens session)
      (activities session)
      (filter keepTag (tags session)
       ++ ["ZHONG"; ("Project-" ++ toString TARGET_PROJECT_ID)%string])
      (promptGroups session).

(** [main()] on an existing sessions file: the file is written only when
    a session was moved. *)
Definition main (w : World) : World :=
  let sessions := loadSessions w in
  match sessions with
  | [] => w
  | _ :: _ =>
      let updatedCount := List.length (filter isSource sessions) in
      let updatedSessions := map moveSession sessions in
      if (updatedCount =? 0)%nat then w
      else saveSessions updatedSessions w
  end.

End MoveToZhong.

(* ================================================================= *)
(** ** scripts/recalculate-all-session-tokens.js *)

Module Recalculate.
Import JS SessionManager SyncTokens.

(** One turn of [sessionEntries.forEach]: the running total and the [Set]
    of entry ids; a row without hash throws. *)
Definition entryStep (acc : option (Z * list string)) (row : Row)
    : option (Z * list string) :=
  match acc with
  | None => None
  | Some (totalTokens, entryIds) =>
      let codeLength := codeLengthOf row in
      let estimatedTokens := ceilDiv codeLength 4 in
      match entryIdOf row with
      | None => None
      | Some entryId =>
          Some (totalTokens + estimatedTokens, setAdd entryIds entryId)
      end
  end.

(** The body of [sessions.forEach] on one session; [rows] is the whole
    table in the order of the query. *)
Definition recalcSession (rows : list Row) (session : Session)
    : option Session :=
  let sessionStart := startTime session in
  let sessionEntries := filter (fun row => createdAt row >=? sessionStart) rows in
  match sessionEntries with
  | [] => Some session
  | _ :: _ =>
      match fold_left entryStep sessionEntries (Some (0, [])) with
      | None => None
      | Some (totalTokens, entryIds) =>
          Some (setTokenEntries (Some entryIds)
                  (setTotalTokens (Some totalTokens) session))
      end
  end.

(** [sessions.forEach] over the whole store. *)
Fixpoint recalcAll (rows : list Row) (sessions : list Session)
    : option (list Session) :=
  match sessions with
  | [] => Some []
  | s :: r =>
      match recalcSession rows s with
      | None => None
      | Some s' =>
          match recalcAll rows r with
          | None => None
          | Some r' => Some (s' :: r')
          end
      end
  end.

Inductive Outcome :=
| Finished          (* the run came to its end *)
| Exit1             (* no database *)
| Thrown.           (* a row without hash: the callback throws *)

(** [main()] on an existing sessions file; [db] is the table, [None] when
    the database file is missing.  The file is written once, after the
    last session, so a throw leaves it as it was. *)
Definition main (db : option (list Row)) (w : World) : Outcome * World :=
  let sessions := loadSessions w in
  match sessions with
  | [] => (Finished, w)
  | _ :: _ =>
      match db with
      | None => (Exit1, w)
      | Some rows =>
          match recalcAll rows sessions with
          | None => (Thrown, w)
          | Some sessions' => (Finished, saveSessions sessions' w)
          end
      end
  end.

End Recalculate.

(* ================================================================= *)
(** ** scripts/add-tokens-to-session.js *)

Module AddTokens.
Import JS SessionManager.

Inductive Outcome :=
| Added
| Exit1.

(** [main()]; [estimatedTokens] is [parseInt(process.argv[2]) || 0] and
    [now] is [Date.now()].  A missing pointer file, a missing sessions file
    (the empty list) and an unknown id all exit. *)
Definition main (estimatedTokens : Z) (now : Z) (w : World) : Outcome * World :=
  if estimatedTokens =? 0 then (Exit1, w)
  else
    match activeId w with
    | None => (Exit1, w)
    | Some activeSessionId =>
        let sessions := loadSessions w in
        match findIndex (fun s => (id s =? activeSessionId)%string) sessions with
        | None => (Exit1, w)
        | Some sessionIndex =>
            match nth_error sessions sessionIndex with
            | None => (Exit1, w)
            | Some session =>
                let previousTokens := num_or_zero (totalTokens session) in
                let session :=
                  setTotalTokens (Some (previousTokens + estimatedTokens)) session in
                let entries := match tokenEntries session with
                               | Some l => l | None => [] end in
                let entryId := ("entry_estimated_" ++ toString now)%string in
                let session := setTokenEntries (Some (entries ++ [entryId])) session in
                (Added, saveSessions (setAt sessionIndex session sessions) w)
            end
        end
    end.

End AddTokens.

(* ================================================================= *)
(** ** components/SessionStats.jsx: the prompt count *)

Module PromptStats.
Import JS JSText SessionManager.

(** [/entry_(?:estimated_)?(\d+)/] tried at the start of [s]: group 1. *)
Definition matchEntryHere (s : string) : option string :=
  if startsWith "entry_" s then
    let r := drop 6 s in
    let withPrefix :=
      if startsWith "estimated_" r then fst (spanDigits (drop 10 r))
      else EmptyString in
    if truthy withPrefix then Some withPrefix
    else
      let d := fst (spanDigits r) in
      if truthy d then Some d else None
  else None.

(** [entryId.match(/entry_(?:estimated_)?(\d+)/)]: the leftmost match. *)
Fixpoint matchEntry (s : string) : option string :=
  match matchEntryHere s with
  | Some d => Some d
  | None =>
      match s with
      | String _ r => matchEntry r
      | EmptyString => None
      end
  end.

(** [Math.floor(parseInt(timestampMatch[1], 10) / 60000)] when the id
    matches. *)
Definition minuteOf (entryId : string) : option Z :=
  match matchEntry entryId with
  | Some d => option_map (fun n => n / 60000) (parseInt d)
  | None => None
  end.

(** A [Set] of numbers in insertion order. *)
Definition numSetAdd (l : list Z) (x : Z) : list Z :=
  if existsb (Z.eqb x) l then l else l ++ [x].

Definition minuteGroupsOf (ids : list string) : list Z :=
  fold_left (fun set entryId =>
               match minuteOf entryId with
               | Some m => numSetAdd set m
               | None => set
               end) ids [].

(** What one session adds to [totalPrompts]. *)
Definition sessionPrompts (session : Session) : Z :=
  match promptGroups session with
  | Some g => Z.of_nat (List.length g)
  | None =>
      match tokenEntries session with
      | Some ((_ :: _) as ids) =>
          let size := Z.of_nat (List.length (minuteGroupsOf ids)) in
          if size =? 0 then 1 else size
      | _ => 0
      end
  end.

(** The prompt count of the panel; [remote] is [projectStats.totalPrompts],
    absent on statistics computed locally. *)
Definition totalPrompts (remote : option Z) (projectSessions : list Session) : Z :=
  let totalPrompts := num_or_zero remote in
  if totalPrompts =? 0
  then fold_left (fun t s => t + sessionPrompts s) projectSessions totalPrompts
  else totalPrompts.

End PromptStats.

(* ================================================================= *)
(** ** Reference notions for the scripts over the code table *)

Module RowRefs.
Import JS SessionManager SyncTokens.

(** The rows created at or after [t], in table order. *)
Definition since (t : Z) (rows : list Row) : list Row :=
  filter (fun row => createdAt row >=? t) rows.

(** Every row has a hash. *)
Definition hashed (rows : list Row) : Prop :=
  forall r, In r rows -> exists i, entryIdOf r = Some i.

(** The entry ids derived from the rows, in row order. *)
Definition rowIds (rows : list Row) : list string :=
  flat_map (fun r => match entryIdOf r with Some i => [i] | None => [] end) rows.

(** A session nothing has been recorded on yet. *)
Definition fresh (s : Session) : Prop :=
  (tokenEntries s = None \/ tokenEntries s = Some [])
  /\ num_or_zero (totalTokens s) = 0
  /\ (promptGroups s = None \/ promptGroups s = Some []).

(** The minute of a row, [Math.floor(createdAt / 60000)]. *)
Definition minuteOfRow (r : Row) : Z := createdAt r / 60000.

Definition numSetFrom (l : list Z) : list Z :=
  fold_left PromptStats.numSetAdd l [].

End RowRefs.

(* ================================================================= *)
(** ** src/utils/session-prompt.js: the chat commands *)

Module SessionPrompt.
Import JS SessionManager.

(** The [options] of [handleStartSession]. *)
Record HandlerOptions := mkHandlerOptions {
  h_project : option string;
  h_projectCode : option string;
  h_description : option string;
  h_tags : option (list string)
}.

(** What [handleStartSession] returns: the refusal with the active
    session, or the new session and whether a description is asked for. *)
Inductive StartResult :=
| StartRefused (activeSession : Session)
| StartOk (session : Session) (prompt : bool).

Definition handleStartSession (options : HandlerOptions) (now1 now2 : Z)
    (rnd : string) (w : World) : StartResult * World :=
  let '(active, w) := getActiveSession now1 w in
  match active with
  | Some active => (StartRefused active, w)
  | None =>
      let '(session, w) :=
        startSession
          {| o_projectId := None;
             o_projectCode := h_projectCode options;
             o_projectName := h_project options;
             o_description :=
               Some (if truthy_opt (h_description options)
                     then match h_description options with
                          | Some d => d | None => EmptyString end
                     else EmptyString);
             o_conversationId := None;
             o_tags := Some (match h_tags options with
                             | Some t => t | None => [] end) |}
          now2 rnd w in
      (StartOk session (negb (truthy_opt (h_description options))), w)
  end.

(** The [summary] of a successful [handleEndSession]. *)
Record EndSummary := mkEndSummary {
  e_id : string;
  e_minutes : Z;
  e_tokens : option Z;
  e_project : option string;
  e_description : string
}.

Inductive EndResult :=
| EndNoActive      (* 'No active session to end' *)
| EndFailed        (* 'Failed to end session' *)
| EndOk (summary : EndSummary).

(** [ended.duration ? Math.round(ended.duration / 1000 / 60) : 0] *)
Definition minutesOf (ended : Session) : Z :=
  match endTime ended with
  | Some e =>
      let d := e - startTime ended in
      if d =? 0 then 0 else roundDiv d 60000
  | None => 0
  end.

Definition handleEndSession (o_desc : option string) (now1 now2 : Z)
    (w : World) : EndResult * World :=
  let '(active, w) := getActiveSession now1 w in
  match active with
  | None => (EndNoActive, w)
  | Some _ =>
      let '(ended, w) := endSession o_desc now2 w in
      match ended with
      | None => (EndFailed, w)
      | Some ended =>
          (EndOk {| e_id := id ended;
                    e_minutes := minutesOf ended;
                    e_tokens := totalTokens ended;
                    e_project := projectName ended;
                    e_description := description ended |}, w)
      end
  end.

End SessionPrompt.

(* ================================================================= *)
(** ** Reference notions for the merge of the file tier into the cache *)

Module MergeRefs.
Import JS SessionManager SyncBridge.

(** The sessions an answer carries, [[]] when there is none. *)
Definition fileSessionsOf (response : option FileData) : list Session :=
  match response with
  | Some data => match f_sessions data with Some l => l | None => [] end
  | None => []
  end.

End MergeRefs.

(* ================================================================= *)
(** ** src/data/projects.js: the default projects *)

Module DefaultProjects.
Import JS ProjectId.

(** [1 + 6 + 12 + 18] *)
Definition totalHexes : nat := 37.

(** The type given to the project of index [i]. *)
Definition projectType (i : Z) : string :=
  if i =? 0 then "ZHONG"
  else if i <=? 6 then "WEB" else if i <=? 18 then "DATABASE" else "WEB".

(** The [projectCode] of the default project of index [i]; [date] is the
    [new Date()] of the module's evaluation. *)
Definition projectCodeOf (date : JsDate) (i : Z) : string :=
  generateProjectId date (Some (projectType i)) i.

Definition projectCodes (date : JsDate) : list string :=
  map (projectCodeOf date) (range 0 totalHexes).

End DefaultProjects.

(* ================================================================= *)
(** ** Properties of project identifiers *)

Module ProjectIdFacts.
Import JS ProjectId.

Lemma in_range (lo len : nat) (z : Z) :
  Z.of_nat lo <= z < Z.of_nat lo + Z.of_nat len -> In z (range lo len).
Proof.
  intros H. unfold range. apply in_map_iff.
  exists (Z.to_nat z). split; [lia|]. apply in_seq. lia.
Qed.

Lemma forallb_range (f : Z -> bool) (lo len : nat) (z : Z) :
  forallb f (range lo len) = true ->
  Z.of_nat lo <= z < Z.of_nat lo + Z.of_nat len -> f z = true.
Proof.
  intros Hall Hz. rewrite forallb_forall in Hall.
  apply Hall, in_range, Hz.
Qed.

Lemma yearOk_all y : 2000 <= y <= 2099 -> yearOk y = true.
Proof.
  intros H. apply (forallb_range yearOk 2000 100); [vm_compute; reflexivity | lia].
Qed.

Lemma quarterOk_all m : 0 <= m <= 11 -> quarterOk m = true.
Proof.
  intros H. apply (forallb_range quarterOk 0 12); [vm_compute; reflexivity | lia].
Qed.

Lemma numberOk_all n : 0 <= n <= 99 -> numberOk n = true.
Proof.
  intros H. apply (forallb_range numberOk 0 100); [vm_compute; reflexivity | lia].
Qed.

Lemma optZ_eqb_eq o z : optZ_eqb o z = true -> o = Some z.
Proof.
  destruct o as [v|]; simpl; [|discriminate].
  intros H. apply Z.eqb_eq in H. now subst.
Qed.

(** Month [m] lies in quarter [m / 3 + 1], and every quarter has a month. *)
Lemma quarter_of_month m : 0 <= m <= 11 -> 1 <= m / 3 + 1 <= 4.
Proof.
  intros H. pose proof (Z.div_mod m 3). pose proof (Z.mod_pos_bound m 3). lia.
Qed.

Lemma generate_shape y m t n :
  2000 <= y <= 2099 -> 0 <= m <= 11 -> In t platforms -> 0 <= n <= 99 ->
  parseProjectId (generateProjectId (mkDate y m) (Some t) n)
  = Some {| year := Some y; quarter := Some (m / 3 + 1);
            platformCode := getPlatformCode (Some t); platformType := t;
            projectNumber := Some n; fullYear := Some y;
            quarterLabel := ("Q" ++ toString (m / 3 + 1))%string |}.
Proof.
  intros Hy Hm Ht Hn.
  pose proof (yearOk_all y Hy) as Ey.
  pose proof (quarterOk_all m Hm) as Eq.
  pose proof (numberOk_all n Hn) as En.
  unfold generateProjectId, yearOk, quarterOk, numberOk in *.
  cbn [getFullYear getMonth].
  destruct (sliceLast 2 (toString y)) as [|a [|b [|? ?]]]; try discriminate.
  destruct (toString (m / 3 + 1)) as [|q [|? ?]] eqn:Tq; try discriminate.
  destruct (padStart 2 "0" (toString n)) as [|c [|d [|? ?]]]; try discriminate.
  apply andb_prop in Ey as [Ey Py]; apply andb_prop in Ey as [Da Db].
  apply andb_prop in Eq as [Dq Pq].
  apply andb_prop in En as [En Pn]; apply andb_prop in En as [Dc Dd].
  apply optZ_eqb_eq in Py, Pq, Pn.
  assert (Hp : exists p, getPlatformCode (Some t) = String p EmptyString
                         /\ isUpper p = true
                         /\ match codeToPrimaryName (String p EmptyString) with
                            | Some k => k
                            | None => match reverseLookup (String p EmptyString) with
                                      | Some k => k | None => "UNKNOWN" end
                            end = t).
  { simpl in Ht.
    destruct Ht as [<-|[<-|[<-|[<-|[<-|[]]]]]];
      eexists; (split; [reflexivity | split; reflexivity]). }
  destruct Hp as (p & -> & Up & Tp).
  unfold parseProjectId, matchProjectId. cbn [append] in Py |- *.
  rewrite Da, Db, Dq, Dc, Dd, Up. cbn [andb].
  rewrite Py, Pq, Pn, Tp, Tq. reflexivity.
Qed.

End ProjectIdFacts.

(* ================================================================= *)
(** ** Project identifiers: the round trip *)

Module ProjectIdSpec.
Import JS ProjectId ProjectIdFacts.

Lemma unknown_platform_code u :
  ~ In (toUpperCase u) platforms -> getPlatformCode (Some u) = "X".
Proof.
  intros H. unfold getPlatformCode, PLATFORM_CODES.
  repeat match goal with
  | |- context [String.eqb ?a ?b] =>
      let E := fresh "E" in
      destruct (String.eqb_spec a b) as [E|E];
      [exfalso; apply H; rewrite E; simpl; tauto|]
  end.
  reflexivity.
Qed.

Lemma unknown_letter_type s p :
  parseProjectId s = Some p ->
  ~ In (platformCode p) ["W"; "D"; "A"; "U"; "Z"] ->
  platformType p = "UNKNOWN".
Proof.
  unfold parseProjectId. destruct (matchProjectId s) as [[[[m1 m2] m3] m4]|];
    [|discriminate].
  intros E H. injection E as <-. cbn [platformCode platformType] in *.
  unfold codeToPrimaryName, reverseLookup, platformEntries. cbn [find snd fst option_map].
  repeat match goal with
  | |- context [String.eqb ?a ?b] =>
      let E := fresh "E" in
      destruct (String.eqb_spec a b) as [E|E];
      [exfalso; apply H; rewrite E; simpl; tauto|]
  end.
  reflexivity.
Qed.

(** Every quarter is the quarter of some month. *)
Lemma quarter_has_month q :
  1 <= q <= 4 -> exists m, 0 <= m <= 11 /\ m / 3 + 1 = q.
Proof.
  intros H. exists (3 * (q - 1)). split; [lia|].
  replace (3 * (q - 1)) with ((q - 1) * 3) by lia.
  rewrite Z.div_mul by lia. lia.
Qed.

(** C4.  For a date of year [y] in 2000..2099 and month [m] (quarter
    [m / 3 + 1], between 1 and 4), one of the five platform names and a
    project number in 0..99, parsing the generated identifier succeeds and
    gives back year, quarter, platform type and project number.  A type
    outside the table (or a missing type) is generated with code X, and a
    parsed identifier whose letter is none of W, D, A, U, Z has platform
    type UNKNOWN. *)
Theorem C4_project_id_round_trip (y m n : Z) (t : string) :
  2000 <= y <= 2099 -> 0 <= m <= 11 -> In t platforms -> 0 <= n <= 99 ->
  (exists p,
      parseProjectId (generateProjectId (mkDate y m) (Some t) n) = Some p
      /\ components p = (Some y, Some (m / 3 + 1), t, Some n)
      /\ 1 <= m / 3 + 1 <= 4)
  /\ (forall u d k,
         ~ In (toUpperCase u) platforms ->
         getPlatformCode (Some u) = "X"
         /\ generateProjectId d (Some u) k
            = (sliceLast 2 (toString (getFullYear d)) ++ "Q"
               ++ toString (getMonth d / 3 + 1) ++ "X"
               ++ padStart 2 "0" (toString k))%string)
  /\ getPlatformCode None = "X"
  /\ (forall s p,
         parseProjectId s = Some p ->
         ~ In (platformCode p) ["W"; "D"; "A"; "U"; "Z"] ->
         platformType p = "UNKNOWN").
Proof.
  intros Hy Hm Ht Hn. split; [|split; [|split]].
  - eexists. split; [apply generate_shape; assumption|].
    split; [reflexivity | apply quarter_of_month, Hm].
  - intros u d k Hu. pose proof (unknown_platform_code u Hu) as E.
    split; [exact E|]. unfold generateProjectId. rewrite E. reflexivity.
  - reflexivity.
  - exact unknown_letter_type.
Qed.

Lemma C4_witness :
  (exists p,
      parseProjectId (generateProjectId (mkDate 2026 0) (Some "WEB") 22) = Some p
      /\ components p = (Some 2026, Some (0 / 3 + 1), "WEB", Some 22)
      /\ 1 <= 0 / 3 + 1 <= 4)
  /\ generateProjectId (mkDate 2026 0) (Some "WEB") 22 = "26Q1W22".
Proof.
  split; [|reflexivity].
  apply (C4_project_id_round_trip 2026 0 22 "WEB");
    [lia | lia | simpl; tauto | lia].
Defined.

End ProjectIdSpec.

(* ================================================================= *)
(** ** The entry log query *)

Module TokenTrackerSpec.
Import JS TokenTracker LogSamples.

Lemma filter_twice {A} (f g : A -> bool) (l : list A) :
  filter g (filter f l) = filter (fun x => f x && g x) l.
Proof.
  induction l as [|x l IH]; simpl; [reflexivity|].
  destruct (f x); simpl; [destruct (g x)|]; now rewrite IH.
Qed.

Lemma filter_all {A} (l : list A) : filter (fun _ => true) l = l.
Proof. induction l as [|x l IH]; simpl; now rewrite ?IH. Qed.

(** The four conditional filters are one filter by [matches]. *)
Lemma getTokenHistory_entries options log :
  entries (getTokenHistory options log) = filter (matches options) log.
Proof.
  unfold getTokenHistory, matches. cbn [entries].
  destruct options as [[sd|] [ed|] [pr|] [op|]];
    cbn [startDate endDate optProject optOperation truthy_opt];
    try destruct (truthy pr); try destruct (truthy op);
    rewrite ?filter_twice;
    first [ apply filter_ext; intros e; cbn [andb];
            rewrite ?andb_true_r, ?andb_assoc; reflexivity
          | symmetry; apply filter_all ].
Qed.

Lemma ascending_filter (f : Entry -> bool) (l : list Entry) :
  ascending l -> ascending (filter f l).
Proof.
  unfold ascending. intros H.
  apply Sorted_StronglySorted in H; [|intros a b c; lia].
  apply StronglySorted_Sorted.
  induction H as [|x l Hl IH Hx]; simpl; [constructor|].
  destruct (f x); [|exact IH].
  constructor; [exact IH|].
  rewrite Forall_forall in *. intros y Hy.
  apply filter_In in Hy. apply Hx, Hy.
Qed.

(** C9 as stated fails: on a stored log that holds the entry of time 100
    before the entry of time 50, the query of the whole log returns them in
    that order. *)
Lemma C9_counterexample :
  map timestamp (entries (getTokenHistory noOptions mixedLog)) = [100; 50]
  /\ ~ ascending (entries (getTokenHistory noOptions mixedLog)).
Proof.
  split; [reflexivity|].
  intros H. vm_compute in H.
  inversion H as [|? ? _ Hd]; subst.
  inversion Hd as [|? ? Hle]; subst.
  vm_compute in Hle. apply Hle. reflexivity.
Qed.

(** C9, amended.  The query returns exactly the entries of the log that
    pass the filter (inclusive time bounds, project, operation), in the
    order they have in the log; nothing is sorted, so the result is
    ascending in time whenever the stored log is. *)
Theorem C9_query_keeps_log_order (options : Options) (log : list Entry) :
  entries (getTokenHistory options log) = filter (matches options) log
  /\ (forall e, In e (entries (getTokenHistory options log))
                <-> In e log /\ matches options e = true)
  /\ (ascending log -> ascending (entries (getTokenHistory options log))).
Proof.
  rewrite getTokenHistory_entries. split; [reflexivity|]. split.
  - intros e. apply filter_In.
  - apply ascending_filter.
Qed.

Lemma C9_witness :
  ascending orderedLog
  /\ map timestamp (entries (getTokenHistory zhongWindow orderedLog)) = [150; 200]
  /\ ascending (entries (getTokenHistory zhongWindow orderedLog)).
Proof.
  assert (H : ascending orderedLog).
  { unfold orderedLog. repeat (constructor; [|constructor; vm_compute; discriminate]).
    repeat constructor. }
  split; [exact H|]. split; [reflexivity|].
  exact (proj2 (proj2 (C9_query_keeps_log_order zhongWindow orderedLog)) H).
Defined.

End TokenTrackerSpec.

(* ================================================================= *)
(** ** The merge of the file tier into the browser cache *)

Module SyncBridgeSpec.
Import JS SessionManager SyncBridge Samples.


Lemma nth_error_map_some {A B} (f : A -> B) l i x :
  nth_error l i = Some x -> nth_error (map f l) i = Some (f x).
Proof.
  revert i; induction l as [|y l IH]; intros [|i]; simpl; try discriminate.
  - now intros [= ->].
  - apply IH.
Qed.

Lemma nth_error_app_left {A} (l r : list A) i x :
  nth_error l i = Some x -> nth_error (l ++ r) i = Some x.
Proof.
  revert i; induction l as [|y l IH]; intros [|i]; simpl; try discriminate.
  - trivial.
  - apply IH.
Qed.

Lemma skipn_app_exact {A} (l r : list A) n :
  n = List.length l -> skipn n (l ++ r) = r.
Proof.
  intros ->. induction l as [|y l IH]; simpl; [reflexivity | exact IH].
Qed.


(** C8 as stated fails on the pointer: the file tier has ended the session
    and has no pointer any more, the cache keeps pointing at it. *)
Lemma C8_counterexample :
  let data := mkFileData (Some [endedDoc]) None in
  let c := mkCache (Some [openDoc]) (Some "s1") in
  let c' := syncSessionsFromFileSystem true (Some data) c in
  cursor_sessions c' = Some [endedDoc]
  /\ cursor_active_session c' = Some "s1"
  /\ cursor_active_session c' <> activeSessionId data.
Proof.
  cbv zeta. split; [reflexivity|]. split; [reflexivity|]. discriminate.
Qed.

(** C8, amended.  After the merge has run (development build, answer
    received, at least one file-tier session): a cached session whose id
    the file tier knows is replaced, in place, by the first file-tier
    session of that id, whatever its fields; a cached session whose id the
    file tier does not know stays as it was; the file-tier sessions whose
    id the cache did not know follow, in file order; and the cache pointer
    becomes the file tier's pointer when that one is non-empty and is left
    alone otherwise. *)
Theorem C8_merge_file_into_cache (data : FileData) (c : Cache)
    (fs : list Session) :
  f_sessions data = Some fs -> fs <> [] ->
  let c' := syncSessionsFromFileSystem true (Some data) c in
  exists merged,
    cursor_sessions c' = Some merged
    /\ (forall i e u, nth_error (cached c) i = Some e ->
                      findById (id e) fs = Some u ->
                      nth_error merged i = Some u)
    /\ (forall i e, nth_error (cached c) i = Some e ->
                    findById (id e) fs = None ->
                    nth_error merged i = Some e)
    /\ skipn (List.length (cached c)) merged
       = filter (fun s => negb (hasId (id s) (cached c))) fs
    /\ (truthy_opt (activeSessionId data) = true ->
        cursor_active_session c' = activeSessionId data)
    /\ (truthy_opt (activeSessionId data) = false ->
        cursor_active_session c' = cursor_active_session c).
Proof.
  intros Hfs Hne c'. subst c'. unfold syncSessionsFromFileSystem.
  rewrite Hfs. destruct fs as [|f fs']; [contradiction|].
  fold (cached c). eexists. cbn [cursor_sessions cursor_active_session].
  split; [reflexivity|]. unfold mergeSessions.
  split; [|split; [|split; [|split]]].
  - intros i e u He Hu. apply nth_error_app_left.
    erewrite nth_error_map_some by exact He. now rewrite Hu.
  - intros i e He Hu. apply nth_error_app_left.
    erewrite nth_error_map_some by exact He. now rewrite Hu.
  - apply skipn_app_exact. now rewrite length_map.
  - intros ->. reflexivity.
  - intros ->. reflexivity.
Qed.

Lemma C8_witness :
  let data := mkFileData (Some [endedDoc]) None in
  let c := mkCache (Some [openDoc]) (Some "s1") in
  exists merged,
    cursor_sessions (syncSessionsFromFileSystem true (Some data) c) = Some merged
    /\ nth_error merged 0 = Some endedDoc.
Proof.
  intros data c.
  destruct (C8_merge_file_into_cache data c [endedDoc] eq_refl)
    as (merged & E & Both & _); [discriminate|].
  exists merged. split; [exact E|].
  apply (Both 0%nat openDoc endedDoc); reflexivity.
Defined.

End SyncBridgeSpec.

(* ================================================================= *)
(** ** The timeout sweep *)

Module SweepFacts.
Import JS SessionManager Samples.

Ltac finalize_cases :=
  unfold finalizeTokens;
  match goal with
  | |- context [negb (truthy_num (totalTokens ?s))] =>
      destruct (negb (truthy_num (totalTokens s)));
      [ match goal with |- context [Z.gtb ?a 0] => destruct (Z.gtb a 0) end | ]
  end.

Lemma id_finalizeTokens log s : id (finalizeTokens log s) = id s.
Proof. finalize_cases; reflexivity. Qed.

Lemma endTime_finalizeTokens log s : endTime (finalizeTokens log s) = endTime s.
Proof. finalize_cases; reflexivity. Qed.

Lemma description_finalizeTokens log s :
  description (finalizeTokens log s) = description s.
Proof. finalize_cases; reflexivity. Qed.

Lemma finalizeTokens_total log s :
  totalTokens (finalizeTokens log s) = reconciledTotal log s.
Proof.
  unfold reconciledTotal, finalizeTokens, TokenTracker.getTokenHistory.
  cbn [TokenTracker.startDate TokenTracker.endDate TokenTracker.optProject
       TokenTracker.optOperation TokenTracker.noOptions truthy_opt
       TokenTracker.entries].
  destruct (truthy_num (totalTokens s)); cbn [negb]; [reflexivity|].
  destruct (sessionTokens log s >? 0); reflexivity.
Qed.

Lemma id_autoEnd now log s : id (autoEnd now log s) = id s.
Proof. unfold autoEnd. cbn [id setDescription setEndTime]. apply id_finalizeTokens. Qed.

Lemma endTime_autoEnd now log s : endTime (autoEnd now log s) = Some now.
Proof. reflexivity. Qed.

Lemma isEnded_autoEnd now log s : isEnded (autoEnd now log s) = true.
Proof. reflexivity. Qed.

Lemma id_sweepSession now t log s : id (sweepSession now t log s) = id s.
Proof.
  unfold sweepSession. destruct (timedOut now t log s); [apply id_autoEnd | reflexivity].
Qed.

Lemma sweepSession_ended now t log s :
  isEnded s = true -> sweepSession now t log s = s.
Proof. unfold sweepSession, timedOut. now intros ->. Qed.

Lemma timedOut_sweepSession now t log s :
  timedOut now t log (sweepSession now t log s) = false.
Proof.
  unfold sweepSession. destruct (timedOut now t log s) eqn:E; [|exact E].
  unfold timedOut. now rewrite isEnded_autoEnd.
Qed.

Lemma pointsTo_autoEnd a now log s :
  pointsTo a (autoEnd now log s) = pointsTo a s.
Proof. unfold pointsTo. now rewrite id_autoEnd. Qed.

Lemma sweepStep_closed now t done ended w s :
  sweepStep now t (done, ended, w) s
  = (done ++ [sweepSession now t (history w) s],
     ended ++ (if timedOut now t (history w) s then [id s] else []),
     if timedOut now t (history w) s && pointsTo (activeId w) s
     then setActiveSessionId None w else w).
Proof.
  unfold sweepStep, sweepSession, timedOut, getActiveSessionId.
  destruct (isEnded s); cbn [negb andb]; [now rewrite app_nil_r|].
  destruct (now - getLastActivityTime (history w) s >=? t); cbn [andb].
  - now rewrite pointsTo_autoEnd, id_autoEnd.
  - now rewrite app_nil_r.
Qed.

Lemma existsb_no_pointer (f : Session -> bool) ss :
  existsb (fun s => f s && pointsTo None s) ss = false.
Proof.
  induction ss as [|x l IH]; simpl; [reflexivity|]. now rewrite andb_false_r.
Qed.

Lemma sweptWorld_cons now t s ss w :
  sweptWorld now t (s :: ss) w
  = sweptWorld now t ss
      (if timedOut now t (history w) s && pointsTo (activeId w) s
       then setActiveSessionId None w else w).
Proof.
  unfold sweptWorld. cbn [existsb].
  destruct (timedOut now t (history w) s && pointsTo (activeId w) s); cbn [orb].
  - cbn [history activeId setActiveSessionId truthy_opt].
    now rewrite existsb_no_pointer.
  - reflexivity.
Qed.

Lemma sweep_fold now t ss :
  forall done ended w,
    fold_left (sweepStep now t) ss (done, ended, w)
    = (done ++ map (sweepSession now t (history w)) ss,
       ended ++ map id (filter (timedOut now t (history w)) ss),
       sweptWorld now t ss w).
Proof.
  induction ss as [|s ss IH]; intros done ended w.
  - simpl. now rewrite !app_nil_r.
  - cbn [fold_left]. rewrite sweepStep_closed, IH, sweptWorld_cons.
    assert (Hh : history (if timedOut now t (history w) s && pointsTo (activeId w) s
                          then setActiveSessionId None w else w) = history w)
      by (now destruct (_ && _)).
    rewrite Hh, <- !app_assoc. cbn [map filter app].
    destruct (timedOut now t (history w) s); reflexivity.
Qed.

Lemma history_sweptWorld now t ss w : history (sweptWorld now t ss w) = history w.
Proof. unfold sweptWorld. now destruct (existsb _ ss). Qed.

Lemma sessions_sweptWorld now t ss w : sessions (sweptWorld now t ss w) = sessions w.
Proof. unfold sweptWorld. now destruct (existsb _ ss). Qed.

Lemma activeId_sweptWorld now t ss w :
  activeId (sweptWorld now t ss w) = sweptPointer now t (history w) ss (activeId w).
Proof. unfold sweptWorld, sweptPointer. now destruct (existsb _ ss). Qed.

(** The sweep, in closed form. *)
Lemma sweep_closed now t w :
  checkAndEndTimedOutSessions now t w
  = let ss' := map (sweepSession now t (history w)) (sessions w) in
    let ended := map id (filter (timedOut now t (history w)) (sessions w)) in
    let w1 := sweptWorld now t (sessions w) w in
    (ended, match ended with [] => w1 | _ :: _ => saveSessions ss' w1 end).
Proof.
  unfold checkAndEndTimedOutSessions, loadSessions.
  rewrite sweep_fold. cbn [app].
  destruct (map id (filter _ (sessions w))); reflexivity.
Qed.

Lemma map_sweep_id now t log ss :
  filter (timedOut now t log) ss = [] -> map (sweepSession now t log) ss = ss.
Proof.
  induction ss as [|s ss IH]; simpl; [reflexivity|].
  unfold sweepSession at 1. destruct (timedOut now t log s); [discriminate|].
  intros H. now rewrite IH.
Qed.

Lemma sessions_sweep now t w :
  sessions (snd (checkAndEndTimedOutSessions now t w))
  = map (sweepSession now t (history w)) (sessions w).
Proof.
  rewrite sweep_closed. cbv zeta. cbn [snd].
  destruct (map id _) eqn:E.
  - rewrite sessions_sweptWorld. symmetry. apply map_sweep_id.
    destruct (filter _ _); [reflexivity | discriminate].
  - reflexivity.
Qed.

Lemma history_sweep now t w :
  history (snd (checkAndEndTimedOutSessions now t w)) = history w.
Proof.
  rewrite sweep_closed. cbv zeta. cbn [snd].
  destruct (map id _); [|cbn [saveSessions history]]; apply history_sweptWorld.
Qed.

Lemma activeId_sweep now t w :
  activeId (snd (checkAndEndTimedOutSessions now t w))
  = sweptPointer now t (history w) (sessions w) (activeId w).
Proof.
  rewrite sweep_closed. cbv zeta. cbn [snd].
  destruct (map id _); [|cbn [saveSessions activeId]]; apply activeId_sweptWorld.
Qed.

(** A sweep that ends nothing leaves the world as it is. *)
Lemma sweep_idle now t w :
  fst (checkAndEndTimedOutSessions now t w) = [] ->
  snd (checkAndEndTimedOutSessions now t w) = w.
Proof.
  rewrite sweep_closed. cbv zeta. cbn [fst snd].
  destruct (filter (timedOut now t (history w)) (sessions w)) as [|x l] eqn:Ef;
    [|discriminate].
  intros _. cbn [map]. unfold sweptWorld.
  assert (E : existsb (fun s => timedOut now t (history w) s
                                && pointsTo (activeId w) s) (sessions w) = false).
  { clear -Ef. induction (sessions w) as [|s l IH]; simpl in *; [reflexivity|].
    destruct (timedOut now t (history w) s); [discriminate|]. now apply IH. }
  now rewrite E.
Qed.

End SweepFacts.

(* ================================================================= *)
(** ** The sweep against its specification *)

Module SweepSpec.
Import JS SessionManager Samples SweepFacts.

Lemma entries_noOptions log :
  TokenTracker.entries (TokenTracker.getTokenHistory TokenTracker.noOptions log) = log.
Proof. reflexivity. Qed.

Lemma fold_max_out (l : list Z) (x a : Z) :
  fold_left Z.max l (Z.max x a) = Z.max x (fold_left Z.max l a).
Proof.
  revert a. induction l as [|b l IH]; intros a; simpl; [reflexivity|].
  rewrite <- Z.max_assoc. apply IH.
Qed.

Lemma later_is_max (m x : Z) : (if m >? x then m else x) = Z.max x m.
Proof. destruct (Z.gtb_spec m x); lia. Qed.

Lemma maxList_cons x a l :
  maxList x (a :: l) = Z.max x (maxList a l).
Proof. unfold maxList. simpl. apply fold_max_out. Qed.

Lemma filter_none {A} (f : A -> bool) (l : list A) :
  (forall x, f x = false) -> filter f l = [].
Proof.
  intros H. induction l as [|x l IH]; simpl; [reflexivity|]. now rewrite H.
Qed.

Lemma maxList_app x l1 l2 :
  maxList x (l1 ++ l2) = maxList (maxList x l1) l2.
Proof. unfold maxList. apply fold_left_app. Qed.

(** The code's last-activity time is the maximum the specification names. *)
Lemma getLastActivityTime_ref log s :
  getLastActivityTime log s = lastActivityRef log s.
Proof.
  unfold getLastActivityTime, lastActivityRef, activityTimes.
  rewrite entries_noOptions, maxList_app.
  set (la := match activities s with
             | Some (a :: r) => _
             | _ => startTime s
             end).
  assert (Ela : la = maxList (startTime s)
                       (match activities s with
                        | Some l => map a_timestamp l
                        | None => []
                        end)).
  { subst la. destruct (activities s) as [[|a r]|]; try reflexivity.
    cbn [map]. now rewrite later_is_max, maxList_cons. }
  rewrite <- Ela. clearbody la.
  unfold referenced.
  destruct (tokenEntries s) as [[|i ids]|].
  - rewrite filter_none; [reflexivity|].
    intros e. now destruct (TokenTracker.entryId (TokenTracker.metadata e)).
  - match goal with
    | |- match filter ?f log with _ => _ end = maxList _ (map _ (filter ?g log)) =>
        assert (E : filter f log = filter g log)
          by (apply filter_ext; intros e;
              now destruct (TokenTracker.entryId (TokenTracker.metadata e)));
        try rewrite E; clear E
    end.
    match goal with |- context [filter ?g log] => destruct (filter g log) as [|e r] end.
    + reflexivity.
    + cbn [map]. now rewrite later_is_max, maxList_cons.
  - rewrite filter_none; [reflexivity|].
    intros e. now destruct (TokenTracker.entryId (TokenTracker.metadata e)).
Qed.

Lemma timedOut_qualifies now t log s :
  timedOut now t log s = qualifies now t log s.
Proof.
  unfold timedOut, qualifies, isEnded. rewrite getLastActivityTime_ref.
  now destruct (endTime s).
Qed.

Lemma filter_map_none {A B} (f : B -> bool) (g : A -> B) (l : list A) :
  (forall x, f (g x) = false) -> filter f (map g l) = [].
Proof.
  intros H. induction l as [|x l IH]; simpl; [reflexivity|]. now rewrite H.
Qed.

Lemma existsb_map_none {A B} (f : B -> bool) (g : A -> B) (l : list A) :
  (forall x, f (g x) = false) -> existsb f (map g l) = false.
Proof.
  intros H. induction l as [|x l IH]; simpl; [reflexivity|]. now rewrite H.
Qed.

Lemma existsb_same {A} (f g : A -> bool) (l : list A) :
  (forall x, f x = g x) -> existsb f l = existsb g l.
Proof.
  intros H. induction l as [|x l IH]; simpl; [reflexivity|]. now rewrite H, IH.
Qed.

(** A second sweep at the same instant finds nothing and writes nothing. *)
Lemma sweep_twice now t w :
  let w' := snd (checkAndEndTimedOutSessions now t w) in
  checkAndEndTimedOutSessions now t w' = ([], w').
Proof.
  intros w'. rewrite (sweep_closed now t w'). cbv zeta.
  assert (Hs : sessions w' = map (sweepSession now t (history w)) (sessions w))
    by apply sessions_sweep.
  assert (Hh : history w' = history w) by apply history_sweep.
  rewrite Hs, Hh.
  rewrite filter_map_none by (intros x; apply timedOut_sweepSession).
  cbn [map]. f_equal. unfold sweptWorld. rewrite Hh.
  rewrite existsb_map_none; [reflexivity|].
  intros x. now rewrite timedOut_sweepSession.
Qed.

(** C6.  The sweep at [now] with threshold [t]: the ids it reports are those
    of the sessions that have no end time and whose inactivity, counted from
    the latest of start, activities and referenced entries, is at least [t];
    each such session is ended at [now], every other session, and so every
    ended one, is kept as it is; the pointer is removed exactly when it names
    a session being ended; a sweep that ends nothing changes nothing and
    writes nothing; and a second sweep at the same instant ends nothing and
    writes nothing. *)
Theorem C6_timeout_sweep (now t : Z) (w : World) :
  let ended := fst (checkAndEndTimedOutSessions now t w) in
  let w' := snd (checkAndEndTimedOutSessions now t w) in
  let q := qualifies now t (history w) in
  ended = map id (filter q (sessions w))
  /\ List.length (sessions w') = List.length (sessions w)
  /\ (forall i s, nth_error (sessions w) i = Some s ->
        exists s', nth_error (sessions w') i = Some s'
                   /\ id s' = id s
                   /\ (q s = true -> endTime s' = Some now)
                   /\ (q s = false -> s' = s)
                   /\ (isEnded s = true -> s' = s))
  /\ activeId w'
     = (if existsb (fun s => q s && pointsTo (activeId w) s) (sessions w)
        then None else activeId w)
  /\ (ended = [] -> w' = w)
  /\ history w' = history w
  /\ checkAndEndTimedOutSessions now t w' = ([], w').
Proof.
  intros ended w' q.
  assert (Eq : forall s, timedOut now t (history w) s = q s)
    by (intros s; apply timedOut_qualifies).
  assert (Hs : sessions w' = map (sweepSession now t (history w)) (sessions w))
    by apply sessions_sweep.
  split; [|split; [|split; [|split; [|split; [|split]]]]].
  - subst ended. rewrite sweep_closed. cbv zeta. cbn [fst].
    f_equal. apply filter_ext, Eq.
  - rewrite Hs. apply length_map.
  - intros i s Hi. exists (sweepSession now t (history w) s).
    rewrite Hs. split; [now apply map_nth_error|].
    split; [apply id_sweepSession|].
    unfold sweepSession. rewrite Eq. split; [|split].
    + now intros ->.
    + now intros ->.
    + intros He. unfold q, qualifies. unfold isEnded in He.
      now destruct (endTime s).
  - subst w'. rewrite activeId_sweep. unfold sweptPointer.
    rewrite (existsb_same _ (fun s => q s && pointsTo (activeId w) s));
      [reflexivity|].
    intros s. now rewrite Eq.
  - subst ended w'. rewrite sweep_closed. cbv zeta. cbn [fst snd].
    destruct (filter (timedOut now t (history w)) (sessions w)) as [|x l] eqn:Ef;
      [|discriminate].
    intros _. cbn [map]. unfold sweptWorld.
    assert (E : existsb (fun s => timedOut now t (history w) s
                                  && pointsTo (activeId w) s) (sessions w) = false).
    { clear -Ef. induction (sessions w) as [|s l IH]; simpl in *; [reflexivity|].
      destruct (timedOut now t (history w) s); [discriminate|]. now apply IH. }
    now rewrite E.
  - apply history_sweep.
  - apply sweep_twice.
Qed.

End SweepSpec.

(* ================================================================= *)
(** ** Arrays: [findIndex], [find], slot assignment *)

Module ArrayFacts.
Import JS.

Lemma findIndex_nth {A} (p : A -> bool) (l : list A) i :
  findIndex p l = Some i -> exists x, nth_error l i = Some x /\ p x = true.
Proof.
  revert i. induction l as [|y l IH]; intros i; simpl; [discriminate|].
  destruct (p y) eqn:E.
  - intros [= <-]. now exists y.
  - destruct (findIndex p l) as [k|]; simpl; [|discriminate].
    intros [= <-]. now apply IH.
Qed.

Lemma findIndex_first {A} (p : A -> bool) (l : list A) i :
  findIndex p l = Some i ->
  forall j x, (j < i)%nat -> nth_error l j = Some x -> p x = false.
Proof.
  revert i. induction l as [|y l IH]; intros i; simpl; [discriminate|].
  destruct (p y) eqn:E.
  - intros [= <-] j x Hj. lia.
  - destruct (findIndex p l) as [k|] eqn:Ek; simpl; [|discriminate].
    intros [= <-] [|j] x Hj; simpl.
    + now intros [= <-].
    + apply (IH k eq_refl). lia.
Qed.

Lemma findIndex_none {A} (p : A -> bool) (l : list A) :
  findIndex p l = None -> forall x, In x l -> p x = false.
Proof.
  induction l as [|y l IH]; simpl; [contradiction|].
  destruct (p y) eqn:E; [discriminate|].
  destruct (findIndex p l); simpl; [discriminate|].
  intros _ x [<-|Hx]; [exact E | now apply IH].
Qed.

Lemma findIndex_map {A} (p : A -> bool) (g : A -> A) (l : list A) :
  (forall x, p (g x) = p x) -> findIndex p (map g l) = findIndex p l.
Proof.
  intros H. induction l as [|y l IH]; simpl; [reflexivity|].
  now rewrite H, IH.
Qed.

Lemma find_by_index {A} (p : A -> bool) (l : list A) :
  find p l = match findIndex p l with
             | Some i => nth_error l i
             | None => None
             end.
Proof.
  induction l as [|y l IH]; simpl; [reflexivity|].
  destruct (p y); [reflexivity|]. rewrite IH.
  now destruct (findIndex p l).
Qed.

Lemma find_all_false {A} (p : A -> bool) (l : list A) :
  (forall x, In x l -> p x = false) -> find p l = None.
Proof.
  induction l as [|y l IH]; simpl; [reflexivity|].
  intros H. rewrite (H y) by now left. apply IH. intros x Hx. apply H. now right.
Qed.

Lemma find_app_last {A} (p : A -> bool) (l : list A) (x : A) :
  (forall y, In y l -> p y = false) -> p x = true -> find p (l ++ [x]) = Some x.
Proof.
  induction l as [|y l IH]; simpl; intros H Hx; [now rewrite Hx|].
  rewrite (H y) by now left. apply IH; [|exact Hx].
  intros z Hz. apply H. now right.
Qed.

Lemma nth_setAt_other {A} (l : list A) i j (v : A) :
  i <> j -> nth_error (setAt i v l) j = nth_error l j.
Proof.
  revert i j. induction l as [|y l IH]; intros [|i] [|j] H; simpl;
    try reflexivity; try congruence.
  apply IH. congruence.
Qed.

Lemma nth_setAt_same {A} (l : list A) i (v x : A) :
  nth_error l i = Some x -> nth_error (setAt i v l) i = Some v.
Proof.
  revert i. induction l as [|y l IH]; intros [|i]; simpl; try discriminate.
  - reflexivity.
  - apply IH.
Qed.

Lemma length_setAt {A} (l : list A) i (v : A) :
  List.length (setAt i v l) = List.length l.
Proof.
  revert i. induction l as [|y l IH]; intros [|i]; simpl; try reflexivity.
  now rewrite IH.
Qed.

Lemma includes_In x l : includes x l = true <-> In x l.
Proof.
  unfold includes. rewrite existsb_exists. split.
  - intros (y & Hy & E). apply String.eqb_eq in E. now subst.
  - intros H. exists x. split; [exact H | apply String.eqb_refl].
Qed.

End ArrayFacts.

(* ================================================================= *)
(** ** Ended sessions are immutable *)

Module ImmutableSpec.
Import JS SessionManager Samples SweepFacts ArrayFacts.

Lemma swept_slot now t w j x :
  nth_error (sessions w) j = Some x ->
  nth_error (sessions (snd (checkAndEndTimedOutSessions now t w))) j
  = Some (sweepSession now t (history w) x).
Proof. intros H. rewrite sessions_sweep. now apply map_nth_error. Qed.

Lemma swept_findIndex now t w sid :
  findIndex (fun s => (id s =? sid)%string)
    (sessions (snd (checkAndEndTimedOutSessions now t w)))
  = findIndex (fun s => (id s =? sid)%string) (sessions w).
Proof.
  rewrite sessions_sweep. apply findIndex_map.
  intros x. now rewrite id_sweepSession.
Qed.

(** Every ended session keeps its slot through [addTokenEntryToSession]. *)
Lemma addTokenEntry_keeps_ended sid eid now w j x :
  nth_error (sessions w) j = Some x -> isEnded x = true ->
  nth_error (sessions (snd (addTokenEntryToSession sid eid now w))) j = Some x.
Proof.
  intros Hj He. unfold addTokenEntryToSession.
  pose proof (swept_slot now SESSION_TIMEOUT_MS w j x Hj) as Hs.
  rewrite (sweepSession_ended _ _ _ _ He) in Hs.
  set (w1 := snd (checkAndEndTimedOutSessions now SESSION_TIMEOUT_MS w)) in *.
  unfold loadSessions.
  destruct (findIndex _ (sessions w1)) as [k|] eqn:Ek; [|exact Hs].
  destruct (nth_error (sessions w1) k) as [target|] eqn:Et; [|exact Hs].
  destruct (isEnded target) eqn:Ee; [exact Hs|].
  destruct (negb (includes eid _)); [|exact Hs].
  cbn [snd saveSessions sessions].
  rewrite nth_setAt_other; [exact Hs|].
  intros ->. rewrite Hs in Et. injection Et as <-. congruence.
Qed.

(** Every ended session keeps its slot through [addActivityToSession]. *)
Lemma addActivity_keeps_ended sid act now w j x :
  nth_error (sessions w) j = Some x -> isEnded x = true ->
  nth_error (sessions (snd (addActivityToSession sid act now w))) j = Some x.
Proof.
  intros Hj He. unfold addActivityToSession.
  pose proof (swept_slot now SESSION_TIMEOUT_MS w j x Hj) as Hs.
  rewrite (sweepSession_ended _ _ _ _ He) in Hs.
  set (w1 := snd (checkAndEndTimedOutSessions now SESSION_TIMEOUT_MS w)) in *.
  unfold loadSessions.
  destruct (findIndex _ (sessions w1)) as [k|] eqn:Ek; [|exact Hs].
  destruct (nth_error (sessions w1) k) as [target|] eqn:Et; [|exact Hs].
  destruct (isEnded target) eqn:Ee; [exact Hs|].
  cbn [snd saveSessions sessions].
  rewrite nth_setAt_other; [exact Hs|].
  intros ->. rewrite Hs in Et. injection Et as <-. congruence.
Qed.

(** C5.  When the session that [sessionId] resolves to (slot [i] of the
    store) has an end time, [addTokenEntryToSession] and
    [addActivityToSession] both return false and leave the whole document in
    slot [i] as it was; more generally every session with an end time, in
    any slot, is left as it was by either call. *)
Theorem C5_ended_session_immutable (sessionId entryId : string)
    (activity : ActivityInput) (now : Z) (w : World) (i : nat) (s : Session) :
  findIndex (fun x => (id x =? sessionId)%string) (sessions w) = Some i ->
  nth_error (sessions w) i = Some s ->
  isEnded s = true ->
  let r1 := addTokenEntryToSession sessionId entryId now w in
  let r2 := addActivityToSession sessionId activity now w in
  fst r1 = false /\ nth_error (sessions (snd r1)) i = Some s
  /\ fst r2 = false /\ nth_error (sessions (snd r2)) i = Some s
  /\ (forall j x, nth_error (sessions w) j = Some x -> isEnded x = true ->
        nth_error (sessions (snd r1)) j = Some x
        /\ nth_error (sessions (snd r2)) j = Some x).
Proof.
  intros Hi Hs He r1 r2.
  pose proof (swept_slot now SESSION_TIMEOUT_MS w i s Hs) as Hslot.
  rewrite (sweepSession_ended _ _ _ _ He) in Hslot.
  pose proof (swept_findIndex now SESSION_TIMEOUT_MS w sessionId) as Hfind.
  rewrite Hi in Hfind.
  split; [|split; [|split; [|split]]].
  - subst r1. unfold addTokenEntryToSession, loadSessions.
    now rewrite Hfind, Hslot, He.
  - now apply addTokenEntry_keeps_ended.
  - subst r2. unfold addActivityToSession, loadSessions.
    now rewrite Hfind, Hslot, He.
  - now apply addActivity_keeps_ended.
  - intros j x Hj Hx. split;
      [now apply addTokenEntry_keeps_ended | now apply addActivity_keeps_ended].
Qed.

End ImmutableSpec.

(* ================================================================= *)
(** ** Token totals recomputed from the log *)

Module TotalsFacts.
Import JS SessionManager Samples ArrayFacts.

Lemma fold_sum_shift (l : list TokenTracker.Entry) (a : Z) :
  fold_left (fun sum e => sum + TokenTracker.tokensUsed e) l a
  = a + fold_left (fun sum e => sum + TokenTracker.tokensUsed e) l 0.
Proof.
  revert a. induction l as [|e l IH]; intros a; simpl; [lia|].
  rewrite (IH (a + TokenTracker.tokensUsed e)), (IH (TokenTracker.tokensUsed e)). lia.
Qed.

Lemma sumTokens_cons e l :
  TokenTracker.sumTokens (e :: l) = TokenTracker.tokensUsed e + TokenTracker.sumTokens l.
Proof. unfold TokenTracker.sumTokens. simpl. apply fold_sum_shift. Qed.

Lemma sumTokens_app l r :
  TokenTracker.sumTokens (l ++ r)
  = TokenTracker.sumTokens l + TokenTracker.sumTokens r.
Proof.
  induction l as [|e l IH]; simpl; [reflexivity|].
  rewrite !sumTokens_cons, IH. lia.
Qed.

Lemma isId_in i e l : In e l -> isId i e = true -> In i (entryIds l).
Proof.
  unfold isId, entryIds. intros He Hi. apply in_flat_map. exists e. split; [exact He|].
  destruct (TokenTracker.entryId (TokenTracker.metadata e)) as [x|]; [|discriminate].
  apply String.eqb_eq in Hi. subst. now left.
Qed.

Lemma filter_isId_absent i l : ~ In i (entryIds l) -> filter (isId i) l = [].
Proof.
  intros H. induction l as [|e l IH]; simpl; [reflexivity|].
  destruct (isId i e) eqn:E.
  - exfalso. apply H. apply (isId_in i e); [now left | exact E].
  - apply IH. intros Hin. apply H. unfold entryIds in *. simpl.
    apply in_or_app. now right.
Qed.

Lemma sum_single i log :
  NoDup (entryIds log) ->
  TokenTracker.sumTokens (filter (isId i) log)
  = match findEntry log i with Some e => TokenTracker.tokensUsed e | None => 0 end.
Proof.
  unfold findEntry. fold (isId i).
  induction log as [|e l IH]; intros Hnd; simpl; [reflexivity|].
  assert (Hl : NoDup (entryIds l)).
  { unfold entryIds in *. simpl in Hnd.
    destruct (TokenTracker.entryId (TokenTracker.metadata e));
      [now inversion Hnd | exact Hnd]. }
  destruct (isId i e) eqn:E; [|now apply IH].
  rewrite sumTokens_cons, filter_isId_absent; [unfold TokenTracker.sumTokens; simpl; lia|].
  unfold isId in E. unfold entryIds in Hnd. simpl in Hnd.
  destruct (TokenTracker.entryId (TokenTracker.metadata e)) as [x|]; [|discriminate].
  apply String.eqb_eq in E. subst x. now inversion Hnd.
Qed.

Lemma sum_split (p q : TokenTracker.Entry -> bool) l :
  (forall e, p e = true -> q e = false) ->
  TokenTracker.sumTokens (filter (fun e => p e || q e) l)
  = TokenTracker.sumTokens (filter p l) + TokenTracker.sumTokens (filter q l).
Proof.
  intros H. induction l as [|e l IH]; simpl; [reflexivity|].
  destruct (p e) eqn:Ep; simpl.
  - rewrite (H e Ep), !sumTokens_cons, IH. lia.
  - destruct (q e); rewrite ?sumTokens_cons, IH; lia.
Qed.

Lemma filter_never {A} (l : list A) : filter (fun _ => false) l = [].
Proof. induction l as [|x l IH]; simpl; [reflexivity | exact IH]. Qed.

(** Over a log with distinct entry ids and a duplicate-free reference list,
    summing the first entry found for each reference is summing the entries
    that are referred to. *)
Lemma lookup_sum_is_filter_sum log ids :
  NoDup (entryIds log) -> NoDup ids ->
  TokenTracker.sumTokens
    (flat_map (fun i => match findEntry log i with
                        | Some e => [e]
                        | None => []
                        end) ids)
  = TokenTracker.sumTokens (filter (refersTo ids) log).
Proof.
  intros Hlog Hids. induction Hids as [|i ids Hi Hnd IH]; simpl.
  - rewrite (filter_ext (refersTo []) (fun _ => false)).
    + now rewrite filter_never.
    + intros e. unfold refersTo.
      now destruct (TokenTracker.entryId (TokenTracker.metadata e)).
  - rewrite sumTokens_app, IH.
    rewrite (filter_ext (refersTo (i :: ids))
                        (fun e => isId i e || refersTo ids e)).
    + rewrite sum_split.
      * rewrite (sum_single i log Hlog).
        destruct (findEntry log i); unfold TokenTracker.sumTokens; simpl; reflexivity.
      * intros e. unfold isId, refersTo.
        destruct (TokenTracker.entryId (TokenTracker.metadata e)) as [x|];
          [|discriminate].
        intros E. apply String.eqb_eq in E. subst x.
        destruct (includes i ids) eqn:Ei; [|reflexivity].
        apply includes_In in Ei. contradiction.
    + intros e. unfold isId, refersTo, includes.
      now destruct (TokenTracker.entryId (TokenTracker.metadata e)).
Qed.

Lemma sessionTokens_referencedSum log s :
  NoDup (entryIds log) ->
  (forall ids, tokenEntries s = Some ids -> NoDup ids) ->
  sessionTokens log s = referencedSum log s.
Proof.
  intros Hlog Hids. unfold sessionTokens, referencedSum, referenced.
  destruct (tokenEntries s) as [ids|] eqn:E.
  - change (fold_left _ ?l 0) with (TokenTracker.sumTokens l).
    rewrite lookup_sum_is_filter_sum; [|exact Hlog | now apply Hids].
    reflexivity.
  - rewrite (filter_ext _ (fun _ => false)).
    + now rewrite filter_never.
    + intros e. now destruct (TokenTracker.entryId (TokenTracker.metadata e)).
Qed.

End TotalsFacts.

(* ================================================================= *)
(** ** Ending a session *)

Module EndSpec.
Import JS SessionManager Samples SweepFacts ArrayFacts TotalsFacts.

Lemma sessionTokens_setDescription log d s :
  sessionTokens log (setDescription d s) = sessionTokens log s.
Proof. reflexivity. Qed.

Lemma reconciledTotal_setDescription log d s :
  reconciledTotal log (setDescription d s) = reconciledTotal log s.
Proof. reflexivity. Qed.

Ltac finalize_fields :=
  unfold finalizeTokens;
  match goal with
  | |- context [negb (truthy_num (totalTokens ?s))] =>
      destruct (negb (truthy_num (totalTokens s)));
      [ match goal with |- context [Z.gtb ?a 0] => destruct (Z.gtb a 0) end | ];
      try reflexivity
  end.

(** C7.  [endSession] returns null, and changes nothing, when the pointer is
    empty.  When the pointer names a session without end time, the session
    is closed at [now], stored in its slot, the pointer is removed and the
    closed session is returned; its total is left alone when it is already
    non-zero, and otherwise becomes the sum recomputed from the log when that
    sum is positive and stays as it is when it is not.  Over a log with
    distinct entry ids and a duplicate-free reference list the recomputed sum
    is the sum of [tokensUsed] over the entries the session refers to. *)
Theorem C7_end_session (o_desc : option string) (now : Z) (w : World) :
  (truthy_opt (activeId w) = false -> endSession o_desc now w = (None, w))
  /\ (forall a i s,
        activeId w = Some a -> truthy a = true ->
        findIndex (pointsTo (Some a)) (sessions w) = Some i ->
        nth_error (sessions w) i = Some s ->
        endTime s = None ->
        exists closed,
          endSession o_desc now w
          = (Some (newSession closed),
             setActiveSessionId None
               (saveSessions (setAt i closed (sessions w)) w))
          /\ activeId (snd (endSession o_desc now w)) = None
          /\ nth_error (sessions (snd (endSession o_desc now w))) i = Some closed
          /\ endTime closed = Some now
          /\ id closed = id s
          /\ startTime closed = startTime s
          /\ tokenEntries closed = tokenEntries s
          /\ activities closed = activities s
          /\ description closed
             = match o_desc with
               | Some d => if truthy d then d else description s
               | None => description s
               end
          /\ (truthy_num (totalTokens s) = true ->
              totalTokens closed = totalTokens s)
          /\ (truthy_num (totalTokens s) = false ->
              sessionTokens (history w) s > 0 ->
              totalTokens closed = Some (sessionTokens (history w) s))
          /\ (truthy_num (totalTokens s) = false ->
              sessionTokens (history w) s <= 0 ->
              totalTokens closed = totalTokens s)
          /\ (NoDup (entryIds (history w)) ->
              (forall ids, tokenEntries s = Some ids -> NoDup ids) ->
              sessionTokens (history w) s = referencedSum (history w) s)).
Proof.
  split.
  - intros H. unfold endSession, getActiveSessionId. now rewrite H.
  - intros a i s Ha Ta Hi Hs He.
    set (s0 := match o_desc with
               | Some d => if truthy d then setDescription d s else s
               | None => s
               end).
    exists (setEndTime (Some now) (finalizeTokens (history w) s0)).
    assert (Hrun : endSession o_desc now w
                   = (Some (newSession (setEndTime (Some now)
                                          (finalizeTokens (history w) s0))),
                      setActiveSessionId None
                        (saveSessions
                           (setAt i (setEndTime (Some now)
                                       (finalizeTokens (history w) s0))
                              (sessions w)) w))).
    { unfold endSession, getActiveSessionId, loadSessions.
      rewrite Ha. cbn [truthy_opt]. rewrite Ta. cbn [negb].
      change (findIndex (fun x => pointsTo (Some a) x) (sessions w))
        with (findIndex (pointsTo (Some a)) (sessions w)).
      rewrite Hi, Hs. unfold isEnded. rewrite He. reflexivity. }
    assert (Hs0 : id s0 = id s /\ startTime s0 = startTime s
                  /\ tokenEntries s0 = tokenEntries s
                  /\ activities s0 = activities s
                  /\ totalTokens s0 = totalTokens s
                  /\ sessionTokens (history w) s0 = sessionTokens (history w) s
                  /\ description s0
                     = match o_desc with
                       | Some d => if truthy d then d else description s
                       | None => description s
                       end).
    { subst s0. destruct o_desc as [d|]; [destruct (truthy d)|];
        repeat split; reflexivity. }
    destruct Hs0 as (Hid & Hst & Hte & Hac & Htt & Hsum & Hde).
    assert (Htot : totalTokens (finalizeTokens (history w) s0)
                   = reconciledTotal (history w) s).
    { rewrite finalizeTokens_total. unfold reconciledTotal.
      now rewrite Htt, Hsum. }
    split; [exact Hrun|]. rewrite Hrun. cbn [snd].
    split; [reflexivity|].
    split; [cbn [setActiveSessionId saveSessions sessions];
            now apply (nth_setAt_same _ _ _ s)|].
    split; [reflexivity|].
    cbn [id startTime tokenEntries activities description totalTokens setEndTime].
    split; [rewrite <- Hid; finalize_fields|].
    split; [rewrite <- Hst; finalize_fields|].
    split; [rewrite <- Hte; finalize_fields|].
    split; [rewrite <- Hac; finalize_fields|].
    split; [rewrite <- Hde; finalize_fields|].
    rewrite Htot. unfold reconciledTotal.
    split; [now intros ->|].
    split; [intros -> Hpos; destruct (Z.gtb_spec (sessionTokens (history w) s) 0);
            [reflexivity | lia]|].
    split; [intros -> Hneg; destruct (Z.gtb_spec (sessionTokens (history w) s) 0);
            [lia | reflexivity]|].
    apply sessionTokens_referencedSum.
Qed.

End EndSpec.

(* ================================================================= *)
(** ** Stale pointers and repeated starts *)

Module PointerSpec.
Import JS SessionManager Samples SweepFacts ArrayFacts SweepSpec.

Lemma pointsTo_eq a s : pointsTo (Some a) s = true <-> id s = a.
Proof.
  unfold pointsTo. rewrite String.eqb_eq. split; congruence.
Qed.

Lemma stale_swept a now t log ss :
  stale a ss -> stale a (map (sweepSession now t log) ss).
Proof.
  intros H s' Hin Hid. apply in_map_iff in Hin as (s & <- & Hs).
  rewrite id_sweepSession in Hid.
  pose proof (H s Hs Hid) as He.
  now rewrite sweepSession_ended.
Qed.

Lemma same_id_same_session (ss : list Session) x y :
  NoDup (map id ss) -> In x ss -> In y ss -> id x = id y -> x = y.
Proof.
  induction ss as [|z l IH]; simpl; [contradiction|].
  intros Hnd Hx Hy E. inversion Hnd as [|? ? Hz Hl]; subst.
  destruct Hx as [<-|Hx], Hy as [<-|Hy]; try reflexivity.
  - exfalso. apply Hz. rewrite E. now apply in_map.
  - exfalso. apply Hz. rewrite <- E. now apply in_map.
  - now apply IH.
Qed.

(** With distinct session ids, a stale pointer is one whose session is
    missing or ended. *)
Lemma stale_iff_first a ss :
  NoDup (map id ss) ->
  stale a ss
  <-> (find (pointsTo (Some a)) ss = None
       \/ exists s, find (pointsTo (Some a)) ss = Some s /\ isEnded s = true).
Proof.
  intros Hnd. split.
  - intros H. destruct (find (pointsTo (Some a)) ss) as [s|] eqn:E; [|now left].
    right. exists s. split; [reflexivity|].
    apply find_some in E as [Hin Hp]. apply pointsTo_eq in Hp. now apply H.
  - intros [Hn | (s & Hs & He)] x Hx Hid.
    + pose proof (find_none _ _ Hn x Hx) as Hp.
      apply pointsTo_eq in Hid. congruence.
    + apply find_some in Hs as [Hin Hp]. apply pointsTo_eq in Hp.
      rewrite (same_id_same_session ss x s Hnd Hx Hin); [exact He | congruence].
Qed.

Lemma sweptPointer_cases now t log ss a :
  sweptPointer now t log ss a = None \/ sweptPointer now t log ss a = a.
Proof. unfold sweptPointer. destruct (existsb _ ss); auto. Qed.

Lemma truthy_generated now rnd : truthy (generateSessionId now rnd) = true.
Proof. reflexivity. Qed.

Lemma endTime_newSession s : endTime (newSession s) = endTime s.
Proof. reflexivity. Qed.

(** A returned active session has no end time, whatever the store. *)
Lemma getActiveSession_open now w s :
  fst (getActiveSession now w) = Some s -> endTime s = None.
Proof.
  unfold getActiveSession.
  set (w1 := snd (checkAndEndTimedOutSessions now SESSION_TIMEOUT_MS w)).
  destruct (negb (truthy_opt (getActiveSessionId w1))); cbn [fst]; [discriminate|].
  destruct (find _ (loadSessions w1)) as [x|] eqn:E; cbn [option_map];
    [|discriminate].
  intros [= <-]. apply find_some in E as [_ E].
  apply andb_prop in E as [_ E]. unfold isEnded in E.
  rewrite endTime_newSession. now destruct (endTime x).
Qed.

Lemma getActiveSession_stale now w a :
  activeId w = Some a -> stale a (sessions w) ->
  fst (getActiveSession now w) = None.
Proof.
  intros Ha Hst. unfold getActiveSession, getActiveSessionId, loadSessions.
  rewrite activeId_sweep, sessions_sweep, Ha.
  destruct (sweptPointer_cases now SESSION_TIMEOUT_MS (history w) (sessions w) (Some a))
    as [-> | ->]; [reflexivity|].
  destruct (negb (truthy_opt (Some a))); [reflexivity|]. cbn [fst].
  rewrite find_all_false; [reflexivity|].
  intros x Hx. destruct (pointsTo (Some a) x) eqn:Ep; [|reflexivity].
  apply pointsTo_eq in Ep.
  now rewrite (stale_swept a _ _ _ _ Hst x Hx Ep).
Qed.

Lemma startSession_cases options now rnd w :
  (exists active,
      In active (sessions (snd (checkAndEndTimedOutSessions now SESSION_TIMEOUT_MS w)))
      /\ pointsTo (activeId (snd (checkAndEndTimedOutSessions now SESSION_TIMEOUT_MS w)))
           active = true
      /\ isEnded active = false
      /\ startSession options now rnd w
         = (newSession active,
            snd (checkAndEndTimedOutSessions now SESSION_TIMEOUT_MS w)))
  \/ startSession options now rnd w
     = (sessionOfOptions options now rnd, afterCreate options now rnd w).
Proof.
  unfold startSession, afterCreate, getActiveSessionId, loadSessions.
  set (w1 := snd (checkAndEndTimedOutSessions now SESSION_TIMEOUT_MS w)).
  destruct (truthy_opt (activeId w1)); [|now right].
  destruct (find _ (sessions w1)) as [active|] eqn:E; [|now right].
  destruct (isEnded active) eqn:Ee; cbn [negb]; [now right|].
  left. exists active. apply find_some in E as [Hin Hp]. auto.
Qed.

Lemma startSession_stale options now rnd w a :
  activeId w = Some a -> stale a (sessions w) ->
  startSession options now rnd w
  = (sessionOfOptions options now rnd, afterCreate options now rnd w).
Proof.
  intros Ha Hst.
  destruct (startSession_cases options now rnd w)
    as [(active & Hin & Hp & He & _) | E]; [exfalso | exact E].
  rewrite activeId_sweep, Ha in Hp. rewrite sessions_sweep in Hin.
  destruct (sweptPointer_cases now SESSION_TIMEOUT_MS (history w) (sessions w) (Some a))
    as [E | E]; rewrite E in Hp; [discriminate|].
  apply pointsTo_eq in Hp.
  rewrite (stale_swept a _ _ _ _ Hst active Hin Hp) in He. discriminate.
Qed.

Lemma endSession_stale o_desc now w a :
  activeId w = Some a -> truthy a = true -> stale a (sessions w) ->
  endSession o_desc now w
  = (option_map newSession (find (pointsTo (Some a)) (sessions w)),
     setActiveSessionId None w).
Proof.
  intros Ha Ta Hst. unfold endSession, getActiveSessionId, loadSessions.
  rewrite Ha. cbn [truthy_opt]. rewrite Ta. cbn [negb].
  rewrite find_by_index.
  change (findIndex (fun x => pointsTo (Some a) x) (sessions w))
    with (findIndex (pointsTo (Some a)) (sessions w)).
  destruct (findIndex (pointsTo (Some a)) (sessions w)) as [i|] eqn:Ei;
    [|reflexivity].
  destruct (findIndex_nth _ _ _ Ei) as (s & Hs & Hp).
  rewrite Hs. cbn [option_map].
  apply pointsTo_eq in Hp.
  rewrite (Hst s (nth_error_In _ _ Hs) Hp). reflexivity.
Qed.

(** C10.  Let the pointer be a non-empty id that no session without end time
    answers to (no session has it, or those that have it are ended).  Then
    [getActiveSession] returns null; [startSession] creates a new session,
    appends it and points at it; [endSession] removes the pointer, leaves the
    sessions alone, and returns null when no session has the id and the
    first, ended, session of that id otherwise.  In every store, a session
    [getActiveSession] returns has no end time. *)
Theorem C10_stale_pointer (a : string) (now : Z) (w : World) :
  activeId w = Some a -> truthy a = true -> stale a (sessions w) ->
  fst (getActiveSession now w) = None
  /\ (forall options rnd,
        let r := startSession options now rnd w in
        fst r = sessionOfOptions options now rnd
        /\ id (fst r) = generateSessionId now rnd
        /\ endTime (fst r) = None
        /\ sessions (snd r)
           = sessions (snd (checkAndEndTimedOutSessions now SESSION_TIMEOUT_MS w))
             ++ [fst r]
        /\ activeId (snd r) = Some (id (fst r)))
  /\ (forall o_desc,
        let r := endSession o_desc now w in
        activeId (snd r) = None
        /\ sessions (snd r) = sessions w
        /\ (find (pointsTo (Some a)) (sessions w) = None -> fst r = None)
        /\ (forall s, find (pointsTo (Some a)) (sessions w) = Some s ->
              fst r = Some (newSession s) /\ isEnded s = true))
  /\ (forall now' w' s,
        fst (getActiveSession now' w') = Some s -> endTime s = None).
Proof.
  intros Ha Ta Hst. split; [|split; [|split]].
  - now apply (getActiveSession_stale now w a).
  - intros options rnd r. subst r.
    rewrite (startSession_stale options now rnd w a Ha Hst).
    cbn [fst snd]. repeat split.
  - intros o_desc r. subst r.
    rewrite (endSession_stale o_desc now w a Ha Ta Hst). cbn [fst snd].
    split; [reflexivity|]. split; [reflexivity|]. split.
    + now intros ->.
    + intros s Hs. rewrite Hs. split; [reflexivity|].
      apply find_some in Hs as [Hin Hp]. apply pointsTo_eq in Hp.
      now apply Hst.
  - intros now' w' s. apply getActiveSession_open.
Qed.

End PointerSpec.

(* ================================================================= *)
(** ** Starting twice *)

Module StartSpec.
Import JS SessionManager Samples SweepFacts ArrayFacts SweepSpec PointerSpec.

Lemma ids_swept now t log ss :
  map id (map (sweepSession now t log) ss) = map id ss.
Proof.
  rewrite map_map. apply map_ext. intros s. apply id_sweepSession.
Qed.

Lemma newSession_created options now rnd :
  newSession (sessionOfOptions options now rnd) = sessionOfOptions options now rnd.
Proof.
  assert (Hn : forall o : option Z,
             (if truthy_num (if truthy_num o then o else None)
              then (if truthy_num o then o else None) else None)
             = (if truthy_num o then o else None))
    by (intros o; destruct (truthy_num o) eqn:E; [now rewrite E | reflexivity]).
  assert (Hs : forall o, opt_str_or_null (opt_str_or_null o) = opt_str_or_null o)
    by (intros o; unfold opt_str_or_null;
        destruct (truthy_opt o) eqn:E; [now rewrite E | reflexivity]).
  unfold newSession, sessionOfOptions.
  cbn [id startTime endTime projectId projectCode projectName description
       conversationId tokenEntries totalTokens activities tags promptGroups
       num_or_zero].
  now rewrite Hn, !Hs.
Qed.

Lemma created_not_timedOut options nowA rnd nowB log :
  nowB - nowA < SESSION_TIMEOUT_MS ->
  timedOut nowB SESSION_TIMEOUT_MS log (sessionOfOptions options nowA rnd) = false.
Proof.
  intros H. unfold timedOut, getLastActivityTime.
  cbn [sessionOfOptions isEnded endTime negb andb activities tokenEntries startTime].
  rewrite Z.geb_leb. apply Z.leb_gt. exact H.
Qed.

Lemma existsb_all_false {A} (f : A -> bool) (l : list A) :
  (forall x, In x l -> f x = false) -> existsb f l = false.
Proof.
  induction l as [|y l IH]; simpl; intros H; [reflexivity|].
  rewrite (H y) by now left. apply IH. intros x Hx. apply H. now right.
Qed.

Lemma pointsTo_other a s : id s <> a -> pointsTo (Some a) s = false.
Proof.
  intros H. destruct (pointsTo (Some a) s) eqn:E; [|reflexivity].
  apply pointsTo_eq in E. contradiction.
Qed.

Lemma filter_open_ended ss :
  Forall (fun s => isEnded s = true) ss -> filter open ss = [].
Proof.
  induction 1 as [|s l Hs _ IH]; simpl; [reflexivity|].
  unfold open at 1. now rewrite Hs.
Qed.

(** C3 as stated fails: two starts in a row on an empty store leave one
    session, the first, still without end time and still the active one; the
    second request ("B") created nothing. *)
Lemma C3_counterexample :
  let rA := startSession optsA 1000 "aaaaaaaaa" emptyWorld in
  let rB := startSession optsB 2000 "bbbbbbbbb" (snd rA) in
  map (fun s => (projectName s, endTime s)) (sessions (snd rB))
    = [(Some "A", None)]
  /\ projectName (fst rB) = Some "A"
  /\ option_map projectName (fst (getActiveSession 2000 (snd rB)))
     = Some (Some "A")
  /\ activeId (snd rB) = Some "session_1000_aaaaaaaaa".
Proof. vm_compute. repeat split. Qed.

(** C3, amended.  When [startSession] has created a session A (its id was
    not in the store before) and is called again for B before A's timeout,
    with no [endSession] in between, the second call returns A and creates
    nothing: A is stored without end time, the pointer names A,
    [getActiveSession] returns A, and when every earlier session was ended A
    is the only session without end time. *)
Theorem C3_second_start_returns_first (optsA optsB : StartOptions)
    (nowA nowB : Z) (rndA rndB : string) (w : World) :
  ~ In (id (fst (startSession optsA nowA rndA w))) (map id (sessions w)) ->
  nowB - nowA < SESSION_TIMEOUT_MS ->
  let rA := startSession optsA nowA rndA w in
  let a := fst rA in
  let rB := startSession optsB nowB rndB (snd rA) in
  fst rB = a
  /\ endTime a = None
  /\ activeId (snd rB) = Some (id a)
  /\ find (pointsTo (Some (id a))) (sessions (snd rB)) = Some a
  /\ List.length (sessions (snd rB)) = List.length (sessions (snd rA))
  /\ fst (getActiveSession nowB (snd rB)) = Some a
  /\ (Forall (fun s => isEnded s = true) (sessions w) ->
      filter open (sessions (snd rB)) = [a]).
Proof.
  intros Hfresh Hsoon rA a rB.
  change (~ In (id a) (map id (sessions w))) in Hfresh.
  set (w1 := snd (checkAndEndTimedOutSessions nowA SESSION_TIMEOUT_MS w)).
  assert (Hids1 : map id (sessions w1) = map id (sessions w))
    by (subst w1; rewrite sessions_sweep; apply ids_swept).
  (* the first call created A *)
  assert (HA : rA = (sessionOfOptions optsA nowA rndA, afterCreate optsA nowA rndA w)).
  { destruct (startSession_cases optsA nowA rndA w)
      as [(active & Hin & _ & _ & E) | E]; [exfalso | exact E].
    apply Hfresh. unfold a, rA. rewrite E. cbn [fst].
    change (id (newSession active)) with (id active).
    fold w1 in Hin. rewrite <- Hids1. now apply in_map. }
  assert (Ea : a = sessionOfOptions optsA nowA rndA) by (subst a; now rewrite HA).
  set (wA := afterCreate optsA nowA rndA w).
  assert (EwA : snd rA = wA) by now rewrite HA.
  assert (HsA : sessions wA = sessions w1 ++ [a]) by (rewrite Ea; reflexivity).
  assert (HpA : activeId wA = Some (id a)) by (rewrite Ea; reflexivity).
  assert (HhA : history wA = history w).
  { subst wA. unfold afterCreate. cbn [history setActiveSessionId saveSessions].
    apply history_sweep. }
  assert (Hother : forall s, In s (sessions w1) -> id s <> id a).
  { intros s Hs E. apply Hfresh. rewrite <- E, <- Hids1. now apply in_map. }
  (* the sweep of the second call keeps A and the pointer *)
  set (wB := snd (checkAndEndTimedOutSessions nowB SESSION_TIMEOUT_MS wA)).
  assert (Hkeep : sweepSession nowB SESSION_TIMEOUT_MS (history w) a = a).
  { unfold sweepSession. rewrite Ea.
    now rewrite (created_not_timedOut optsA nowA rndA nowB (history w) Hsoon). }
  assert (HsB : sessions wB
                = map (sweepSession nowB SESSION_TIMEOUT_MS (history w)) (sessions w1) ++ [a]).
  { subst wB. rewrite sessions_sweep, HhA, HsA, map_app. cbn [map].
    now rewrite Hkeep. }
  assert (HpB : activeId wB = Some (id a)).
  { subst wB. rewrite activeId_sweep, HhA, HsA, HpA. unfold sweptPointer.
    rewrite existsb_all_false; [reflexivity|].
    intros x Hx. apply in_app_or in Hx as [Hx | [<- | []]].
    - rewrite (pointsTo_other (id a) x (Hother x Hx)). apply andb_false_r.
    - rewrite Ea at 1.
      now rewrite (created_not_timedOut optsA nowA rndA nowB (history w) Hsoon). }
  assert (Hopen : isEnded a = false) by (rewrite Ea; reflexivity).
  assert (Hself : pointsTo (Some (id a)) a = true) by now apply pointsTo_eq.
  assert (Htr : truthy (id a) = true) by (rewrite Ea; reflexivity).
  assert (Hfind : find (pointsTo (Some (id a))) (sessions wB) = Some a).
  { rewrite HsB. apply find_app_last; [|exact Hself].
    intros y Hy. apply in_map_iff in Hy as (x & <- & Hx).
    apply pointsTo_other. rewrite id_sweepSession. now apply Hother. }
  assert (HB : rB = (a, wB)).
  { subst rB. rewrite EwA. unfold startSession, getActiveSessionId, loadSessions.
    fold wB. rewrite HpB. cbn [truthy_opt]. rewrite Htr.
    change (find (fun s => pointsTo (Some (id a)) s) (sessions wB))
      with (find (pointsTo (Some (id a))) (sessions wB)).
    rewrite Hfind, Hopen. cbn [negb].
    f_equal. rewrite Ea. apply newSession_created. }
  rewrite HB. cbn [fst snd].
  split; [reflexivity|].
  split; [rewrite Ea; reflexivity|].
  split; [exact HpB|].
  split; [exact Hfind|].
  split; [rewrite EwA, HsB, HsA, !length_app, length_map; reflexivity|].
  split.
  - unfold getActiveSession, getActiveSessionId, loadSessions.
    pose proof (sweep_twice nowB SESSION_TIMEOUT_MS wA) as Hidem. cbv zeta in Hidem.
    fold wB in Hidem. rewrite Hidem. cbn [snd].
    rewrite HpB. cbn [truthy_opt]. rewrite Htr.
    cbn [negb fst]. rewrite HsB.
    rewrite find_app_last.
    + cbn [option_map]. f_equal. rewrite Ea. apply newSession_created.
    + intros y Hy. apply in_map_iff in Hy as (x & <- & Hx).
      rewrite pointsTo_other; [reflexivity|].
      rewrite id_sweepSession. now apply Hother.
    + now rewrite Hself, Hopen.
  - intros Hall. rewrite HsB, filter_app. cbn [filter].
    unfold open at 2. rewrite Hopen. cbn [negb].
    rewrite filter_open_ended; [reflexivity|].
    apply Forall_forall. intros y Hy.
    apply in_map_iff in Hy as (x & <- & Hx).
    subst w1. rewrite sessions_sweep in Hx.
    apply in_map_iff in Hx as (x0 & <- & Hx0).
    rewrite Forall_forall in Hall. pose proof (Hall x0 Hx0) as E0.
    rewrite (sweepSession_ended nowA _ _ x0 E0).
    now rewrite (sweepSession_ended nowB _ _ x0 E0).
Qed.

End StartSpec.

(* ================================================================= *)
(** ** The sync-tokens pass *)

Module SyncFacts.
Import JS SessionManager SyncTokens SyncSamples ArrayFacts.

Lemma includes_app x l r : includes x (l ++ r) = includes x l || includes x r.
Proof. unfold includes. apply existsb_app. Qed.

Lemma fold_rowStep_none ex rows : fold_left (rowStep ex) rows None = None.
Proof. induction rows as [|r rows IH]; simpl; [reflexivity | exact IH]. Qed.

(** What the loop has accumulated when no row threw. *)
Lemma fold_rowStep_some ex rows :
  forall acc acc',
    fold_left (rowStep ex) rows (Some acc) = Some acc' ->
    newTokens acc'
    = newTokens acc + sumZ (map estimatedTokensOf (filter (isNew ex) rows))
    /\ newEntryIds acc' = newEntryIds acc ++ newIds ex rows
    /\ (forall r, In r rows -> exists i, entryIdOf r = Some i).
Proof.
  induction rows as [|r rows IH]; intros acc acc'; cbn [fold_left].
  - intros [= <-]. unfold newIds, sumZ. cbn [filter map flat_map fold_right].
    split; [lia|]. split; [now rewrite app_nil_r|]. intros r [].
  - unfold rowStep at 2. unfold isNew, newIds. cbn [filter flat_map map].
    destruct (entryIdOf r) as [i|] eqn:Ei;
      [|rewrite fold_rowStep_none; discriminate].
    destruct (includes i ex) eqn:Ein; cbn [negb].
    + intros H. destruct (IH _ _ H) as (Ht & Hi & Hall).
      split; [exact Ht|]. split; [exact Hi|].
      intros r' [<-|Hr']; [now exists i | now apply Hall].
    + intros H. destruct (IH _ _ H) as (Ht & Hi & Hall).
      cbn [newTokens newEntryIds] in Ht, Hi.
      split; [|split].
      * rewrite Ht. cbn [map sumZ fold_right]. unfold estimatedTokensOf at 2.
        rewrite <- Z.add_assoc. reflexivity.
      * rewrite Hi, <- app_assoc. reflexivity.
      * intros r' [<-|Hr']; [now exists i | now apply Hall].
Qed.

Lemma in_newIds ex rows r i :
  In r rows -> entryIdOf r = Some i -> includes i ex = false ->
  In i (newIds ex rows).
Proof.
  intros Hr Hi Hex. unfold newIds. apply in_flat_map. exists r.
  split; [exact Hr|]. rewrite Hi, Hex. now left.
Qed.

(** When every row's id is known, the loop leaves its locals alone. *)
Lemma fold_rowStep_known ex rows acc :
  (forall r, In r rows -> exists i, entryIdOf r = Some i /\ includes i ex = true) ->
  fold_left (rowStep ex) rows (Some acc) = Some acc.
Proof.
  induction rows as [|r rows IH]; intros H; cbn [fold_left]; [reflexivity|].
  destruct (H r (or_introl eq_refl)) as (i & Hi & Hex).
  unfold rowStep at 2. rewrite Hi, Hex. cbn [negb].
  apply IH. intros r' Hr'. apply H. now right.
Qed.

Lemma isNew_known ex rows :
  (forall r, In r rows -> exists i, entryIdOf r = Some i /\ includes i ex = true) ->
  filter (isNew ex) rows = [].
Proof.
  induction rows as [|r rows IH]; intros H; cbn [filter]; [reflexivity|].
  destruct (H r (or_introl eq_refl)) as (i & Hi & Hex).
  unfold isNew at 1. rewrite Hi, Hex. cbn [negb].
  apply IH. intros r' Hr'. apply H. now right.
Qed.

(** Sets in insertion order. *)
Lemma NoDup_setAdd l x : NoDup l -> NoDup (setAdd l x).
Proof.
  intros H. unfold setAdd. destruct (includes x l) eqn:E; [exact H|].
  apply NoDup_app; [exact H | repeat constructor; simpl; tauto |].
  intros y Hy [<-|[]]. apply includes_In in Hy. congruence.
Qed.

Lemma NoDup_fold_setAdd xs l : NoDup l -> NoDup (fold_left setAdd xs l).
Proof.
  revert l. induction xs as [|x xs IH]; intros l H; simpl; [exact H|].
  apply IH, NoDup_setAdd, H.
Qed.

Lemma fold_setAdd_nodup xs :
  forall l, NoDup (l ++ xs) -> fold_left setAdd xs l = l ++ xs.
Proof.
  induction xs as [|x xs IH]; intros l H; simpl; [now rewrite app_nil_r|].
  assert (Hx : includes x l = false).
  { destruct (includes x l) eqn:E; [|reflexivity].
    apply includes_In in E. apply NoDup_remove_2 in H.
    exfalso. apply H. apply in_or_app. now left. }
  unfold setAdd at 2. rewrite Hx.
  rewrite IH; rewrite <- app_assoc; [reflexivity | exact H].
Qed.

Lemma setFrom_nodup l : NoDup l -> setFrom l = l.
Proof. intros H. unfold setFrom. now rewrite fold_setAdd_nodup. Qed.

Lemma id_syncRows s rows s' :
  syncRows s rows = Some s' ->
  id s' = id s /\ startTime s' = startTime s /\ endTime s' = endTime s.
Proof.
  unfold syncRows. destruct rows as [|r rows]; [now intros [= <-]|].
  destruct (processRows _ _); [|discriminate].
  intros [= <-]. repeat split.
Qed.

End SyncFacts.

Module SyncSpec.
Import JS SessionManager SyncTokens SyncSamples ArrayFacts SyncFacts.

Lemma ceilDiv4_spec n :
  4 * (ceilDiv n 4 - 1) < n <= 4 * ceilDiv n 4.
Proof.
  unfold ceilDiv.
  pose proof (Z.div_mod (- n) 4). pose proof (Z.mod_pos_bound (- n) 4). lia.
Qed.

Lemma codeLengthOf_nonneg r : 0 <= codeLengthOf r.
Proof.
  unfold codeLengthOf. destruct (source r) as [src|]; [|lia].
  destruct (truthy src); lia.
Qed.

Lemma estimate_nonneg r : 0 <= estimatedTokensOf r.
Proof.
  unfold estimatedTokensOf.
  pose proof (ceilDiv4_spec (codeLengthOf r)). pose proof (codeLengthOf_nonneg r).
  lia.
Qed.

Lemma sumZ_estimates_nonneg rows : 0 <= sumZ (map estimatedTokensOf rows).
Proof.
  induction rows as [|r rows IH]; simpl; [lia|].
  pose proof (estimate_nonneg r). lia.
Qed.

(** The document the pass leaves, field by field. *)
Lemma syncRows_fields s r rows s' :
  syncRows s (r :: rows) = Some s' ->
  exists acc,
    processRows (existingOf s) (r :: rows) = Some acc
    /\ tokenEntries s' = Some (existingOf s ++ newEntryIds acc)
    /\ totalTokens s' = Some (num_or_zero (totalTokens s) + newTokens acc)
    /\ promptGroups s'
       = Some (fold_left setAdd (map fst (promptGroupsMap acc))
                 (setFrom (match promptGroups s with
                           | Some l => l | None => [] end)))
    /\ s' = setTotalTokens (totalTokens s')
              (setTokenEntries (tokenEntries s')
                 (setPromptGroups (promptGroups s') s)).
Proof.
  unfold syncRows. fold (existingOf s).
  destruct (processRows (existingOf s) (r :: rows)) as [acc|]; [|discriminate].
  intros [= <-]. exists acc. repeat split.
Qed.

(** C2.  When the pass runs to its end on a session, the total afterwards
    ([totalTokens || 0]) is the total before plus the sum, over the rows
    whose derived id was not among the session's references, of the estimate
    [ceil(length / 4)]; the estimate is the least integer not below a quarter
    of the length, so the total never decreases; and when there is at least
    one row the stored total is exactly that sum. *)
Theorem C2_additive_total (s s' : Session) (rows : list Row) :
  syncRows s rows = Some s' ->
  num_or_zero (totalTokens s')
  = num_or_zero (totalTokens s) + sumZ (map estimatedTokensOf (newRows s rows))
  /\ num_or_zero (totalTokens s) <= num_or_zero (totalTokens s')
  /\ (forall r, 4 * (estimatedTokensOf r - 1) < codeLengthOf r
                /\ codeLengthOf r <= 4 * estimatedTokensOf r)
  /\ (rows <> [] ->
      totalTokens s'
      = Some (num_or_zero (totalTokens s)
              + sumZ (map estimatedTokensOf (newRows s rows)))).
Proof.
  intros H.
  assert (Hsum : num_or_zero (totalTokens s')
                 = num_or_zero (totalTokens s)
                   + sumZ (map estimatedTokensOf (newRows s rows))
                 /\ (rows <> [] ->
                     totalTokens s'
                     = Some (num_or_zero (totalTokens s)
                             + sumZ (map estimatedTokensOf (newRows s rows))))).
  { destruct rows as [|r rows].
    - injection H as <-. unfold newRows. cbn [filter map sumZ fold_right].
      split; [lia | congruence].
    - destruct (syncRows_fields s r rows s' H) as (acc & Hp & _ & Ht & _).
      unfold processRows in Hp.
      destruct (fold_rowStep_some _ _ _ _ Hp) as (Hn & _ & _).
      cbn [newTokens acc0] in Hn. rewrite Ht, Hn. unfold newRows.
      cbn [num_or_zero]. split; [reflexivity | intros _; reflexivity]. }
  destruct Hsum as [Hsum Hsome].
  split; [exact Hsum|]. split; [|split; [|exact Hsome]].
  - rewrite Hsum. pose proof (sumZ_estimates_nonneg (newRows s rows)). lia.
  - intros r. unfold estimatedTokensOf.
    pose proof (ceilDiv4_spec (codeLengthOf r)). lia.
Qed.

(** Every row of a completed pass is known afterwards. *)
Lemma rows_known_after s r rows s' :
  syncRows s (r :: rows) = Some s' ->
  forall x, In x (r :: rows) ->
    exists i, entryIdOf x = Some i /\ includes i (existingOf s') = true.
Proof.
  intros H x Hx.
  destruct (syncRows_fields s r rows s' H) as (acc & Hp & Hte & _).
  unfold processRows in Hp.
  destruct (fold_rowStep_some _ _ _ _ Hp) as (_ & Hids & Hall).
  destruct (Hall x Hx) as (i & Hi). exists i. split; [exact Hi|].
  unfold existingOf at 1. rewrite Hte, includes_app.
  destruct (includes i (existingOf s)) eqn:E; [reflexivity|]. cbn [orb].
  apply includes_In. rewrite Hids. cbn [newEntryIds acc0 app].
  now apply (in_newIds _ _ x).
Qed.

Lemma newRows_after s rows s1 :
  syncRows s rows = Some s1 -> newRows s1 rows = [].
Proof.
  intros H. destruct rows as [|r rows]; [reflexivity|].
  unfold newRows. apply isNew_known. apply (rows_known_after s r rows s1 H).
Qed.

(** The pass is a fixed point on its own result. *)
Lemma syncRows_again s rows s1 :
  syncRows s rows = Some s1 -> syncRows s1 rows = Some s1.
Proof.
  intros H. destruct rows as [|r rows]; [reflexivity|].
  pose proof (rows_known_after s r rows s1 H) as Hk.
  destruct (syncRows_fields s r rows s1 H) as (acc & _ & Hte & Ht & Hpg & _).
  unfold syncRows. fold (existingOf s1).
  unfold processRows. rewrite (fold_rowStep_known _ _ acc0 Hk).
  cbn [promptGroupsMap newEntryIds newTokens acc0 map fold_left].
  rewrite Hpg.
  rewrite setFrom_nodup by (apply NoDup_fold_setAdd; unfold setFrom;
                            apply NoDup_fold_setAdd; constructor).
  rewrite <- Hpg. rewrite app_nil_r.
  unfold existingOf. rewrite Hte.
  cbn [totalTokens setTokenEntries setPromptGroups]. rewrite Ht.
  cbn [num_or_zero]. rewrite Z.add_0_r. rewrite <- Ht, <- Hte.
  destruct s1; reflexivity.
Qed.

(** C1.  When the pass has run to its end on a session and is run again on
    the result with the same rows, it returns that result unchanged: no row
    is new any more, so no entry is added, no prompt group is added and the
    total keeps its value. *)
Theorem C1_second_pass_changes_nothing (s s1 : Session) (rows : list Row) :
  syncRows s rows = Some s1 ->
  syncRows s1 rows = Some s1
  /\ newRows s1 rows = []
  /\ (forall s2, syncRows s1 rows = Some s2 ->
        tokenEntries s2 = tokenEntries s1
        /\ promptGroups s2 = promptGroups s1
        /\ totalTokens s2 = totalTokens s1).
Proof.
  intros H. pose proof (syncRows_again s rows s1 H) as Hagain.
  split; [exact Hagain|]. split; [exact (newRows_after s rows s1 H)|].
  intros s2 H2. rewrite Hagain in H2. injection H2 as <-. repeat split.
Qed.

(** *** The whole script *)

Lemma findIndex_setAt {A} (p : A -> bool) (l : list A) i v :
  findIndex p l = Some i -> p v = true -> findIndex p (setAt i v l) = Some i.
Proof.
  revert i. induction l as [|y l IH]; intros i; simpl; [discriminate|].
  destruct (p y) eqn:E.
  - intros [= <-] Hv. simpl. now rewrite Hv.
  - destruct (findIndex p l) as [k|] eqn:Ek; simpl; [|discriminate].
    intros [= <-] Hv. simpl. rewrite E. now rewrite (IH k eq_refl Hv).
Qed.

Lemma setAt_twice {A} (l : list A) i (v : A) :
  setAt i v (setAt i v l) = setAt i v l.
Proof.
  revert i. induction l as [|y l IH]; intros [|i]; simpl; try reflexivity.
  now rewrite IH.
Qed.

Lemma main_no_sweep now w :
  snd (underNode (checkAndEndTimedOutSessions now SESSION_TIMEOUT_MS) w) = w.
Proof. reflexivity. Qed.

(** What a completed run of the script did: the pointer named an open
    session in slot [i]; the world is as it was when the query had no row,
    and otherwise has slot [i] replaced by the result of the pass. *)
Lemma main_synced db now w w1 :
  main db now w = (Synced, w1) ->
  exists a i s query s',
    activeId w = Some a
    /\ findIndex (fun x => (id x =? a)%string && negb (isEnded x)) (sessions w)
       = Some i
    /\ nth_error (sessions w) i = Some s
    /\ db = Some query
    /\ syncRows s (query (startTime s)) = Some s'
    /\ ((query (startTime s) = [] /\ w1 = w)
        \/ (query (startTime s) <> []
            /\ w1 = saveSessions (setAt i s' (sessions w)) w)).
Proof.
  intros H. unfold main in H. rewrite main_no_sweep in H.
  unfold loadSessions in H.
  destruct (activeId w) as [a|]; [|discriminate].
  destruct (findIndex _ (sessions w)) as [i|] eqn:Ei; [|discriminate].
  destruct (nth_error (sessions w) i) as [s|] eqn:Es; [|discriminate].
  destruct db as [query|]; [|discriminate].
  exists a, i, s, query.
  destruct (query (startTime s)) as [|r rows] eqn:Er.
  - injection H as <-. exists s. repeat split; auto.
  - destruct (syncRows s (r :: rows)) as [s'|] eqn:Ep; [|discriminate].
    injection H as <-. exists s'. repeat split; auto.
    right. split; [discriminate | reflexivity].
Qed.

(** The script on the whole store: the total of the active session grows by
    the estimates of its new rows. *)
Lemma main_additive_total db now w w1 :
  main db now w = (Synced, w1) ->
  exists i s s' query,
    db = Some query
    /\ nth_error (sessions w) i = Some s
    /\ activeId w = Some (id s) /\ isEnded s = false
    /\ nth_error (sessions w1) i = Some s'
    /\ num_or_zero (totalTokens s')
       = num_or_zero (totalTokens s)
         + sumZ (map estimatedTokensOf (newRows s (query (startTime s)))).
Proof.
  intros H.
  destruct (main_synced db now w w1 H) as (a & i & s & query & s' & Ha & Hi & Hs & Hdb & Hp & Hw).
  destruct (findIndex_nth _ _ _ Hi) as (x & Hx & Hpx).
  rewrite Hs in Hx. injection Hx as <-.
  apply andb_prop in Hpx as [Hid Hopen]. apply String.eqb_eq in Hid.
  exists i, s, s', query. split; [exact Hdb|]. split; [exact Hs|].
  split; [now rewrite Ha, Hid|].
  split; [now destruct (isEnded s)|].
  split.
  - destruct Hw as [[Hr ->] | [_ ->]].
    + rewrite Hr in Hp. injection Hp as <-. exact Hs.
    + cbn [saveSessions sessions]. now apply (nth_setAt_same _ _ _ s).
  - destruct (query (startTime s)) as [|r rows] eqn:Er.
    + injection Hp as <-. cbn. lia.
    + destruct (syncRows_fields s r rows s' Hp) as (acc & Hpr & _ & Ht & _).
      unfold processRows in Hpr.
      destruct (fold_rowStep_some _ _ _ _ Hpr) as (Hn & _ & _).
      rewrite Ht, Hn. reflexivity.
Qed.

(** The script run again on an unchanged database, at any later instant:
    it completes and leaves sessions and pointer as they were. *)
Lemma main_again db now now2 w w1 :
  main db now w = (Synced, w1) ->
  fst (main db now2 w1) = Synced
  /\ sessions (snd (main db now2 w1)) = sessions w1
  /\ activeId (snd (main db now2 w1)) = activeId w1
  /\ history (snd (main db now2 w1)) = history w1.
Proof.
  intros H.
  destruct (main_synced db now w w1 H) as (a & i & s & query & s' & Ha & Hi & Hs & -> & Hp & Hw).
  unfold main. rewrite main_no_sweep. unfold loadSessions.
  destruct Hw as [[Hr ->] | [Hr ->]].
  - rewrite Ha, Hi, Hs, Hr. repeat split. exact Ha.
  - cbn [saveSessions activeId sessions]. rewrite Ha.
    destruct (id_syncRows s _ s' Hp) as (Hid & Hst & Hend).
    destruct (findIndex_nth _ _ _ Hi) as (x & Hx & Hpx).
    rewrite Hs in Hx. injection Hx as <-.
    rewrite (findIndex_setAt _ _ i s' Hi)
      by (unfold isEnded in *; now rewrite Hid, Hend).
    rewrite (nth_setAt_same _ _ s' s Hs). rewrite Hst.
    destruct (query (startTime s)) as [|r rows] eqn:Er; [contradiction|].
    rewrite (syncRows_again s (r :: rows) s' Hp).
    cbn [fst snd saveSessions sessions activeId history].
    rewrite setAt_twice. repeat split. exact Ha.
Qed.

End SyncSpec.

(* ================================================================= *)
(** ** The statements at sample inputs *)

Module SessionWitnesses.
Import JS SessionManager Samples.

(** The sweep on a session idle for three hours: it is ended with the
    synthesized description and the pointer is removed. *)
Example sweep_three_hours :
  checkAndEndTimedOutSessions (10 + 3 * 3600000) SESSION_TIMEOUT_MS idleWorld
  = (["s1"],
     let closed :=
       mkSession "s1" 10 (Some (10 + 3 * 3600000)) None None None
         "Auto-ended after 3 hours of inactivity" None (Some []) (Some 5)
         (Some []) [] None in
     mkWorld [closed] None [] [WSessions [closed]; WActive None]).
Proof. vm_compute. reflexivity. Qed.

Lemma C6_witness :
  fst (checkAndEndTimedOutSessions 10800010 SESSION_TIMEOUT_MS idleWorld)
  = map id (filter (qualifies 10800010 SESSION_TIMEOUT_MS (history idleWorld))
              (sessions idleWorld))
  /\ fst (checkAndEndTimedOutSessions 10800010 SESSION_TIMEOUT_MS idleWorld)
     = ["s1"].
Proof.
  split; [|vm_compute; reflexivity].
  exact (proj1 (SweepSpec.C6_timeout_sweep 10800010 SESSION_TIMEOUT_MS idleWorld)).
Defined.

Lemma C5_witness :
  fst (addTokenEntryToSession "s1" "e9" 400 sampleWorld) = false
  /\ nth_error (sessions (snd (addTokenEntryToSession "s1" "e9" 400 sampleWorld))) 0
     = Some endedDoc.
Proof.
  destruct (ImmutableSpec.C5_ended_session_immutable "s1" "e9"
              (mkActivityInput "test" None) 400 sampleWorld 0 endedDoc
              eq_refl eq_refl eq_refl) as (H1 & H2 & _).
  split; [exact H1 | exact H2].
Defined.

Lemma C7_witness :
  exists closed,
    fst (endSession None 400 sampleWorld) = Some (newSession closed)
    /\ endTime closed = Some 400
    /\ totalTokens closed = Some 7.
Proof.
  destruct (proj2 (EndSpec.C7_end_session None 400 sampleWorld)
              "s2" 1%nat openDoc2 eq_refl eq_refl eq_refl eq_refl eq_refl)
    as (closed & Hrun & _ & _ & Hend & _ & _ & _ & _ & _ & _ & Hsum & _).
  exists closed. rewrite Hrun. split; [reflexivity|]. split; [exact Hend|].
  apply Hsum; [reflexivity | vm_compute; reflexivity].
Defined.

Lemma C10_witness :
  stale "s1" (sessions danglingWorld)
  /\ fst (getActiveSession 400 danglingWorld) = None.
Proof.
  assert (H : stale "s1" (sessions danglingWorld)).
  { intros s [<-|[]] _. reflexivity. }
  split; [exact H|].
  exact (proj1 (PointerSpec.C10_stale_pointer "s1" 400 danglingWorld
                  eq_refl eq_refl H)).
Defined.

Lemma C3_witness :
  let rA := startSession optsA 1000 "aaaaaaaaa" danglingWorld in
  let rB := startSession optsB 2000 "bbbbbbbbb" (snd rA) in
  fst rB = fst rA /\ endTime (fst rA) = None
  /\ filter open (sessions (snd rB)) = [fst rA]
  /\ List.length (sessions (snd rB)) = 2%nat.
Proof.
  assert (Hfresh : ~ In (id (fst (startSession optsA 1000 "aaaaaaaaa" danglingWorld)))
                        (map id (sessions danglingWorld)))
    by (vm_compute; intros [H|[]]; discriminate).
  assert (Hsoon : 2000 - 1000 < SESSION_TIMEOUT_MS) by (vm_compute; reflexivity).
  assert (Hended : Forall (fun s => isEnded s = true) (sessions danglingWorld))
    by (repeat constructor).
  destruct (StartSpec.C3_second_start_returns_first optsA optsB 1000 2000
              "aaaaaaaaa" "bbbbbbbbb" danglingWorld Hfresh Hsoon)
    as (H1 & H2 & _ & _ & _ & _ & H7).
  split; [exact H1|]. split; [exact H2|]. split; [exact (H7 Hended) | reflexivity].
Defined.

End SessionWitnesses.

Module SyncWitnesses.
Import JS SessionManager SyncTokens SyncSamples.

(** Three rows of 400 characters, one minute apart, on a fresh session:
    300 tokens, three references, three minute buckets. *)
Example pass_three_rows :
  exists s1,
    syncRows startedDoc threeRows = Some s1
    /\ totalTokens s1 = Some 300
    /\ tokenEntries s1
       = Some ["entry_60000_aaaaaaaa"; "entry_120000_bbbbbbbb";
               "entry_180000_cccccccc"]
    /\ promptGroups s1 = Some ["prompt_1"; "prompt_2"; "prompt_3"].
Proof. eexists. vm_compute. repeat split. Qed.

Lemma C1_witness :
  syncRows startedDoc threeRows = Some syncedDoc
  /\ syncRows syncedDoc threeRows = Some syncedDoc.
Proof.
  assert (E : syncRows startedDoc threeRows = Some syncedDoc)
    by (vm_compute; reflexivity).
  split; [exact E|].
  exact (proj1 (SyncSpec.C1_second_pass_changes_nothing
                  startedDoc syncedDoc threeRows E)).
Defined.

Lemma C2_witness :
  exists s1,
    syncRows paidDoc [codeRow 5 "ffffffff00" 4800] = Some s1
    /\ num_or_zero (totalTokens s1) = 5000 + 1200.
Proof.
  eexists. 
  assert (E : syncRows paidDoc [codeRow 5 "ffffffff00" 4800]
              = Some (mkSession "s4" 0 None None None None EmptyString None
                        (Some ["entry_1_old"; "entry_5_ffffffff"])
                        (Some 6200) (Some []) [] (Some ["prompt_0"])))
    by (vm_compute; reflexivity).
  split; [exact E|].
  rewrite (proj1 (SyncSpec.C2_additive_total paidDoc _ _ E)).
  vm_compute. reflexivity.
Defined.

End SyncWitnesses.

(* ================================================================= *)
(** ** Decimal rendering and parsing of numbers *)

Module NumberFacts.
Import JS JSText.

Lemma allDigits_uint d : allDigits (NilEmpty.string_of_uint d) = true.
Proof. induction d; simpl; auto. Qed.

Lemma parseDigits_uint_acc d :
  forall acc : positive,
    parseDigits (Z.pos acc) (NilEmpty.string_of_uint d)
    = Z.pos (Pos.of_uint_acc d acc).
Proof.
  induction d; intros acc; cbn [NilEmpty.string_of_uint parseDigits Pos.of_uint_acc];
    try reflexivity;
    match goal with
    | |- context [isDigit ?c] => change (isDigit c) with true; cbv iota
    end;
    rewrite <- IHd; f_equal;
    match goal with
    | |- context [digitVal ?c] =>
        let v := eval vm_compute in (digitVal c) in change (digitVal c) with v
    end; lia.
Qed.

Lemma parseDigits_uint d :
  parseDigits 0 (NilEmpty.string_of_uint d) = Z.of_N (Pos.of_uint d).
Proof.
  induction d; cbn [NilEmpty.string_of_uint parseDigits Pos.of_uint];
    try reflexivity;
    match goal with
    | |- context [isDigit ?c] => change (isDigit c) with true; cbv iota
    end;
    [ exact IHd | .. ];
    match goal with
    | |- parseDigits ?a _ = _ =>
        let v := eval vm_compute in a in change a with v
    end;
    rewrite parseDigits_uint_acc; reflexivity.
Qed.

Lemma toString_pos p :
  toString (Z.pos p) = NilEmpty.string_of_uint (Pos.to_uint p).
Proof.
  unfold toString. cbn [Z.to_int NilZero.string_of_int NilZero.string_of_uint].
  pose proof (DecimalPos.Unsigned.to_uint_nonnil p) as H.
  destruct (Pos.to_uint p); [contradiction | reflexivity ..].
Qed.

(** The rendering of a natural number is a non-empty string of digits. *)
Lemma toString_digits n :
  0 <= n -> allDigits (toString n) = true /\ toString n <> EmptyString.
Proof.
  intros H. destruct n as [|p|p]; [split; [reflexivity | discriminate] | | lia].
  rewrite toString_pos. split; [apply allDigits_uint|].
  pose proof (DecimalPos.Unsigned.to_uint_nonnil p) as Hn.
  destruct (Pos.to_uint p); [contradiction | discriminate ..].
Qed.

(** Parsing the rendering of a natural number gives the number back. *)
Lemma parseDigits_toString n : 0 <= n -> parseDigits 0 (toString n) = n.
Proof.
  intros H. destruct n as [|p|p]; [reflexivity | | lia].
  rewrite toString_pos, parseDigits_uint, DecimalPos.Unsigned.of_to. reflexivity.
Qed.

Lemma parseInt_digits s :
  allDigits s = true -> s <> EmptyString -> parseInt s = Some (parseDigits 0 s).
Proof.
  destruct s as [|c r]; [congruence|]. simpl. intros H _.
  apply andb_prop in H as [-> _]. reflexivity.
Qed.

Lemma parseInt_toString n : 0 <= n -> parseInt (toString n) = Some n.
Proof.
  intros H. destruct (toString_digits n H) as [Hd Hne].
  rewrite (parseInt_digits _ Hd Hne). f_equal. now apply parseDigits_toString.
Qed.

Lemma parseDigits_app s1 s2 acc :
  allDigits s1 = true ->
  parseDigits acc (s1 ++ s2) = parseDigits (parseDigits acc s1) s2.
Proof.
  revert acc. induction s1 as [|c r IH]; intros acc H; simpl in *; [reflexivity|].
  apply andb_prop in H as [Hc Hr]. rewrite Hc. now apply IH.
Qed.

Lemma allDigits_app s1 s2 :
  allDigits (s1 ++ s2) = allDigits s1 && allDigits s2.
Proof.
  induction s1 as [|c r IH]; simpl; [reflexivity|].
  now rewrite IH, andb_assoc.
Qed.

Lemma splitLast_app s c :
  splitLast (s ++ String c EmptyString) = Some (s, c).
Proof.
  induction s as [|a r IH]; simpl; [reflexivity|]. now rewrite IH.
Qed.

Lemma string_app_assoc (a b c : string) :
  (a ++ (b ++ c) = (a ++ b) ++ c)%string.
Proof. induction a as [|x a IH]; simpl; [reflexivity | now rewrite IH]. Qed.

Lemma isDigit_cases c : isDigit c = true -> In c digitChars.
Proof.
  destruct c as [[] [] [] [] [] [] [] []]; vm_compute; intros H;
    first [discriminate | tauto].
Qed.

End NumberFacts.

(* ================================================================= *)
(** ** Project identifiers, the other way round *)

Module ProjectIdMore.
Import JS JSText ProjectId IdChecks ProjectIdFacts NumberFacts.

Lemma forallb2_digits (f : ascii -> ascii -> bool) :
  forallb (fun a => forallb (f a) digitChars) digitChars = true ->
  forall a b, isDigit a = true -> isDigit b = true -> f a b = true.
Proof.
  intros H a b Ha Hb. rewrite forallb_forall in H.
  pose proof (H a (isDigit_cases a Ha)) as H1. rewrite forallb_forall in H1.
  apply H1, isDigit_cases, Hb.
Qed.

Lemma yearBack_all a b : isDigit a = true -> isDigit b = true -> yearBack a b = true.
Proof. apply forallb2_digits. vm_compute. reflexivity. Qed.

Lemma numberBack_all a b :
  isDigit a = true -> isDigit b = true -> numberBack a b = true.
Proof. apply forallb2_digits. vm_compute. reflexivity. Qed.

Lemma digitBack_all q : isDigit q = true -> digitBack q = true.
Proof.
  intros H. assert (Hall : forallb digitBack digitChars = true)
    by (vm_compute; reflexivity).
  rewrite forallb_forall in Hall. apply Hall, isDigit_cases, H.
Qed.

(** The letter of a parsed identifier whose type is one of the five names
    is the code of that type. *)
Lemma known_type_code c :
  In (match codeToPrimaryName (String c EmptyString) with
      | Some k => k
      | None => match reverseLookup (String c EmptyString) with
                | Some k => k | None => "UNKNOWN" end
      end) platforms ->
  getPlatformCode
    (Some (match codeToPrimaryName (String c EmptyString) with
           | Some k => k
           | None => match reverseLookup (String c EmptyString) with
                     | Some k => k | None => "UNKNOWN" end
           end)) = String c EmptyString.
Proof.
  unfold codeToPrimaryName, reverseLookup, platformEntries.
  cbn [find snd fst option_map].
  repeat match goal with
  | |- context [String.eqb ?a ?b] =>
      let E := fresh "E" in
      destruct (String.eqb_spec a b) as [E|E];
      [inversion E; subst; intros _; reflexivity|]
  end.
  simpl. intros H. repeat destruct H as [H|H]; try discriminate; contradiction.
Qed.

(** X1.  A string that [parseProjectId] accepts has seven characters, a year
    in 2000..2099, a quarter digit 0..9 (the pattern does not restrict it to
    1..4) and a number in 0..99; when the quarter is in 1..4 and the letter
    is one of the five codes, generating from the parsed components gives
    the string back. *)
Theorem parse_then_generate (s : string) (p : Parsed) :
  parseProjectId s = Some p ->
  exists y q n,
    year p = Some y /\ quarter p = Some q /\ projectNumber p = Some n
    /\ fullYear p = Some y
    /\ String.length s = 7%nat
    /\ 2000 <= y <= 2099 /\ 0 <= q <= 9 /\ 0 <= n <= 99
    /\ (1 <= q <= 4 -> In (platformType p) platforms ->
        generateProjectId (mkDate y (3 * (q - 1))) (Some (platformType p)) n = s).
Proof.
  unfold parseProjectId, matchProjectId.
  destruct s as [|y1 [|y2 [|cq [|q [|c [|n1 [|n2 [|? ?]]]]]]]];
    try (cbv iota beta; discriminate);
    try (destruct cq as [[] [] [] [] [] [] [] []]; cbv iota beta; discriminate).
  destruct (Ascii.eqb_spec cq "Q") as [->|Hq];
    [|destruct cq as [[] [] [] [] [] [] [] []];
      try (cbv iota beta; discriminate); contradiction].
  destruct (isDigit y1) eqn:D1; [|discriminate].
  destruct (isDigit y2) eqn:D2; [|discriminate].
  destruct (isDigit q) eqn:Dq; [|discriminate].
  destruct (isUpper c) eqn:Uc; [|discriminate].
  destruct (isDigit n1) eqn:D3; [|discriminate].
  destruct (isDigit n2) eqn:D4; [|discriminate].
  cbn [andb].
  pose proof (yearBack_all y1 y2 D1 D2) as Hy.
  pose proof (numberBack_all n1 n2 D3 D4) as Hn.
  pose proof (digitBack_all q Dq) as Hd.
  unfold yearBack, numberBack, digitBack, two in Hy, Hn, Hd.
  cbn [append] in Hy |- *.
  destruct (parseInt (String "2" (String "0" (String y1 (String y2 EmptyString)))))
    as [y|]; [|discriminate].
  destruct (parseInt (String n1 (String n2 EmptyString))) as [n|]; [|discriminate].
  destruct (parseInt (String q EmptyString)) as [v|]; [|discriminate].
  intros E. injection E as <-.
  cbn [year quarter projectNumber fullYear platformType].
  apply andb_prop in Hy as [Hy Hy3]; apply andb_prop in Hy as [Hy1 Hy2].
  apply andb_prop in Hn as [Hn Hn3]; apply andb_prop in Hn as [Hn1 Hn2].
  apply andb_prop in Hd as [Hd Hd3]; apply andb_prop in Hd as [Hd1 Hd2].
  apply String.eqb_eq in Hy3, Hn3, Hd3.
  apply Z.leb_le in Hy1, Hy2, Hn1, Hn2, Hd1, Hd2.
  exists y, v, n. repeat (split; [reflexivity || lia|]).
  intros Hv Ht. unfold generateProjectId. cbn [getFullYear getMonth].
  replace (3 * (v - 1) / 3 + 1) with v
    by (replace (3 * (v - 1)) with ((v - 1) * 3) by lia;
        rewrite Z.div_mul by lia; lia).
  rewrite Hy3, Hn3, Hd3, (known_type_code c Ht). reflexivity.
Qed.

Lemma parse_then_generate_witness :
  exists p, parseProjectId "26Q1W22" = Some p
            /\ generateProjectId (mkDate 2026 0) (Some (platformType p)) 22
               = "26Q1W22".
Proof.
  eexists. split; [reflexivity|].
  destruct (parse_then_generate "26Q1W22" _ eq_refl)
    as (y & q & n & Hy & Hq & Hn & _ & _ & _ & _ & _ & Hback).
  vm_compute in Hy, Hq, Hn.
  injection Hy as <-. injection Hq as <-. injection Hn as <-.
  apply Hback; [lia | simpl; tauto].
Defined.

(** X2.  Identifiers are unique keys: two generated identifiers for years in
    2000..2099, table platforms and numbers 0..99 are equal only when year,
    quarter, platform and number are. *)
Theorem generate_injective (y y' m m' n n' : Z) (t t' : string) :
  2000 <= y <= 2099 -> 0 <= m <= 11 -> In t platforms -> 0 <= n <= 99 ->
  2000 <= y' <= 2099 -> 0 <= m' <= 11 -> In t' platforms -> 0 <= n' <= 99 ->
  generateProjectId (mkDate y m) (Some t) n
  = generateProjectId (mkDate y' m') (Some t') n' ->
  y = y' /\ m / 3 = m' / 3 /\ t = t' /\ n = n'.
Proof.
  intros Hy Hm Ht Hn Hy' Hm' Ht' Hn' E.
  pose proof (generate_shape y m t n Hy Hm Ht Hn) as P.
  pose proof (generate_shape y' m' t' n' Hy' Hm' Ht' Hn') as P'.
  rewrite E, P' in P. injection P as E1 E2 _ E4 E5.
  repeat split; try congruence. lia.
Qed.

Lemma generate_injective_witness :
  generateProjectId (mkDate 2026 0) (Some "WEB") 22
  = generateProjectId (mkDate 2026 2) (Some "WEB") 22
  /\ 0 / 3 = 2 / 3.
Proof.
  split; [reflexivity|].
  apply (generate_injective 2026 2026 0 2 22 22 "WEB" "WEB");
    try lia; try (simpl; tauto); reflexivity.
Defined.

End ProjectIdMore.

(* ================================================================= *)
(** ** Version strings *)

Module VersionSpec.
Import JS JSText ProjectId IdChecks Versioning ProjectIdFacts NumberFacts.

Lemma yearShortOk_all y : 2000 <= y <= 2099 -> yearShortOk y = true.
Proof.
  intros H. apply (forallb_range yearShortOk 2000 100); [vm_compute; reflexivity | lia].
Qed.

Lemma twoDigitOk_all u : 10 <= u <= 99 -> twoDigitOk u = true.
Proof.
  intros H. apply (forallb_range twoDigitOk 10 90); [vm_compute; reflexivity | lia].
Qed.

Lemma digit_toString u :
  0 <= u <= 9 ->
  exists c, toString u = String c EmptyString /\ isDigit c = true
            /\ parseInt (String c EmptyString) = Some u.
Proof.
  intros H. assert (Hall : forallb quarterOk (range 0 12) = true)
    by (vm_compute; reflexivity).
  assert (Hc : forallb (fun u => match toString u with
                                 | String c EmptyString =>
                                     isDigit c
                                     && optZ_eqb (parseInt (String c EmptyString)) u
                                 | _ => false
                                 end) (range 0 10) = true)
    by (vm_compute; reflexivity).
  pose proof (forallb_range _ 0 10 u Hc) as Hu. cbv beta in Hu.
  specialize (Hu ltac:(lia)).
  destruct (toString u) as [|c [|? ?]]; try discriminate.
  apply andb_prop in Hu as [Hd Hp]. apply optZ_eqb_eq in Hp.
  now exists c.
Qed.

(** The head of a generated version: two year digits and a quarter digit. *)
Lemma version_head y m f u :
  2000 <= y <= 2099 -> 0 <= m <= 11 ->
  exists a b q,
    generateVersion (mkDate y m) f u
    = String "c" (String a (String b (String "Q" (String q (String "F"
        (toString f ++ toString u))))))
    /\ isDigit a = true /\ isDigit b = true /\ isDigit q = true
    /\ parseInt (two a b) = Some (y - 2000)
    /\ parseInt (String q EmptyString) = Some (m / 3 + 1).
Proof.
  intros Hy Hm.
  pose proof (yearShortOk_all y Hy) as Ey.
  pose proof (quarterOk_all m Hm) as Eq.
  unfold generateVersion, yearShortOk, quarterOk in *. cbn [getFullYear getMonth].
  destruct (sliceLast 2 (toString y)) as [|a [|b [|? ?]]]; try discriminate.
  destruct (toString (m / 3 + 1)) as [|q [|? ?]]; try discriminate.
  apply andb_prop in Ey as [Ey Py]; apply andb_prop in Ey as [Da Db].
  apply andb_prop in Eq as [Dq Pq].
  apply optZ_eqb_eq in Py, Pq.
  exists a, b, q. repeat split; auto.
Qed.

(** X3.  A version generated for a year in 2000..2099, a feature id that is
    a natural number and an update index of one digit parses back to the
    two-digit year, the quarter, the feature id and the update index. *)
Theorem version_round_trip (y m f u : Z) :
  2000 <= y <= 2099 -> 0 <= m <= 11 -> 0 <= f -> 0 <= u <= 9 ->
  parseVersion (generateVersion (mkDate y m) f u)
  = Some {| v_year := Some (y - 2000); v_quarter := Some (m / 3 + 1);
            v_featureId := Some f; v_updateIndex := Some u |}.
Proof.
  intros Hy Hm Hf Hu.
  destruct (version_head y m f u Hy Hm) as (a & b & q & -> & Da & Db & Dq & Py & Pq).
  destruct (digit_toString u Hu) as (c & -> & Dc & Pc).
  destruct (toString_digits f Hf) as [Df Hne].
  unfold parseVersion, matchVersion.
  rewrite Da, Db, Dq, allDigits_app, Df. cbn [allDigits andb]. rewrite Dc.
  cbn [andb]. rewrite splitLast_app.
  destruct (toString f) as [|f0 fs] eqn:Ef; [contradiction|].
  rewrite <- Ef. fold (two a b). rewrite Py, Pq, Pc, (parseInt_toString f Hf).
  reflexivity.
Qed.

Lemma version_round_trip_witness :
  parseVersion (generateVersion (mkDate 2026 0) 12 1)
  = Some (mkParsedVersion (Some 26) (Some 1) (Some 12) (Some 1))
  /\ generateVersion (mkDate 2026 0) 12 1 = "c26Q1F121".
Proof.
  split; [|reflexivity].
  apply (version_round_trip 2026 0 12 1); lia.
Defined.

(** X4.  With an update index of two digits the version does not parse
    back: the greedy feature group takes the tens digit, so the feature id
    read is [10 * f + u / 10] and the update index read is [u mod 10]. *)
Theorem version_two_digit_index (y m f u : Z) :
  2000 <= y <= 2099 -> 0 <= m <= 11 -> 0 <= f -> 10 <= u <= 99 ->
  parseVersion (generateVersion (mkDate y m) f u)
  = Some {| v_year := Some (y - 2000); v_quarter := Some (m / 3 + 1);
            v_featureId := Some (10 * f + u / 10);
            v_updateIndex := Some (u mod 10) |}
  /\ 10 * f + u / 10 <> f /\ u mod 10 <> u.
Proof.
  intros Hy Hm Hf Hu.
  destruct (version_head y m f u Hy Hm) as (a & b & q & -> & Da & Db & Dq & Py & Pq).
  pose proof (twoDigitOk_all u Hu) as Eu. unfold twoDigitOk in Eu.
  destruct (toString u) as [|t [|l [|? ?]]]; try discriminate.
  apply andb_prop in Eu as [Eu Vl]; apply andb_prop in Eu as [Eu Vt];
    apply andb_prop in Eu as [Dt Dl].
  apply Z.eqb_eq in Vt, Vl.
  destruct (toString_digits f Hf) as [Df Hne].
  split.
  - unfold parseVersion, matchVersion.
    rewrite Da, Db, Dq, allDigits_app, Df. cbn [allDigits andb]. rewrite Dt, Dl.
    cbn [andb].
    change (toString f ++ String t (String l EmptyString))%string
      with (toString f ++ (String t EmptyString ++ String l EmptyString))%string.
    rewrite string_app_assoc, splitLast_app.
    destruct (toString f ++ String t EmptyString)%string as [|f0 fs] eqn:Ef.
    { destruct (toString f); discriminate. }
    rewrite <- Ef. fold (two a b). rewrite Py, Pq.
    assert (Hfront : parseInt (toString f ++ String t EmptyString)
                     = Some (10 * f + u / 10)).
    { rewrite parseInt_digits.
      - rewrite parseDigits_app by exact Df.
        rewrite (parseDigits_toString f Hf). cbn [parseDigits]. rewrite Dt.
        now rewrite Vt.
      - rewrite allDigits_app, Df. cbn [allDigits andb]. now rewrite Dt.
      - rewrite Ef. discriminate. }
    rewrite Hfront. cbn [parseInt]. rewrite Dl. cbn [parseDigits]. rewrite Dl.
    now rewrite Vl.
  - pose proof (Z.div_mod u 10). pose proof (Z.mod_pos_bound u 10). lia.
Qed.

Lemma version_two_digit_index_witness :
  v_featureId
    match parseVersion (generateVersion (mkDate 2026 0) 1 12) with
    | Some p => p
    | None => mkParsedVersion None None None None
    end = Some (10 * 1 + 12 / 10).
Proof.
  rewrite (proj1 (version_two_digit_index 2026 0 1 12
                    ltac:(lia) ltac:(lia) ltac:(lia) ltac:(lia))).
  reflexivity.
Defined.

End VersionSpec.

(* ================================================================= *)
(** ** The entry log: writing and importing *)

Module LogSpec.
Import JS JSText TokenTracker SessionManager TrackerWrite Samples MoreSamples.
Import ArrayFacts SweepFacts TotalsFacts.

Lemma max_entries_pos : (1 <= MAX_ENTRIES)%nat.
Proof. unfold MAX_ENTRIES. lia. Qed.

Lemma length_lastN {A} n (l : list A) :
  List.length (lastN n l) = Nat.min n (List.length l).
Proof. unfold lastN. rewrite length_skipn. lia. Qed.

Lemma saveHistory_push (log : list Entry) (e : Entry) :
  saveHistory (log ++ [e])
  = skipn (List.length log + 1 - MAX_ENTRIES) log ++ [e].
Proof.
  pose proof max_entries_pos as Hm.
  unfold saveHistory, lastN. rewrite length_app. simpl List.length.
  destruct (Nat.ltb_spec MAX_ENTRIES (List.length log + 1)) as [H|H].
  - rewrite skipn_app.
    replace (List.length log + 1 - MAX_ENTRIES - List.length log)%nat with O by lia.
    reflexivity.
  - replace (List.length log + 1 - MAX_ENTRIES)%nat with O by lia.
    reflexivity.
Qed.

(** X5. Logging a usage keeps the log a bounded queue: the stored log is the
    old log without its oldest [length + 1 - MAX_ENTRIES] entries, followed
    by the new entry, and it never holds more than [MAX_ENTRIES] entries,
    whatever the old log held.  The entry carries the pointer
    that was active, and neither the sessions nor the pointer are touched. *)
Theorem log_is_bounded_queue (usage : Usage) (now : Z) (rnd : string) (w : World) :
  let r := logTokenUsage usage now rnd w in
  history (snd r)
    = skipn (List.length (history w) + 1 - MAX_ENTRIES) (history w) ++ [fst r]
  /\ (List.length (history (snd r)) <= MAX_ENTRIES)%nat
  /\ TokenTracker.sessionId (metadata (fst r)) = activeId w
  /\ TokenTracker.entryId (metadata (fst r))
     = Some ("entry_" ++ toString now ++ "_" ++ rnd)%string
  /\ sessions (snd r) = sessions w
  /\ activeId (snd r) = activeId w
  /\ writes (snd r) = writes w.
Proof.
  cbv zeta. unfold logTokenUsage. cbn [fst snd history sessions activeId writes].
  rewrite saveHistory_push.
  repeat split.
  pose proof max_entries_pos.
  rewrite length_app, length_skipn. simpl List.length. lia.
Qed.



Lemma filter_nothing {A} (f : A -> bool) (l : list A) :
  (forall x, In x l -> f x = false) -> filter f l = [].
Proof.
  induction l as [|a l IH]; simpl; intros H; [reflexivity|].
  rewrite (H a (or_introl eq_refl)). apply IH. intros x Hx. apply H. now right.
Qed.

Lemma filter_everything {A} (f : A -> bool) (l : list A) :
  (forall x, In x l -> f x = true) -> filter f l = l.
Proof.
  induction l as [|a l IH]; simpl; intros H; [reflexivity|].
  rewrite (H a (or_introl eq_refl)). f_equal. apply IH. intros x Hx. apply H. now right.
Qed.

Lemma filter_split_length {A} (f : A -> bool) (l : list A) :
  (List.length (filter (fun x => negb (f x)) l) + List.length (filter f l)
   = List.length l)%nat.
Proof.
  induction l as [|a l IH]; simpl; [reflexivity|].
  destruct (f a); simpl; lia.
Qed.


Lemma findEntry_absent log i : ~ In i (entryIds log) -> findEntry log i = None.
Proof.
  intros H. unfold findEntry. apply find_all_false. intros e He.
  destruct (TokenTracker.entryId (metadata e)) as [x|] eqn:E; [|reflexivity].
  apply String.eqb_neq. intros ->. apply H.
  unfold entryIds. apply in_flat_map. exists e. split; [exact He|].
  rewrite E. now left.
Qed.

Lemma findEntry_push_new log e i :
  TokenTracker.entryId (metadata e) = Some i -> ~ In i (entryIds log) ->
  findEntry (log ++ [e]) i = Some e.
Proof.
  intros Ee H. unfold findEntry. apply find_app_last.
  - intros y Hy.
    destruct (TokenTracker.entryId (metadata y)) as [x|] eqn:E; [|reflexivity].
    apply String.eqb_neq. intros ->. apply H.
    unfold entryIds. apply in_flat_map. exists y. split; [exact Hy|].
    rewrite E. now left.
  - rewrite Ee. apply String.eqb_refl.
Qed.

Lemma findEntry_push_other log e i j :
  TokenTracker.entryId (metadata e) = Some i -> i <> j ->
  findEntry (log ++ [e]) j = findEntry log j.
Proof.
  intros Ee Hne. unfold findEntry. induction log as [|y l IH]; simpl.
  - rewrite Ee. apply String.eqb_neq in Hne. now rewrite Hne.
  - destruct (match TokenTracker.entryId (metadata y) with
              | Some x => (x =? j)%string | None => false end);
      [reflexivity | exact IH].
Qed.

Lemma lookups_push_other log e i ids :
  TokenTracker.entryId (metadata e) = Some i -> ~ In i ids ->
  flat_map (fun j => match findEntry (log ++ [e]) j with
                     | Some x => [x] | None => [] end) ids
  = flat_map (fun j => match findEntry log j with
                       | Some x => [x] | None => [] end) ids.
Proof.
  intros Ee H. induction ids as [|j ids IH]; simpl; [reflexivity|].
  rewrite (findEntry_push_other log e i j Ee), IH; [reflexivity| |].
  - intros Hin. apply H. now right.
  - intros ->. apply H. now left.
Qed.

(** A reference to a freshly logged entry raises the sum over the
    referenced entries by that entry's tokens. *)
Lemma sessionTokens_push log e i s ids :
  TokenTracker.entryId (metadata e) = Some i ->
  ~ In i (entryIds log) -> ~ In i ids ->
  sessionTokens (log ++ [e]) (setTokenEntries (Some (ids ++ [i])) s)
  = sessionTokens log (setTokenEntries (Some ids) s) + tokensUsed e.
Proof.
  intros Ee Hlog Hids. unfold sessionTokens. cbn [tokenEntries setTokenEntries].
  rewrite flat_map_app. cbn [flat_map]. rewrite app_nil_r.
  rewrite (findEntry_push_new log e i Ee Hlog).
  rewrite (lookups_push_other log e i ids Ee Hids).
  rewrite fold_left_app. cbn [fold_left]. reflexivity.
Qed.

Lemma sessionTokens_same_refs log s ids :
  tokenEntries s = ids ->
  sessionTokens log (setTokenEntries ids s) = sessionTokens log s.
Proof. intros <-. reflexivity. Qed.

(** X6. A usage logged while an open session is active counts for that
    session: when the log is not full, the new entry id is fresh and the
    deferred callback runs before the session times out, the session's
    slot refers to the new entry after its old references, the sum that
    closing the session would compute from the log has grown by the tokens
    logged, and every other slot is as before. *)
Theorem logged_usage_counts_for_session (usage : Usage) (now : Z) (rnd : string)
    (later : Z) (w : World) (a : string) (i : nat) (s : Session) :
  activeId w = Some a -> truthy a = true ->
  findIndex (fun x => (id x =? a)%string) (sessions w) = Some i ->
  nth_error (sessions w) i = Some s ->
  isEnded s = false ->
  (List.length (history w) < MAX_ENTRIES)%nat ->
  let eid := ("entry_" ++ toString now ++ "_" ++ rnd)%string in
  let old := match tokenEntries s with Some l => l | None => [] end in
  ~ In eid (entryIds (history w)) ->
  ~ In eid old ->
  let r := logTokenUsage usage now rnd w in
  fst (checkAndEndTimedOutSessions later SESSION_TIMEOUT_MS (snd r)) = [] ->
  let w2 := logTokenUsageDeferred (fst r) later (snd r) in
  history w2 = history w ++ [fst r]
  /\ (exists s2,
        nth_error (sessions w2) i = Some s2
        /\ s2 = setTokenEntries (Some (old ++ [eid])) s
        /\ sessionTokens (history w2) s2
           = sessionTokens (history w) s + num_or_zero (u_tokensUsed usage))
  /\ (forall j, j <> i -> nth_error (sessions w2) j = nth_error (sessions w) j)
  /\ activeId w2 = Some a.
Proof.
  intros Ha Ht Hi Hs Hopen Hlen eid old Hfresh Hnew r Hidle w2.
  assert (Er : snd r = mkWorld (sessions w) (activeId w)
                         (history w ++ [fst r]) (writes w)).
  { unfold r, logTokenUsage. cbn [fst snd]. rewrite saveHistory_push.
    replace (List.length (history w) + 1 - MAX_ENTRIES)%nat with O by lia.
    reflexivity. }
  assert (Ee : TokenTracker.entryId (metadata (fst r)) = Some eid) by reflexivity.
  assert (Es : TokenTracker.sessionId (metadata (fst r)) = Some a)
    by (unfold r, logTokenUsage; cbn; exact Ha).
  assert (Et : tokensUsed (fst r) = num_or_zero (u_tokensUsed usage)) by reflexivity.
  assert (Ew : w2 = saveSessions
                      (setAt i (setTokenEntries (Some (old ++ [eid])) s) (sessions w))
                      (snd r)).
  { unfold w2, logTokenUsageDeferred. rewrite Es, Ee, Ht.
    unfold addTokenEntryToSession.
    rewrite (sweep_idle _ _ _ Hidle). unfold loadSessions.
    rewrite Er. cbn [sessions]. rewrite Hi, Hs, Hopen.
    fold old.
    destruct (includes eid old) eqn:Einc.
    - apply includes_In in Einc. contradiction.
    - reflexivity. }
  rewrite Ew. cbn [saveSessions history sessions activeId]. rewrite Er.
  cbn [history sessions activeId].
  split; [reflexivity|]. split; [|split].
  - eexists. split; [apply (nth_setAt_same _ _ _ s Hs)|]. split; [reflexivity|].
    rewrite (sessionTokens_push _ _ eid s old Ee Hfresh Hnew), Et.
    f_equal. unfold sessionTokens. cbn [tokenEntries setTokenEntries].
    unfold old. destruct (tokenEntries s); reflexivity.
  - intros j Hj. apply nth_setAt_other. congruence.
  - exact Ha.
Qed.

Lemma logged_usage_counts_for_session_witness :
  let r := logTokenUsage usage9 400 "abc" sampleWorld in
  let w2 := logTokenUsageDeferred (fst r) 500 (snd r) in
  history w2 = history sampleWorld ++ [fst r]
  /\ (exists s2,
        nth_error (sessions w2) 1 = Some s2
        /\ tokenEntries s2 = Some ["e1"; "entry_400_abc"]
        /\ sessionTokens (history w2) s2 = 7 + 9).
Proof.
  assert (Hlen : (List.length (history sampleWorld) < MAX_ENTRIES)%nat)
    by (unfold MAX_ENTRIES; simpl; lia).
  assert (Hfresh : ~ In ("entry_" ++ toString 400 ++ "_" ++ "abc")%string
                        (entryIds (history sampleWorld)))
    by (vm_compute; intros [H|[]]; discriminate).
  assert (Hnew : ~ In ("entry_" ++ toString 400 ++ "_" ++ "abc")%string
                      (match tokenEntries openDoc2 with Some l => l | None => [] end))
    by (vm_compute; intros [H|[]]; discriminate).
  destruct (logged_usage_counts_for_session usage9 400 "abc" 500 sampleWorld
              "s2" 1%nat openDoc2 eq_refl eq_refl eq_refl eq_refl eq_refl
              Hlen Hfresh Hnew eq_refl)
    as (H1 & (s2 & Hs2 & Es2 & Hsum) & _).
  split; [exact H1|].
  exists s2. split; [exact Hs2|]. split; [rewrite Es2; reflexivity | exact Hsum].
Defined.

End LogSpec.

(* ================================================================= *)
(** ** The store invariant: one open session, the one the pointer names *)

Module StoreInvariant.
Import JS SessionManager Samples SessionQueries MoreSamples.
Import ArrayFacts SweepFacts PointerSpec StartSpec.

Lemma wellFormed_parts w :
  wellFormed w ->
  NoDup (map id (sessions w))
  /\ (forall s, In s (sessions w) -> truthy (id s) = true)
  /\ (forall s, In s (sessions w) -> isEnded s = false -> activeId w = Some (id s)).
Proof. intros H. exact H. Qed.

Lemma open_not_swept now t log s :
  isEnded (sweepSession now t log s) = false ->
  sweepSession now t log s = s /\ timedOut now t log s = false.
Proof.
  unfold sweepSession. destruct (timedOut now t log s) eqn:E.
  - rewrite isEnded_autoEnd. discriminate.
  - auto.
Qed.

(** The sweep keeps the store well formed. *)
Lemma wellFormed_sweep (now t : Z) (w : World) :
  wellFormed w ->
  wellFormed (snd (checkAndEndTimedOutSessions now t w)).
Proof.
  intros (Hnd & Hid & Hopen). unfold wellFormed.
  rewrite sessions_sweep, activeId_sweep, ids_swept.
  split; [exact Hnd|]. split.
  - intros s' Hin. apply in_map_iff in Hin as (s & <- & Hs).
    rewrite id_sweepSession. now apply Hid.
  - intros s' Hin He. apply in_map_iff in Hin as (s & <- & Hs).
    destruct (open_not_swept _ _ _ _ He) as [Es Ht].
    rewrite Es in *. rewrite (Hopen s Hs He).
    unfold sweptPointer. rewrite existsb_all_false; [reflexivity|].
    intros x Hx. destruct (pointsTo (Some (id s)) x) eqn:Ep;
      [|apply andb_false_r].
    apply pointsTo_eq in Ep.
    rewrite (same_id_same_session (sessions w) x s Hnd Hx Hs Ep), Ht.
    reflexivity.
Qed.

Lemma map_setAt_same_key {A B} (f : A -> B) (l : list A) i v x :
  nth_error l i = Some x -> f v = f x -> map f (setAt i v l) = map f l.
Proof.
  revert i. induction l as [|y l IH]; intros [|i]; simpl; try discriminate.
  - intros [= ->] ->. reflexivity.
  - intros H E. now rewrite (IH i H E).
Qed.

Lemma in_setAt {A} (l : list A) i (v x : A) :
  In x (setAt i v l) ->
  x = v \/ exists j, j <> i /\ nth_error l j = Some x.
Proof.
  revert i. induction l as [|y l IH]; intros [|i]; simpl; try contradiction.
  - intros [<-|H]; [now left|]. right.
    apply In_nth_error in H as [j Hj]. exists (S j). split; [lia | exact Hj].
  - intros [<-|H].
    + right. exists O. split; [lia | reflexivity].
    + destruct (IH i H) as [->|(j & Hj & Ej)]; [now left|].
      right. exists (S j). split; [lia | exact Ej].
Qed.

Lemma unique_slot (ss : list Session) i j x y :
  NoDup (map id ss) ->
  nth_error ss i = Some x -> nth_error ss j = Some y -> id x = id y -> i = j.
Proof.
  intros Hnd Hi Hj E.
  apply (proj1 (NoDup_nth_error (map id ss)) Hnd).
  - rewrite length_map. apply nth_error_Some. congruence.
  - rewrite !nth_error_map, Hi, Hj. simpl. now rewrite E.
Qed.

Lemma truthy_opt_Some a : truthy_opt (Some a) = truthy a.
Proof. reflexivity. Qed.

(** In a well-formed store an open session makes the pointer non-empty. *)
Lemma open_needs_pointer w s :
  wellFormed w -> In s (sessions w) -> isEnded s = false ->
  activeId w = Some (id s) /\ truthy_opt (activeId w) = true.
Proof.
  intros (_ & Hid & Hopen) Hs He.
  rewrite (Hopen s Hs He), truthy_opt_Some. split; [reflexivity | now apply Hid].
Qed.

Lemma wellFormed_allEnded (ss : list Session) (w' : World) :
  NoDup (map id ss) -> (forall s, In s ss -> truthy (id s) = true) ->
  sessions w' = ss -> (forall s, In s ss -> isEnded s = true) ->
  wellFormed w'.
Proof.
  intros Hnd Hid Es Hall. unfold wellFormed. rewrite Es.
  split; [exact Hnd|]. split; [exact Hid|].
  intros s Hs He. rewrite (Hall s Hs) in He. discriminate.
Qed.

(** Replacing a stored session by one with the same id that is open only
    if the old one was keeps the store well formed. *)
Lemma wellFormed_setAt w w' i s v :
  wellFormed w -> nth_error (sessions w) i = Some s ->
  sessions w' = setAt i v (sessions w) -> activeId w' = activeId w ->
  id v = id s -> (isEnded v = false -> isEnded s = false) ->
  wellFormed w'.
Proof.
  intros (Hnd & Hid & Hopen) Hs Es Ea Ev Hv. unfold wellFormed.
  rewrite Es, Ea, (map_setAt_same_key id _ _ _ _ Hs Ev).
  split; [exact Hnd|]. split.
  - intros x Hx. destruct (in_setAt _ _ _ _ Hx) as [->|(j & _ & Hj)].
    + rewrite Ev. apply Hid. eapply nth_error_In. exact Hs.
    + apply Hid. eapply nth_error_In. exact Hj.
  - intros x Hx He. destruct (in_setAt _ _ _ _ Hx) as [->|(j & _ & Hj)].
    + rewrite Ev. apply Hopen; [eapply nth_error_In; exact Hs | now apply Hv].
    + apply Hopen; [eapply nth_error_In; exact Hj | exact He].
Qed.

(** What [startSession] does on a well-formed swept store: it returns the
    open session the pointer names, or every session is ended and it
    creates one. *)
Lemma startSession_on_wellFormed options now rnd w :
  let w1 := snd (checkAndEndTimedOutSessions now SESSION_TIMEOUT_MS w) in
  wellFormed w1 ->
  (exists active,
      In active (sessions w1) /\ isEnded active = false
      /\ activeId w1 = Some (id active)
      /\ startSession options now rnd w = (newSession active, w1))
  \/ (allEnded w1
      /\ startSession options now rnd w
         = (sessionOfOptions options now rnd, afterCreate options now rnd w)).
Proof.
  intros w1 Hwf. unfold startSession, afterCreate, getActiveSessionId, loadSessions.
  fold w1.
  destruct (truthy_opt (activeId w1)) eqn:Ht.
  - destruct (find _ (sessions w1)) as [active|] eqn:E.
    + apply find_some in E as [Hin Hp].
      destruct (isEnded active) eqn:Ee; cbn [negb].
      * right. split; [|reflexivity].
        intros s Hs. destruct (isEnded s) eqn:Es; [reflexivity|]. exfalso.
        destruct (open_needs_pointer w1 s Hwf Hs Es) as [Ea _].
        rewrite Ea in Hp. apply pointsTo_eq in Hp.
        destruct Hwf as (Hnd & _).
        rewrite (same_id_same_session _ _ _ Hnd Hin Hs Hp) in Ee. congruence.
      * left. exists active. repeat split; try assumption.
        destruct (activeId w1) as [a|]; [|discriminate].
        apply pointsTo_eq in Hp. now rewrite Hp.
    + right. split; [|reflexivity].
      intros s Hs. destruct (isEnded s) eqn:Es; [reflexivity|]. exfalso.
      destruct (open_needs_pointer w1 s Hwf Hs Es) as [Ea _].
      pose proof (find_none _ _ E s Hs) as Hp. cbv beta in Hp.
      rewrite Ea in Hp. unfold pointsTo in Hp. rewrite String.eqb_refl in Hp.
      discriminate.
  - right. split; [|reflexivity].
    intros s Hs. destruct (isEnded s) eqn:Es; [reflexivity|]. exfalso.
    destruct (open_needs_pointer w1 s Hwf Hs Es) as [_ Ea]. congruence.
Qed.

Lemma wellFormed_afterCreate options now rnd w :
  wellFormed w ->
  ~ In (generateSessionId now rnd) (map id (sessions w)) ->
  allEnded (snd (checkAndEndTimedOutSessions now SESSION_TIMEOUT_MS w)) ->
  wellFormed (afterCreate options now rnd w).
Proof.
  intros Hwf Hfresh Hall.
  pose proof (wellFormed_sweep now SESSION_TIMEOUT_MS w Hwf)
    as (Hnd & Hid & _).
  unfold afterCreate.
  set (w1 := snd (checkAndEndTimedOutSessions now SESSION_TIMEOUT_MS w)) in *.
  assert (Eids : map id (sessions w1) = map id (sessions w))
    by (unfold w1; rewrite sessions_sweep; apply ids_swept).
  unfold wellFormed, setActiveSessionId, saveSessions.
  cbn [sessions activeId truthy_opt]. rewrite truthy_generated.
  split; [|split].
  - rewrite map_app. apply NoDup_app; [exact Hnd | |].
    + simpl. constructor; [intros []|constructor].
    + intros a Ha [<-|[]]. apply Hfresh. now rewrite <- Eids.
  - intros s Hs. apply in_app_or in Hs as [Hs|[<-|[]]];
      [now apply Hid | reflexivity].
  - intros s Hs He. apply in_app_or in Hs as [Hs|[<-|[]]]; [|reflexivity].
    rewrite (Hall s Hs) in He. discriminate.
Qed.

(** X9. [startSession] keeps the store well formed when the id it would
    generate is not taken; the session it returns is open, is stored (up to
    the defaults of the constructor), and is the one the pointer names, so
    it is the only open session of the store. *)
Theorem startSession_keeps_wellFormed (options : StartOptions) (now : Z)
    (rnd : string) (w : World) :
  wellFormed w ->
  ~ In (generateSessionId now rnd) (map id (sessions w)) ->
  let r := startSession options now rnd w in
  wellFormed (snd r)
  /\ isEnded (fst r) = false
  /\ activeId (snd r) = Some (id (fst r))
  /\ (exists s, In s (sessions (snd r)) /\ fst r = newSession s)
  /\ (forall x, In x (sessions (snd r)) -> isEnded x = false ->
        id x = id (fst r)).
Proof.
  intros Hwf Hfresh r.
  pose proof (wellFormed_sweep now SESSION_TIMEOUT_MS w Hwf) as Hwf1.
  assert (H : wellFormed (snd r) /\ isEnded (fst r) = false
              /\ activeId (snd r) = Some (id (fst r))
              /\ (exists s, In s (sessions (snd r)) /\ fst r = newSession s)).
  { destruct (startSession_on_wellFormed options now rnd w Hwf1)
      as [(active & Hin & He & Ha & E) | (Hall & E)];
      unfold r; rewrite E; cbn [fst snd].
    - split; [exact Hwf1|]. split; [exact He|]. split; [exact Ha|].
      exists active. now split.
    - split; [now apply wellFormed_afterCreate|]. split; [reflexivity|].
      split; [reflexivity|].
      exists (sessionOfOptions options now rnd). split.
      + unfold afterCreate, setActiveSessionId, saveSessions. cbn [sessions].
        apply in_or_app. right. now left.
      + symmetry. apply newSession_created. }
  destruct H as (H1 & H2 & H3 & H4).
  split; [exact H1|]. split; [exact H2|]. split; [exact H3|]. split; [exact H4|].
  intros x Hx He. destruct H1 as (_ & _ & Hopen).
  pose proof (Hopen x Hx He) as E. rewrite H3 in E. congruence.
Qed.

Lemma startSession_keeps_wellFormed_witness :
  let r := startSession optsA 1000 "aaaaaaaaa" danglingWorld in
  wellFormed (snd r) /\ activeId (snd r) = Some (id (fst r)).
Proof.
  assert (Hwf : wellFormed danglingWorld).
  { split; [|split].
    - simpl. constructor; [intros []|constructor].
    - intros s [<-|[]]. reflexivity.
    - intros s [<-|[]] H. discriminate. }
  assert (Hfresh : ~ In (generateSessionId 1000 "aaaaaaaaa")
                        (map id (sessions danglingWorld)))
    by (vm_compute; intros [H|[]]; discriminate).
  destruct (startSession_keeps_wellFormed optsA 1000 "aaaaaaaaa" danglingWorld
              Hwf Hfresh) as (H1 & _ & H3 & _).
  split; [exact H1 | exact H3].
Defined.

Lemma no_pointer_all_ended w :
  wellFormed w -> truthy_opt (activeId w) = false -> allEnded w.
Proof.
  intros Hwf Ht s Hs. destruct (isEnded s) eqn:Es; [reflexivity|].
  destruct (open_needs_pointer w s Hwf Hs Es) as [_ Ea]. congruence.
Qed.

Lemma endSession_on_wellFormed (o_desc : option string) (now : Z) (w : World) :
  wellFormed w ->
  let r := endSession o_desc now w in
  wellFormed (snd r)
  /\ allEnded (snd r)
  /\ activeId (snd r) = (if truthy_opt (activeId w) then None else activeId w)
  /\ map id (sessions (snd r)) = map id (sessions w).
Proof.
  intros Hwf r. pose proof Hwf as (Hnd & Hid & Hopen).
  unfold r, endSession, getActiveSessionId, loadSessions.
  destruct (truthy_opt (activeId w)) eqn:Ht; cbn [negb].
  2:{ cbn [snd]. split; [exact Hwf|]. split; [|split; reflexivity].
      now apply no_pointer_all_ended. }
  destruct (activeId w) as [a|] eqn:Ea; [|discriminate].
  assert (Hstale_case :
    (forall s, In s (sessions w) -> id s = a -> isEnded s = true) ->
    wellFormed (setActiveSessionId None w)
    /\ allEnded (setActiveSessionId None w)
    /\ activeId (setActiveSessionId None w) = None
    /\ map id (sessions (setActiveSessionId None w)) = map id (sessions w)).
  { intros Hst.
    assert (Hall : forall s, In s (sessions w) -> isEnded s = true).
    { intros s Hs. destruct (isEnded s) eqn:Es; [reflexivity|].
      pose proof (Hopen s Hs Es) as E. injection E as E.
      rewrite (Hst s Hs (eq_sym E)) in Es. discriminate. }
    split; [|split; [exact Hall | split; reflexivity]].
    now apply (wellFormed_allEnded (sessions w)). }
  change (findIndex (fun s => pointsTo (Some a) s) (sessions w))
    with (findIndex (pointsTo (Some a)) (sessions w)).
  destruct (findIndex (pointsTo (Some a)) (sessions w)) as [i|] eqn:Ei.
  2:{ cbn [snd]. apply Hstale_case. intros s Hs E.
      pose proof (findIndex_none _ _ Ei s Hs) as Hp.
      apply pointsTo_eq in E. congruence. }
  destruct (findIndex_nth _ _ _ Ei) as (session & Hs & Hp).
  apply pointsTo_eq in Hp. rewrite Hs.
  pose proof (nth_error_In _ _ Hs) as Hin.
  destruct (isEnded session) eqn:Ee.
  { cbn [snd]. apply Hstale_case. intros s Hs' E.
    rewrite (same_id_same_session _ s session Hnd Hs' Hin); [exact Ee | congruence]. }
  cbn [snd].
  set (closed := setEndTime (Some now) (finalizeTokens (history w) _)).
  assert (Eid : id closed = id session).
  { unfold closed. cbn [setEndTime id]. rewrite id_finalizeTokens.
    destruct o_desc as [d|]; [destruct (truthy d)|]; reflexivity. }
  assert (Eend : isEnded closed = true) by reflexivity.
  assert (Eids : map id (setAt i closed (sessions w)) = map id (sessions w))
    by (apply (map_setAt_same_key id _ _ _ _ Hs Eid)).
  assert (Hall : forall s, In s (setAt i closed (sessions w)) -> isEnded s = true).
  { intros s Hs'. destruct (in_setAt _ _ _ _ Hs') as [->|(j & Hj & Ej)];
      [exact Eend|].
    destruct (isEnded s) eqn:Es; [reflexivity|]. exfalso. apply Hj.
    pose proof (Hopen s (nth_error_In _ _ Ej) Es) as E. injection E as E.
    apply (unique_slot (sessions w) j i s session Hnd Ej Hs). congruence. }
  unfold setActiveSessionId, saveSessions. cbn [sessions activeId truthy_opt].
  split; [|split; [exact Hall | split; [reflexivity | exact Eids]]].
  apply (wellFormed_allEnded (setAt i closed (sessions w)));
    [now rewrite Eids | | reflexivity | exact Hall].
  intros s Hs'. destruct (in_setAt _ _ _ _ Hs') as [->|(j & _ & Ej)].
  - rewrite Eid. now apply Hid.
  - apply Hid. eapply nth_error_In. exact Ej.
Qed.

Lemma sampleWorld_wellFormed : wellFormed sampleWorld.
Proof.
  split; [|split].
  - simpl. constructor; [intros [H|[]]; discriminate|].
    constructor; [intros []|constructor].
  - intros s [<-|[<-|[]]]; reflexivity.
  - intros s [<-|[<-|[]]] H; [discriminate | reflexivity].
Defined.

(** X10. [endSession] leaves a well-formed store well formed and without
    any open session: the pointed session is the only one that could be
    open, and it is closed.  A non-empty pointer is removed; the ids of the
    stored sessions do not change; and ending again returns null and
    leaves the store as it is. *)
Theorem endSession_closes_all (o_desc o_desc2 : option string) (now now2 : Z)
    (w : World) :
  wellFormed w ->
  let r := endSession o_desc now w in
  wellFormed (snd r)
  /\ allEnded (snd r)
  /\ activeId (snd r) = (if truthy_opt (activeId w) then None else activeId w)
  /\ map id (sessions (snd r)) = map id (sessions w)
  /\ endSession o_desc2 now2 (snd r) = (None, snd r).
Proof.
  intros Hwf r.
  destruct (endSession_on_wellFormed o_desc now w Hwf) as (H1 & H2 & H3 & H4).
  fold r in H1, H2, H3, H4.
  split; [exact H1|]. split; [exact H2|]. split; [exact H3|]. split; [exact H4|].
  unfold endSession at 1. unfold getActiveSessionId. rewrite H3.
  destruct (truthy_opt (activeId w)) eqn:Ht; cbn [truthy_opt negb].
  - reflexivity.
  - rewrite Ht. reflexivity.
Qed.

Lemma endSession_closes_all_witness :
  allEnded (snd (endSession None 400 sampleWorld))
  /\ activeId (snd (endSession None 400 sampleWorld)) = None.
Proof.
  destruct (endSession_closes_all None None 400 500 sampleWorld
              sampleWorld_wellFormed) as (_ & H2 & H3 & _).
  split; [exact H2 | exact H3].
Defined.

Lemma tokenEntries_finalizeTokens log s :
  tokenEntries (finalizeTokens log s) = tokenEntries s.
Proof. finalize_cases; reflexivity. Qed.

Lemma tokenEntries_sweepSession now t log s :
  tokenEntries (sweepSession now t log s) = tokenEntries s.
Proof.
  unfold sweepSession. destruct (timedOut now t log s); [|reflexivity].
  unfold autoEnd. cbn [setDescription setEndTime tokenEntries].
  apply tokenEntries_finalizeTokens.
Qed.

Lemma refsDistinct_sweep now t w :
  refsDistinct w -> refsDistinct (snd (checkAndEndTimedOutSessions now t w)).
Proof.
  intros H s' ids Hin E. rewrite sessions_sweep in Hin.
  apply in_map_iff in Hin as (s & <- & Hs).
  rewrite tokenEntries_sweepSession in E. exact (H s ids Hs E).
Qed.

(** X8. The timeout sweep keeps the store well formed: the ids stay as
    they are, distinct and non-empty, a session that is still open
    afterwards is the one the pointer names, and no reference list changes. *)
Theorem sweep_keeps_wellFormed (now t : Z) (w : World) :
  wellFormed w -> refsDistinct w ->
  let w1 := snd (checkAndEndTimedOutSessions now t w) in
  wellFormed w1 /\ refsDistinct w1
  /\ map id (sessions w1) = map id (sessions w)
  /\ map tokenEntries (sessions w1) = map tokenEntries (sessions w).
Proof.
  intros Hwf Hrd w1.
  split; [now apply wellFormed_sweep|]. split; [now apply refsDistinct_sweep|].
  unfold w1. rewrite sessions_sweep. split; [apply ids_swept|].
  rewrite map_map. apply map_ext. intros s. apply tokenEntries_sweepSession.
Qed.

Lemma idleWorld_wellFormed : wellFormed idleWorld.
Proof.
  split; [|split].
  - simpl. constructor; [intros []|constructor].
  - intros s [<-|[]]. reflexivity.
  - intros s [<-|[]] _. reflexivity.
Defined.

Lemma sweep_keeps_wellFormed_witness :
  wellFormed (snd (checkAndEndTimedOutSessions 10800010 SESSION_TIMEOUT_MS idleWorld)).
Proof.
  assert (Hrd : refsDistinct idleWorld)
    by (intros s ids [<-|[]] [= <-]; constructor).
  exact (proj1 (sweep_keeps_wellFormed 10800010 SESSION_TIMEOUT_MS idleWorld
                  idleWorld_wellFormed Hrd)).
Defined.

Lemma refsDistinct_setAt w w' i v :
  refsDistinct w -> sessions w' = setAt i v (sessions w) ->
  (forall ids, tokenEntries v = Some ids -> NoDup ids) ->
  refsDistinct w'.
Proof.
  intros H Es Hv x ids Hx E. rewrite Es in Hx.
  destruct (in_setAt _ _ _ _ Hx) as [->|(j & _ & Hj)].
  - now apply Hv.
  - exact (H x ids (nth_error_In _ _ Hj) E).
Qed.

Lemma NoDup_push (l : list string) x :
  NoDup l -> includes x l = false -> NoDup (l ++ [x]).
Proof.
  intros Hl Hx. apply NoDup_app; [exact Hl | constructor; [intros []|constructor] |].
  intros a Ha [<-|[]]. apply includes_In in Ha. congruence.
Qed.

(** X11. Adding a token reference or an activity keeps the store well
    formed, and no session ever refers to the same entry twice: the
    reference list is used as a set. *)
Theorem add_keeps_wellFormed (sid eid : string) (act : ActivityInput)
    (now : Z) (w : World) :
  wellFormed w -> refsDistinct w ->
  (wellFormed (snd (addTokenEntryToSession sid eid now w))
   /\ refsDistinct (snd (addTokenEntryToSession sid eid now w)))
  /\ (wellFormed (snd (addActivityToSession sid act now w))
      /\ refsDistinct (snd (addActivityToSession sid act now w))).
Proof.
  intros Hwf Hrd.
  pose proof (wellFormed_sweep now SESSION_TIMEOUT_MS w Hwf) as Hwf1.
  pose proof (refsDistinct_sweep now SESSION_TIMEOUT_MS w Hrd) as Hrd1.
  split.
  - unfold addTokenEntryToSession, loadSessions.
    set (w1 := snd (checkAndEndTimedOutSessions now SESSION_TIMEOUT_MS w)) in *.
    destruct (findIndex _ (sessions w1)) as [i|]; [|now split].
    destruct (nth_error (sessions w1) i) as [session|] eqn:Es; [|now split].
    destruct (isEnded session) eqn:Ee; [now split|].
    destruct (includes eid _) eqn:Ei; cbn [negb snd]; [now split|].
    split.
    + eapply (wellFormed_setAt w1 _ i session _ Hwf1 Es);
        [reflexivity | reflexivity | reflexivity | intros _; exact Ee].
    + eapply (refsDistinct_setAt w1 _ i _ Hrd1); [reflexivity|].
      cbn [setTokenEntries tokenEntries]. intros ids [= <-].
      apply NoDup_push; [|exact Ei].
      destruct (tokenEntries session) as [l|] eqn:El; [|constructor].
      exact (Hrd1 session l (nth_error_In _ _ Es) El).
  - unfold addActivityToSession, loadSessions.
    set (w1 := snd (checkAndEndTimedOutSessions now SESSION_TIMEOUT_MS w)) in *.
    destruct (findIndex _ (sessions w1)) as [i|]; [|now split].
    destruct (nth_error (sessions w1) i) as [session|] eqn:Es; [|now split].
    destruct (isEnded session) eqn:Ee; [now split|]. cbn [snd].
    split.
    + eapply (wellFormed_setAt w1 _ i session _ Hwf1 Es);
        [reflexivity | reflexivity | reflexivity | intros _; exact Ee].
    + eapply (refsDistinct_setAt w1 _ i _ Hrd1); [reflexivity|].
      cbn [setActivities tokenEntries]. intros ids El.
      exact (Hrd1 session ids (nth_error_In _ _ Es) El).
Qed.

Lemma sampleWorld_refsDistinct : refsDistinct sampleWorld.
Proof.
  intros s ids [<-|[<-|[]]] [= <-].
  - constructor.
  - constructor; [intros []|constructor].
Defined.

Lemma add_keeps_wellFormed_witness :
  wellFormed (snd (addTokenEntryToSession "s2" "e2" 400 sampleWorld))
  /\ refsDistinct (snd (addTokenEntryToSession "s2" "e2" 400 sampleWorld)).
Proof.
  exact (proj1 (add_keeps_wellFormed "s2" "e2" (mkActivityInput "test" None) 400
                  sampleWorld sampleWorld_wellFormed sampleWorld_refsDistinct)).
Defined.

(** What a successful [addTokenEntryToSession] leaves: the first session
    with the id is open and refers to the entry. *)
Lemma addTokenEntry_success sid eid now w :
  fst (addTokenEntryToSession sid eid now w) = true ->
  exists i s ids,
    findIndex (fun x => (id x =? sid)%string)
      (sessions (snd (addTokenEntryToSession sid eid now w))) = Some i
    /\ nth_error (sessions (snd (addTokenEntryToSession sid eid now w))) i = Some s
    /\ isEnded s = false
    /\ tokenEntries s = Some ids /\ includes eid ids = true.
Proof.
  unfold addTokenEntryToSession, loadSessions.
  set (w1 := snd (checkAndEndTimedOutSessions now SESSION_TIMEOUT_MS w)).
  destruct (findIndex _ (sessions w1)) as [i|] eqn:Ei; [|discriminate].
  destruct (nth_error (sessions w1) i) as [session|] eqn:Es; [|discriminate].
  destruct (isEnded session) eqn:Ee; [discriminate|].
  destruct (includes eid _) eqn:Einc; cbn [negb fst snd]; intros _.
  - destruct (tokenEntries session) as [l|] eqn:El; [|discriminate].
    exists i, session, l. auto.
  - cbn [saveSessions sessions].
    destruct (findIndex_nth _ _ _ Ei) as (x & Hx & Hp).
    exists i, (setTokenEntries
                 (Some (match tokenEntries session with
                        | Some l => l | None => [] end ++ [eid])) session),
      (match tokenEntries session with Some l => l | None => [] end ++ [eid]).
    split; [|split; [|split; [|split]]].
    + apply SyncSpec.findIndex_setAt; [exact Ei|].
      cbn [setTokenEntries id]. congruence.
    + now apply (nth_setAt_same _ _ _ session).
    + exact Ee.
    + reflexivity.
    + apply includes_In, in_or_app. right. now left.
Qed.

(** X12. Adding the same reference again changes nothing: after a
    successful [addTokenEntryToSession], the same call at a later instant at
    which no session times out returns true and writes nothing. *)
Theorem addTokenEntry_again (sid eid : string) (now later : Z) (w : World) :
  fst (addTokenEntryToSession sid eid now w) = true ->
  let w1 := snd (addTokenEntryToSession sid eid now w) in
  fst (checkAndEndTimedOutSessions later SESSION_TIMEOUT_MS w1) = [] ->
  addTokenEntryToSession sid eid later w1 = (true, w1).
Proof.
  intros Hok w1 Hidle.
  destruct (addTokenEntry_success sid eid now w Hok)
    as (i & s & ids & Hi & Hs & He & Hids & Hinc).
  fold w1 in Hi, Hs.
  unfold addTokenEntryToSession at 1. rewrite (sweep_idle _ _ _ Hidle).
  unfold loadSessions. rewrite Hi, Hs, He, Hids, Hinc. reflexivity.
Qed.

Lemma addTokenEntry_again_witness :
  addTokenEntryToSession "s2" "e2" 500
    (snd (addTokenEntryToSession "s2" "e2" 400 sampleWorld))
  = (true, snd (addTokenEntryToSession "s2" "e2" 400 sampleWorld)).
Proof.
  exact (addTokenEntry_again "s2" "e2" 400 500 sampleWorld eq_refl eq_refl).
Defined.

Lemma maxList_ge x l y : In y (x :: l) -> y <= maxList x l.
Proof.
  revert x. induction l as [|a l IH]; intros x.
  - intros [E|[]]. unfold maxList. simpl. lia.
  - rewrite SweepSpec.maxList_cons. intros [E|[E|H]].
    + lia.
    + pose proof (IH a (or_introl E)). lia.
    + pose proof (IH a (or_intror H)). lia.
Qed.

Lemma lastActivity_after_activity log s acts t :
  activities s = Some acts -> In t (map a_timestamp acts) ->
  t <= getLastActivityTime log s.
Proof.
  intros Ea Ht. rewrite SweepSpec.getLastActivityTime_ref.
  unfold lastActivityRef, activityTimes. rewrite Ea.
  apply maxList_ge. right. apply in_or_app. now left.
Qed.

(** X13. An activity keeps its session alive: after a successful
    [addActivityToSession] at [now], the session found under the id is open,
    does not count as timed out at any instant less than the timeout after
    [now], and a sweep at such an instant leaves its slot as it is. *)
Theorem activity_keeps_session_alive (sid : string) (act : ActivityInput)
    (now later : Z) (w : World) :
  fst (addActivityToSession sid act now w) = true ->
  later - now < SESSION_TIMEOUT_MS ->
  let w1 := snd (addActivityToSession sid act now w) in
  exists i s,
    findIndex (fun x => (id x =? sid)%string) (sessions w1) = Some i
    /\ nth_error (sessions w1) i = Some s
    /\ isEnded s = false
    /\ timedOut later SESSION_TIMEOUT_MS (history w1) s = false
    /\ nth_error
         (sessions (snd (checkAndEndTimedOutSessions later SESSION_TIMEOUT_MS w1))) i
       = Some s.
Proof.
  intros Hok Hsoon w1. unfold w1. revert Hok.
  unfold addActivityToSession, loadSessions.
  set (w0 := snd (checkAndEndTimedOutSessions now SESSION_TIMEOUT_MS w)).
  destruct (findIndex _ (sessions w0)) as [i|] eqn:Ei; [|discriminate].
  destruct (nth_error (sessions w0) i) as [session|] eqn:Es; [|discriminate].
  destruct (isEnded session) eqn:Ee; [discriminate|].
  cbn [fst snd]. intros _.
  set (item := mkActivity now _ _).
  set (s1 := setActivities _ session).
  destruct (findIndex_nth _ _ _ Ei) as (x & Hx & Hp).
  assert (Hx' : x = session) by congruence. subst x.
  assert (Ht : timedOut later SESSION_TIMEOUT_MS (history w0) s1 = false).
  { unfold timedOut. apply andb_false_intro2. rewrite Z.geb_leb. apply Z.leb_gt.
    assert (now <= getLastActivityTime (history w0) s1); [|lia].
    eapply lastActivity_after_activity; [reflexivity|].
    rewrite map_app. apply in_or_app. right. now left. }
  exists i, s1. cbn [saveSessions sessions history].
  split; [|split; [|split; [|split]]].
  - apply SyncSpec.findIndex_setAt; [exact Ei | exact Hp].
  - now apply (nth_setAt_same _ _ _ session).
  - exact Ee.
  - exact Ht.
  - rewrite sessions_sweep. cbn [saveSessions sessions history].
    rewrite nth_error_map, (nth_setAt_same _ _ _ session Es). cbn [option_map].
    unfold sweepSession. now rewrite Ht.
Qed.

Lemma activity_keeps_session_alive_witness :
  exists i s,
    nth_error (sessions (snd (addActivityToSession "s2"
                                (mkActivityInput "build" None) 400 sampleWorld))) i
    = Some s
    /\ timedOut (400 + 7000000) SESSION_TIMEOUT_MS [entry7] s = false.
Proof.
  assert (Hsoon : 400 + 7000000 - 400 < SESSION_TIMEOUT_MS)
    by (vm_compute; reflexivity).
  destruct (activity_keeps_session_alive "s2" (mkActivityInput "build" None)
              400 (400 + 7000000) sampleWorld eq_refl Hsoon)
    as (i & s & _ & Hs & _ & Ht & _).
  exists i, s. split; [exact Hs | exact Ht].
Defined.

End StoreInvariant.

(* ================================================================= *)
(** ** Queries over the stored sessions *)

Module QuerySpec.
Import JS SessionManager Samples SessionQueries QueryRefs MoreSamples.
Import ArrayFacts.

Lemma filter_and {A} (f g : A -> bool) (l : list A) :
  filter g (filter f l) = filter (fun x => f x && g x) l.
Proof.
  induction l as [|x l IH]; simpl; [reflexivity|].
  destruct (f x); simpl; [destruct (g x)|]; now rewrite IH.
Qed.

Lemma filter_true {A} (l : list A) : filter (fun _ => true) l = l.
Proof. induction l as [|x l IH]; simpl; now rewrite ?IH. Qed.

(** The query is the sorted selection. *)
Lemma getSessions_closed o w :
  getSessions o w = sortDesc (filter (selects o) (map newSession (sessions w))).
Proof.
  unfold getSessions, loadSessions. f_equal.
  generalize (map newSession (sessions w)) as l. intros l.
  unfold selects.
  destruct (g_projectId o), (g_projectCode o), (g_startDate o), (g_endDate o),
    (g_activeOnly o);
    rewrite ?filter_and;
    first [ apply filter_ext; intros s; cbn [andb];
            rewrite ?andb_true_r, ?andb_assoc; reflexivity
          | symmetry; apply filter_true ].
Qed.

Lemma insertDesc_perm s l : Permutation (insertDesc s l) (s :: l).
Proof.
  induction l as [|x l IH]; simpl; [apply Permutation_refl|].
  destruct (startTime x <=? startTime s); [apply Permutation_refl|].
  eapply Permutation_trans; [apply perm_skip, IH | apply perm_swap].
Qed.

Lemma sortDesc_perm l : Permutation (sortDesc l) l.
Proof.
  induction l as [|s l IH]; simpl; [constructor|].
  eapply Permutation_trans; [apply insertDesc_perm | now apply perm_skip].
Qed.

Lemma insertDesc_hd s x l :
  startTime s < startTime x ->
  HdRel (fun a b => startTime b <= startTime a) x l ->
  HdRel (fun a b => startTime b <= startTime a) x (insertDesc s l).
Proof.
  intros Hs Hl. destruct l as [|y l]; simpl.
  - constructor. lia.
  - inversion Hl; subst. destruct (startTime y <=? startTime s); constructor; lia.
Qed.

Lemma insertDesc_sorted s l : descending l -> descending (insertDesc s l).
Proof.
  unfold descending. induction 1 as [|x l Hl IH Hd]; simpl.
  - repeat constructor.
  - destruct (Z.leb_spec (startTime x) (startTime s)).
    + constructor; [now constructor|]. now constructor.
    + constructor; [exact IH|]. now apply insertDesc_hd.
Qed.

Lemma sortDesc_sorted l : descending (sortDesc l).
Proof.
  induction l as [|s l IH]; simpl; [constructor|]. now apply insertDesc_sorted.
Qed.

(** The insertion passes only sessions that started strictly later, so the
    sessions of one start time keep their order. *)
Lemma insertDesc_stable t s l :
  filter (startedAt t) (insertDesc s l) = filter (startedAt t) (s :: l).
Proof.
  induction l as [|x l IH]; [reflexivity|].
  cbn [insertDesc]. destruct (Z.leb_spec (startTime x) (startTime s)) as [H|H];
    [reflexivity|].
  cbn [filter] in *. rewrite IH. unfold startedAt.
  destruct (Z.eqb_spec (startTime s) t), (Z.eqb_spec (startTime x) t);
    try reflexivity. lia.
Qed.

Lemma sortDesc_stable t l :
  filter (startedAt t) (sortDesc l) = filter (startedAt t) l.
Proof.
  induction l as [|s l IH]; [reflexivity|].
  cbn [sortDesc fold_right]. fold (sortDesc l).
  rewrite insertDesc_stable. cbn [filter]. now rewrite IH.
Qed.

(** X14. [getSessions] returns exactly the stored sessions, normalised by
    the constructor, that pass every given filter: each of them once
    (a permutation of the selection), latest start first, and sessions with
    the same start time in the order in which they are stored. *)
Theorem getSessions_sorted_selection (o : GetOptions) (w : World) :
  let selection := filter (selects o) (map newSession (sessions w)) in
  Permutation (getSessions o w) selection
  /\ descending (getSessions o w)
  /\ (forall t, filter (startedAt t) (getSessions o w)
                = filter (startedAt t) selection)
  /\ (forall s, In s (getSessions o w)
                <-> exists d, In d (sessions w) /\ s = newSession d
                              /\ selects o s = true).
Proof.
  cbv zeta. rewrite getSessions_closed.
  split; [apply sortDesc_perm|]. split; [apply sortDesc_sorted|].
  split; [intros t; apply sortDesc_stable|].
  intros s. split.
  - intros H. apply (Permutation_in _ (sortDesc_perm _)) in H.
    apply filter_In in H as [H1 H2]. apply in_map_iff in H1 as (d & <- & Hd).
    exists d. auto.
  - intros (d & Hd & -> & Hs).
    apply (Permutation_in _ (Permutation_sym (sortDesc_perm _))).
    apply filter_In. split; [now apply in_map | exact Hs].
Qed.

Lemma projectId_never_zero d : optZ_is (projectId (newSession d)) (Some 0) = false.
Proof.
  cbn [newSession projectId]. destruct (projectId d) as [p|]; [|reflexivity].
  cbn [truthy_num]. destruct (Z.eqb_spec p 0) as [->|H]; cbn [negb optZ_is];
    [reflexivity|]. now apply Z.eqb_neq.
Qed.

(** X15. A query for project id 0, the id of the centre project, finds
    nothing, whatever is stored: the constructor turns a stored project id
    0 into [null] before the filter compares it with 0.  The same sessions
    are found by a query for project id [null]. *)
Theorem project_zero_is_never_found (o : GetOptions) (w : World) :
  g_projectId o = Some (Some 0) ->
  getSessions o w = []
  /\ forall d, In d (sessions w) -> projectId d = Some 0 ->
       In (newSession d)
          (getSessions (mkGetOptions (Some None) None None None false) w).
Proof.
  intros Ho. split.
  - rewrite getSessions_closed.
    rewrite (filter_ext_in (selects o) (fun _ => false)).
    + now rewrite TotalsFacts.filter_never.
    + intros s Hs. apply in_map_iff in Hs as (d & <- & _).
      unfold selects. rewrite Ho, projectId_never_zero. reflexivity.
  - intros d Hd Hp. rewrite getSessions_closed.
    apply (Permutation_in _ (Permutation_sym (sortDesc_perm _))).
    apply filter_In. split; [now apply in_map|].
    unfold selects. cbn [g_projectId g_projectCode g_startDate g_endDate
                         g_activeOnly newSession projectId].
    rewrite Hp. reflexivity.
Qed.

Lemma project_zero_is_never_found_witness :
  getSessions (mkGetOptions (Some (Some 0)) None None None false) zhongWorld = []
  /\ In (newSession zhongDoc)
        (getSessions (mkGetOptions (Some None) None None None false) zhongWorld).
Proof.
  destruct (project_zero_is_never_found
              (mkGetOptions (Some (Some 0)) None None None false) zhongWorld
              eq_refl) as [H1 H2].
  split; [exact H1|]. apply H2; [now left | reflexivity].
Defined.

Lemma fold_totals_shift (l : list Session) (a : Z) :
  fold_left (fun sum s => sum + num_or_zero (totalTokens s)) l a
  = a + sumTotals l.
Proof.
  revert a. induction l as [|s l IH]; intros a; simpl; [lia|].
  rewrite IH. lia.
Qed.

Lemma fold_durations_shift (l : list Session) (a : Z) :
  fold_left (fun sum s => sum + match duration s with
                                | Some d => d | None => 0 end)
    (filter (fun s => match duration s with
                      | Some _ => true | None => false end) l) a
  = a + sumDurations l.
Proof.
  revert a. induction l as [|s l IH]; intros a; [simpl; lia|].
  cbn [filter sumDurations fold_right]. fold (sumDurations l).
  destruct (duration s) as [d|] eqn:E.
  - cbn [fold_left]. rewrite IH, E. unfold duration in E.
    destruct (endTime s); [|discriminate]. injection E as <-. lia.
  - rewrite IH. unfold duration in E. destruct (endTime s); [discriminate|]. lia.
Qed.

Lemma sumTotals_perm l l' : Permutation l l' -> sumTotals l = sumTotals l'.
Proof. induction 1; simpl; lia. Qed.

Lemma sumDurations_perm l l' : Permutation l l' -> sumDurations l = sumDurations l'.
Proof.
  induction 1 as [|x l l' _ IH|x y l|l l' l'' _ IH1 _ IH2]; simpl.
  - reflexivity.
  - destruct (endTime x); lia.
  - destruct (endTime x), (endTime y); lia.
  - lia.
Qed.

Lemma filter_perm {A} (f : A -> bool) l l' :
  Permutation l l' -> Permutation (filter f l) (filter f l').
Proof.
  induction 1 as [|x l l' _ IH|x y l|l l' l'' _ IH1 _ IH2]; simpl.
  - constructor.
  - destruct (f x); [now constructor | exact IH].
  - destruct (f x), (f y); try apply Permutation_refl. apply perm_swap.
  - eapply Permutation_trans; eassumption.
Qed.

(** X16. The counters of [getSessionStats] do not depend on the order of
    the store: they are the number of selected sessions, the number of
    those without end time, the sum of their totals (a missing total counts
    as 0) and the sum of end minus start over those that have ended. *)
Theorem stats_are_sums_over_selection (o : GetOptions) (w : World) :
  let selection := filter (selects o) (map newSession (sessions w)) in
  let st := getSessionStats o w in
  totalSessions st = List.length selection
  /\ activeSessions st
     = List.length (filter (fun s => negb (isEnded s)) selection)
  /\ statsTotalTokens st = sumTotals selection
  /\ totalDuration st = sumDurations selection
  /\ (activeSessions st <= totalSessions st)%nat.
Proof.
  cbv zeta. unfold getSessionStats.
  cbn [totalSessions activeSessions statsTotalTokens totalDuration].
  rewrite getSessions_closed.
  set (selection := filter (selects o) (map newSession (sessions w))).
  pose proof (sortDesc_perm selection) as Hp.
  split; [now apply Permutation_length|].
  split; [apply Permutation_length; now apply filter_perm|].
  split; [rewrite fold_totals_shift; simpl; now apply sumTotals_perm|].
  split; [rewrite fold_durations_shift; simpl; now apply sumDurations_perm|].
  apply filter_length_le.
Qed.

End QuerySpec.

(* ================================================================= *)
(** ** scripts/start-session.js *)

Module CliSpec.
Import JS SessionManager Samples SessionQueries MoreSamples ProjectId StartSessionCli.
Import ArrayFacts SweepFacts PointerSpec StartSpec StoreInvariant.

(** A store without open session is left alone by the sweep. *)
Lemma allEnded_sweep_idle now t w :
  allEnded w -> snd (checkAndEndTimedOutSessions now t w) = w.
Proof.
  intros Hall. apply sweep_idle. rewrite sweep_closed. cbv zeta. cbn [fst].
  rewrite LogSpec.filter_nothing; [reflexivity|].
  intros s Hs. unfold timedOut. now rewrite (Hall s Hs).
Qed.

Lemma getActiveSession_world now w :
  snd (getActiveSession now w)
  = snd (checkAndEndTimedOutSessions now SESSION_TIMEOUT_MS w).
Proof.
  unfold getActiveSession. now destruct (negb (truthy_opt _)).
Qed.

(** When [getActiveSession] finds nothing in a well-formed store, no
    session is open. *)
Lemma getActiveSession_none_all_ended now w :
  wellFormed w -> fst (getActiveSession now w) = None ->
  allEnded (snd (checkAndEndTimedOutSessions now SESSION_TIMEOUT_MS w)).
Proof.
  intros Hwf. pose proof (wellFormed_sweep now SESSION_TIMEOUT_MS w Hwf) as Hwf1.
  unfold getActiveSession, getActiveSessionId, loadSessions.
  set (w1 := snd (checkAndEndTimedOutSessions now SESSION_TIMEOUT_MS w)) in *.
  destruct (truthy_opt (activeId w1)) eqn:Ht; cbn [negb fst].
  - destruct (find _ (sessions w1)) as [x|] eqn:E; [discriminate|].
    intros _ s Hs. destruct (isEnded s) eqn:Es; [reflexivity|]. exfalso.
    destruct (open_needs_pointer w1 s Hwf1 Hs Es) as [Ea _].
    pose proof (find_none _ _ E s Hs) as Hp. cbv beta in Hp.
    rewrite Ea, Es in Hp. unfold pointsTo in Hp.
    rewrite String.eqb_refl in Hp. discriminate.
  - intros _. now apply no_pointer_all_ended.
Qed.


(** The run on a store with an open session: the session is reported, the
    store is as it was and its open session is still open. *)
Example start_script_on_sample :
  let r := startSessionCli (Some "26Q1W21") 400 401 402 "aaaaaaaaa" sampleWorld in
  snd r = sampleWorld
  /\ nth_error (sessions (snd r)) 1 = Some openDoc2
  /\ activeId (snd r) = Some "s2"
  /\ exists s, fst r = Started s /\ id s = "session_402_aaaaaaaaa".
Proof.
  cbv zeta. split; [reflexivity|]. split; [reflexivity|]. split; [reflexivity|].
  eexists. split; reflexivity.
Qed.

End CliSpec.

(* ================================================================= *)
(** ** Edits of a stored session, and the move to the centre project *)

Module EditSpec.
Import JS JSText SessionManager Samples SessionQueries QueryRefs MoreSamples.
Import ArrayFacts StoreInvariant.

(** X18. [updateSessionDescription] and [associateSessionWithProject]
    address the first stored session with the given id, whether or not it
    has ended and without any timeout sweep: they return false and write
    nothing when there is none; otherwise they return true, replace only
    the description (the project id and name) of that slot, and leave every
    other slot, the pointer and a well-formed store's invariant alone. *)
Theorem edits_touch_one_slot (sid d : string) (pid : option Z)
    (pname : option string) (w : World) :
  let r1 := updateSessionDescription sid d w in
  let r2 := associateSessionWithProject sid pid pname w in
  match findIndex (fun x => (id x =? sid)%string) (sessions w) with
  | None => r1 = (false, w) /\ r2 = (false, w)
  | Some i =>
      exists s,
        nth_error (sessions w) i = Some s
        /\ r1 = (true, saveSessions (setAt i (setDescription d s) (sessions w)) w)
        /\ r2 = (true, saveSessions (setAt i (setProject pid pname s) (sessions w)) w)
        /\ nth_error (sessions (snd r1)) i = Some (setDescription d s)
        /\ nth_error (sessions (snd r2)) i = Some (setProject pid pname s)
        /\ (forall j, j <> i ->
              nth_error (sessions (snd r1)) j = nth_error (sessions w) j
              /\ nth_error (sessions (snd r2)) j = nth_error (sessions w) j)
        /\ (wellFormed w -> wellFormed (snd r1) /\ wellFormed (snd r2))
  end.
Proof.
  cbv zeta. unfold updateSessionDescription, associateSessionWithProject, loadSessions.
  destruct (findIndex _ (sessions w)) as [i|] eqn:Ei; [|now split].
  destruct (findIndex_nth _ _ _ Ei) as (s & Hs & _). rewrite Hs.
  exists s. cbn [snd saveSessions sessions].
  split; [reflexivity|]. split; [reflexivity|]. split; [reflexivity|].
  split; [now apply (nth_setAt_same _ _ _ s)|].
  split; [now apply (nth_setAt_same _ _ _ s)|].
  split.
  - intros j Hj. split; apply nth_setAt_other; congruence.
  - intros Hwf. split.
    + eapply (wellFormed_setAt w _ i s _ Hwf Hs);
        [reflexivity | reflexivity | reflexivity | now intros H].
    + eapply (wellFormed_setAt w _ i s _ Hwf Hs);
        [reflexivity | reflexivity | reflexivity | now intros H].
Qed.

End EditSpec.

Module MoveSpec.
Import JS JSText SessionManager Samples SessionQueries QueryRefs MoveToZhong.
Import ArrayFacts.

Lemma moved_not_source s : isSource (moveSession s) = false.
Proof.
  unfold moveSession. destruct (isSource s) eqn:E; cbn [negb]; [|exact E].
  reflexivity.
Qed.

Lemma moved_twice s : moveSession (moveSession s) = moveSession s.
Proof.
  unfold moveSession at 1. now rewrite moved_not_source.
Qed.



End MoveSpec.

(* ================================================================= *)
(** ** scripts/recalculate-all-session-tokens.js *)

Module RecalcSpec.
Import JS SessionManager SyncTokens SyncSamples Recalculate RowRefs.
Import ArrayFacts SyncFacts.

Lemma fold_entryStep_none rows : fold_left entryStep rows None = None.
Proof. induction rows as [|r rows IH]; simpl; [reflexivity | exact IH]. Qed.

Lemma fold_entryStep_some rows :
  forall t ids t' ids',
    fold_left entryStep rows (Some (t, ids)) = Some (t', ids') ->
    t' = t + sumZ (map estimatedTokensOf rows)
    /\ ids' = fold_left setAdd (rowIds rows) ids
    /\ hashed rows.
Proof.
  induction rows as [|r rows IH]; intros t ids t' ids'; cbn [fold_left].
  - intros [= <- <-]. cbn. split; [lia|]. split; [reflexivity|]. intros r [].
  - unfold entryStep at 2. unfold rowIds. cbn [flat_map map].
    destruct (entryIdOf r) as [i|] eqn:Ei;
      [|rewrite fold_entryStep_none; discriminate].
    intros H. destruct (IH _ _ _ _ H) as (Ht & Hi & Hall).
    split; [|split].
    + rewrite Ht. unfold sumZ. cbn [fold_right].
      change (estimatedTokensOf r) with (ceilDiv (codeLengthOf r) 4). lia.
    + rewrite Hi. reflexivity.
    + intros r' [<-|Hr']; [now exists i | now apply Hall].
Qed.

Lemma fold_entryStep_total rows t ids :
  hashed rows -> exists t' ids', fold_left entryStep rows (Some (t, ids)) = Some (t', ids').
Proof.
  revert t ids. induction rows as [|r rows IH]; intros t ids H; cbn [fold_left].
  - now exists t, ids.
  - destruct (H r (or_introl eq_refl)) as (i & Hi).
    unfold entryStep at 2. rewrite Hi. apply IH.
    intros r' Hr'. apply H. now right.
Qed.

Lemma startTime_recalc rows s s' :
  recalcSession rows s = Some s' -> startTime s' = startTime s.
Proof.
  unfold recalcSession. destruct (filter _ rows); [now intros [= <-]|].
  destruct (fold_left _ _ _) as [[t ids]|]; [|discriminate]. now intros [= <-].
Qed.

(** A recalculated session is a fixed point of the recalculation. *)
Lemma recalcSession_again rows s s' :
  recalcSession rows s = Some s' -> recalcSession rows s' = Some s'.
Proof.
  intros H. pose proof (startTime_recalc rows s s' H) as Es.
  revert H. unfold recalcSession. rewrite Es.
  destruct (filter _ rows) as [|r sel]; [now intros [= <-]|].
  destruct (fold_left _ _ _) as [[t ids]|]; [|discriminate].
  intros [= <-]. reflexivity.
Qed.

(** The recalculated session, field by field. *)
Lemma recalcSession_closed (rows : list Row) (s : Session) :
  hashed (since (startTime s) rows) ->
  since (startTime s) rows <> [] ->
  exists s',
    recalcSession rows s = Some s'
    /\ totalTokens s'
       = Some (sumZ (map estimatedTokensOf (since (startTime s) rows)))
    /\ tokenEntries s' = Some (setFrom (rowIds (since (startTime s) rows)))
    /\ s' = setTokenEntries (tokenEntries s') (setTotalTokens (totalTokens s') s).
Proof.
  intros Hh Hne.
  unfold recalcSession. fold (since (startTime s) rows).
  destruct (since (startTime s) rows) as [|r sel] eqn:Esel; [congruence|].
  destruct (fold_entryStep_total (r :: sel) 0 [] Hh) as (t & ids & Ef).
  rewrite Ef. destruct (fold_entryStep_some _ _ _ _ _ Ef) as (Ht & Hi & _).
  eexists. split; [reflexivity|].
  cbn [setTokenEntries setTotalTokens totalTokens tokenEntries].
  split; [now rewrite Ht|]. split; [now rewrite Hi|]. reflexivity.
Qed.

(** X20. The recalculation is absolute: for a session with at least one
    row at or after its start, all of them hashed, the stored total becomes
    the sum of the estimates of those rows, whatever it was, and the
    references become the distinct ids of those rows in row order; nothing
    else of the session changes, and recalculating again changes nothing. *)
Theorem recalc_is_absolute (rows : list Row) (s : Session) :
  hashed (since (startTime s) rows) ->
  since (startTime s) rows <> [] ->
  exists s',
    recalcSession rows s = Some s'
    /\ totalTokens s'
       = Some (sumZ (map estimatedTokensOf (since (startTime s) rows)))
    /\ tokenEntries s' = Some (setFrom (rowIds (since (startTime s) rows)))
    /\ NoDup (setFrom (rowIds (since (startTime s) rows)))
    /\ s' = setTokenEntries (tokenEntries s') (setTotalTokens (totalTokens s') s)
    /\ recalcSession rows s' = Some s'.
Proof.
  intros Hh Hne.
  destruct (recalcSession_closed rows s Hh Hne) as (s' & H1 & H2 & H3 & H4).
  exists s'. split; [exact H1|]. split; [exact H2|]. split; [exact H3|].
  split; [apply NoDup_fold_setAdd; constructor|].
  split; [exact H4|]. now apply (recalcSession_again rows s).
Qed.

Lemma recalc_is_absolute_witness :
  exists s',
    recalcSession threeRows paidDoc = Some s'
    /\ totalTokens s' = Some 300
    /\ tokenEntries s'
       = Some ["entry_60000_aaaaaaaa"; "entry_120000_bbbbbbbb";
               "entry_180000_cccccccc"].
Proof.
  assert (Hh : hashed (since (startTime paidDoc) threeRows)).
  { intros r Hr. apply filter_In in Hr as [Hr _].
    destruct Hr as [<-|[<-|[<-|[]]]]; eexists; reflexivity. }
  assert (Hne : since (startTime paidDoc) threeRows <> []) by discriminate.
  destruct (recalc_is_absolute threeRows paidDoc Hh Hne)
    as (s' & H1 & H2 & H3 & _).
  exists s'. split; [exact H1|]. split; [rewrite H2 | rewrite H3];
    vm_compute; reflexivity.
Defined.

Lemma recalcAll_again rows ss ss' :
  recalcAll rows ss = Some ss' -> recalcAll rows ss' = Some ss'.
Proof.
  revert ss'. induction ss as [|s ss IH]; intros ss'; cbn [recalcAll].
  - now intros [= <-].
  - destruct (recalcSession rows s) as [s'|] eqn:Es; [|discriminate].
    destruct (recalcAll rows ss) as [r'|] eqn:Er; [|discriminate].
    intros [= <-]. cbn [recalcAll].
    now rewrite (recalcSession_again rows s s' Es), (IH r' eq_refl).
Qed.

Lemma recalcAll_ids rows ss ss' :
  recalcAll rows ss = Some ss' ->
  map id ss' = map id ss /\ map endTime ss' = map endTime ss
  /\ map startTime ss' = map startTime ss.
Proof.
  revert ss'. induction ss as [|s ss IH]; intros ss'; cbn [recalcAll].
  - now intros [= <-].
  - destruct (recalcSession rows s) as [s'|] eqn:Es; [|discriminate].
    destruct (recalcAll rows ss) as [r'|] eqn:Er; [|discriminate].
    intros [= <-]. destruct (IH r' eq_refl) as (H1 & H2 & H3).
    cbn [map]. rewrite H1, H2, H3.
    assert (E : id s' = id s /\ endTime s' = endTime s /\ startTime s' = startTime s).
    { revert Es. unfold recalcSession. destruct (filter _ rows); [now intros [= <-]|].
      destruct (fold_left _ _ _) as [[t ids]|]; [|discriminate].
      now intros [= <-]. }
    destruct E as (-> & -> & ->). auto.
Qed.

(** X21. The recalculation script writes the sessions file once, at its
    end: a run that throws on a row without hash, or finds no database,
    leaves the store untouched; a run that finishes keeps every id, start
    and end time, and a second run over the same table writes the same
    sessions again. *)
Theorem recalc_script_runs_once (db : option (list Row)) (w : World) :
  let r := main db w in
  match fst r with
  | Finished =>
      map id (sessions (snd r)) = map id (sessions w)
      /\ map startTime (sessions (snd r)) = map startTime (sessions w)
      /\ map endTime (sessions (snd r)) = map endTime (sessions w)
      /\ fst (main db (snd r)) = Finished
      /\ sessions (snd (main db (snd r))) = sessions (snd r)
  | Exit1 | Thrown => snd r = w
  end.
Proof.
  cbv zeta. destruct (sessions w) as [|s ss] eqn:Ew.
  - assert (E : main db w = (Finished, w))
      by (unfold main, loadSessions; now rewrite Ew).
    rewrite E. cbn [fst snd]. rewrite E. cbn [fst snd]. rewrite ?Ew. repeat split.
  - destruct db as [rows|].
    + destruct (recalcAll rows (s :: ss)) as [ss'|] eqn:Er.
      * assert (E : main (Some rows) w = (Finished, saveSessions ss' w))
          by (unfold main, loadSessions; now rewrite Ew, Er).
        assert (E2 : main (Some rows) (saveSessions ss' w)
                     = (Finished, saveSessions ss' (saveSessions ss' w))).
        { unfold main, loadSessions. cbn [saveSessions sessions].
          rewrite (recalcAll_again _ _ _ Er).
          destruct ss' as [|s' ss'']; [|reflexivity].
          cbn [recalcAll] in Er. destruct (recalcSession rows s); [|discriminate].
          destruct (recalcAll rows ss); discriminate. }
        rewrite E. cbn [fst snd]. rewrite E2. cbn [fst snd saveSessions sessions].
        destruct (recalcAll_ids _ _ _ Er) as (H1 & H2 & H3).
        repeat split; assumption.
      * assert (E : main (Some rows) w = (Thrown, w))
          by (unfold main, loadSessions; now rewrite Ew, Er).
        now rewrite E.
    + assert (E : main None w = (Exit1, w))
        by (unfold main, loadSessions; now rewrite Ew).
      now rewrite E.
Qed.

Lemma fold_rowStep_total ex rows acc :
  hashed rows -> exists acc', fold_left (rowStep ex) rows (Some acc) = Some acc'.
Proof.
  revert acc. induction rows as [|r rows IH]; intros acc H; cbn [fold_left].
  - now exists acc.
  - destruct (H r (or_introl eq_refl)) as (i & Hi).
    unfold rowStep at 2. rewrite Hi.
    destruct (negb (includes i ex)); apply IH; intros r' Hr'; apply H; now right.
Qed.

Lemma all_new_without_refs rows :
  hashed rows -> filter (isNew []) rows = rows /\ newIds [] rows = rowIds rows.
Proof.
  intros H. split.
  - apply LogSpec.filter_everything. intros r Hr.
    destruct (H r Hr) as (i & Hi). unfold isNew. now rewrite Hi.
  - unfold newIds, rowIds. apply flat_map_ext. intros r.
    now destruct (entryIdOf r).
Qed.

Lemma fresh_existingOf s : fresh s -> existingOf s = [].
Proof. intros ([E|E] & _); unfold existingOf; now rewrite E. Qed.

(** The pass over hashed rows on a fresh session, field by field. *)
Lemma syncRows_fresh s r rows :
  fresh s -> hashed (r :: rows) ->
  exists a acc,
    syncRows s (r :: rows) = Some a
    /\ processRows [] (r :: rows) = Some acc
    /\ totalTokens a = Some (sumZ (map estimatedTokensOf (r :: rows)))
    /\ tokenEntries a = Some (rowIds (r :: rows))
    /\ promptGroups a
       = Some (fold_left setAdd (map fst (promptGroupsMap acc)) []).
Proof.
  intros Hf Hh. pose proof (fresh_existingOf s Hf) as Eex.
  destruct (fold_rowStep_total [] (r :: rows) acc0 Hh) as (acc & Eacc).
  assert (Es : exists a, syncRows s (r :: rows) = Some a).
  { unfold syncRows. fold (existingOf s). rewrite Eex.
    unfold processRows. rewrite Eacc. eexists. reflexivity. }
  destruct Es as (a & Ea). exists a, acc. split; [exact Ea|].
  destruct (SyncSpec.syncRows_fields s r rows a Ea) as (acc' & Hp & He & Ht & Hg & _).
  rewrite Eex in Hp. unfold processRows in Hp. rewrite Eacc in Hp.
  injection Hp as <-. split; [exact Eacc|].
  destruct (fold_rowStep_some _ _ _ _ Eacc) as (Hn & Hi & _).
  destruct (all_new_without_refs (r :: rows) Hh) as [Efil Eids].
  rewrite Efil in Hn. rewrite Eids in Hi. cbn [acc0 newTokens newEntryIds app] in Hn, Hi.
  destruct Hf as (_ & Hzero & Hpg).
  split; [rewrite Ht, Hn, Hzero; reflexivity|].
  split; [rewrite He, Hi, Eex; reflexivity|].
  rewrite Hg. destruct Hpg as [-> | ->]; reflexivity.
Qed.

(** X22. On a session nothing has been recorded on, the recalculation and
    the sync pass agree: over the hashed rows at or after the session's
    start both store the sum of the estimates as the total, and the same
    references when the derived ids are distinct. *)
Theorem recalc_agrees_with_sync (rows : list Row) (s : Session) :
  fresh s ->
  hashed (since (startTime s) rows) ->
  since (startTime s) rows <> [] ->
  exists a b,
    syncRows s (since (startTime s) rows) = Some a
    /\ recalcSession rows s = Some b
    /\ totalTokens a = totalTokens b
    /\ (NoDup (rowIds (since (startTime s) rows)) ->
        tokenEntries a = tokenEntries b).
Proof.
  intros Hf Hh Hne.
  destruct (recalcSession_closed rows s Hh Hne) as (b & Hb & Htb & Heb & _).
  destruct (since (startTime s) rows) as [|r sel] eqn:Esel; [congruence|].
  destruct (syncRows_fresh s r sel Hf Hh) as (a & acc & Ha & _ & Hta & Hea & _).
  exists a, b. split; [exact Ha|]. split; [exact Hb|].
  split; [now rewrite Hta, Htb|].
  intros Hnd. rewrite Hea, Heb. now rewrite setFrom_nodup.
Qed.

Lemma threeRows_hashed : hashed (since (startTime startedDoc) threeRows).
Proof.
  intros r Hr. apply filter_In in Hr as [Hr _].
  destruct Hr as [<-|[<-|[<-|[]]]]; eexists; reflexivity.
Defined.

Lemma startedDoc_fresh : fresh startedDoc.
Proof. split; [now right|]. split; [reflexivity | now left]. Defined.

Lemma recalc_agrees_with_sync_witness :
  exists a b,
    syncRows startedDoc (since (startTime startedDoc) threeRows) = Some a
    /\ recalcSession threeRows startedDoc = Some b
    /\ totalTokens a = totalTokens b.
Proof.
  assert (Hne : since (startTime startedDoc) threeRows <> []) by discriminate.
  destruct (recalc_agrees_with_sync threeRows startedDoc startedDoc_fresh
              threeRows_hashed Hne) as (a & b & H1 & H2 & H3 & _).
  exists a, b. split; [exact H1|]. split; [exact H2 | exact H3].
Defined.

Lemma in_fold_setAdd x xs :
  forall l, In x (fold_left setAdd xs l) <-> In x l \/ In x xs.
Proof.
  induction xs as [|y xs IH]; intros l; cbn [fold_left].
  - simpl. tauto.
  - rewrite IH. unfold setAdd. destruct (includes y l) eqn:E.
    + apply includes_In in E. simpl. split; [tauto|].
      intros [H|[<-|H]]; auto.
    + rewrite in_app_iff. simpl. tauto.
Qed.

(** X23. After a recalculation, a sync pass over the same rows adds
    nothing: every row is known, so the total and the references stay as
    the recalculation left them. *)
Theorem sync_after_recalc_adds_nothing (rows : list Row) (s : Session) :
  hashed (since (startTime s) rows) ->
  since (startTime s) rows <> [] ->
  exists b c,
    recalcSession rows s = Some b
    /\ syncRows b (since (startTime b) rows) = Some c
    /\ totalTokens c = totalTokens b
    /\ tokenEntries c = tokenEntries b
    /\ id c = id b /\ endTime c = endTime b.
Proof.
  intros Hh Hne.
  destruct (recalcSession_closed rows s Hh Hne) as (b & Hb & Htb & Heb & _).
  exists b. rewrite (startTime_recalc rows s b Hb).
  set (sel := since (startTime s) rows) in *.
  assert (Hknown : forall r, In r sel ->
            exists i, entryIdOf r = Some i /\ includes i (existingOf b) = true).
  { intros r Hr. destruct (Hh r Hr) as (i & Hi). exists i. split; [exact Hi|].
    unfold existingOf. rewrite Heb. apply includes_In.
    unfold setFrom. apply in_fold_setAdd. right.
    unfold rowIds. apply in_flat_map. exists r. split; [exact Hr|].
    rewrite Hi. now left. }
  assert (Ec : exists c, syncRows b sel = Some c).
  { unfold syncRows. destruct sel as [|r sel']; [congruence|].
    fold (existingOf b). unfold processRows.
    rewrite (fold_rowStep_known _ _ acc0 Hknown). eexists. reflexivity. }
  destruct Ec as (c & Hc). exists c.
  split; [exact Hb|]. split; [exact Hc|].
  destruct sel as [|r sel'] eqn:Esel; [congruence|].
  destruct (SyncSpec.syncRows_fields b r sel' c Hc) as (acc & Hp & He & Ht & _).
  unfold processRows in Hp. rewrite (fold_rowStep_known _ _ acc0 Hknown) in Hp.
  injection Hp as <-. cbn [acc0 newTokens newEntryIds] in He, Ht.
  destruct (id_syncRows b _ c Hc) as (Hid & _ & Hend).
  split; [rewrite Ht, Htb; cbn [num_or_zero]; f_equal; lia|].
  split; [rewrite He, app_nil_r; unfold existingOf; now rewrite Heb|].
  split; assumption.
Qed.

Lemma sync_after_recalc_adds_nothing_witness :
  exists b c,
    recalcSession threeRows startedDoc = Some b
    /\ syncRows b (since (startTime b) threeRows) = Some c
    /\ totalTokens c = totalTokens b.
Proof.
  assert (Hne : since (startTime startedDoc) threeRows <> []) by discriminate.
  destruct (sync_after_recalc_adds_nothing threeRows startedDoc
              threeRows_hashed Hne) as (b & c & H1 & H2 & H3 & _).
  exists b, c. split; [exact H1|]. split; [exact H2 | exact H3].
Defined.

End RecalcSpec.

(* ================================================================= *)
(** ** The prompt count of the panel, and the script that adds tokens *)

Module PromptSpec.
Import JS JSText SessionManager SyncTokens SyncSamples RowRefs PromptStats.
Import ArrayFacts SyncFacts NumberFacts.

Lemma spanDigits_stop a b :
  allDigits a = true ->
  match b with String c _ => isDigit c = false | EmptyString => True end ->
  spanDigits (a ++ b) = (a, b).
Proof.
  intros Ha Hb. induction a as [|c r IH]; cbn [append].
  - destruct b as [|c r]; [reflexivity|]. cbn [spanDigits]. now rewrite Hb.
  - cbn [allDigits] in Ha. apply andb_prop in Ha as [Hc Hr].
    cbn [spanDigits]. rewrite Hc, (IH Hr). reflexivity.
Qed.

Lemma append_empty s : (s ++ EmptyString)%string = s.
Proof. induction s as [|c r IH]; cbn [append]; [reflexivity | now rewrite IH]. Qed.

Lemma digit_not_e d : isDigit d = true -> Ascii.eqb "e" d = false.
Proof.
  intros H. apply isDigit_cases in H. unfold digitChars in H.
  repeat (destruct H as [<-|H]; [reflexivity|]). contradiction.
Qed.

Lemma matchEntry_here s d : matchEntryHere s = Some d -> matchEntry s = Some d.
Proof. intros H. destruct s; cbn [matchEntry]; now rewrite H. Qed.

(** The id of a row created at [c]: the pattern finds the time stamp. *)
Lemma matchEntry_row c x :
  0 <= c ->
  matchEntry ("entry_" ++ toString c ++ "_" ++ x) = Some (toString c).
Proof.
  intros Hc. apply matchEntry_here.
  destruct (toString_digits c Hc) as [Hd Hne].
  unfold matchEntryHere.
  change (startsWith "entry_" ("entry_" ++ toString c ++ "_" ++ x)) with true.
  cbv iota.
  change (drop 6 ("entry_" ++ toString c ++ "_" ++ x))
    with (toString c ++ "_" ++ x)%string.
  assert (E : startsWith "estimated_" (toString c ++ "_" ++ x) = false).
  { destruct (toString c) as [|d ds]; [contradiction|].
    cbn [allDigits] in Hd. apply andb_prop in Hd as [Hd _].
    cbn [append startsWith]. now rewrite (digit_not_e d Hd). }
  rewrite E. cbn [truthy].
  rewrite (spanDigits_stop (toString c) ("_" ++ x) Hd); [|reflexivity].
  cbn [fst]. destruct (toString c); [contradiction | reflexivity].
Qed.

(** The id the add-tokens script writes at [c]. *)
Lemma matchEntry_estimated c :
  0 <= c -> matchEntry ("entry_estimated_" ++ toString c) = Some (toString c).
Proof.
  intros Hc. apply matchEntry_here.
  destruct (toString_digits c Hc) as [Hd Hne].
  unfold matchEntryHere.
  change (startsWith "entry_" ("entry_estimated_" ++ toString c)) with true.
  cbv iota.
  change (drop 6 ("entry_estimated_" ++ toString c))
    with ("estimated_" ++ toString c)%string.
  change (startsWith "estimated_" ("estimated_" ++ toString c)) with true.
  cbv iota.
  change (drop 10 ("estimated_" ++ toString c)) with (toString c).
  assert (Es : spanDigits (toString c) = (toString c, EmptyString)).
  { pose proof (spanDigits_stop (toString c) EmptyString Hd I) as H.
    now rewrite append_empty in H. }
  rewrite Es. cbn [fst]. destruct (toString c); [contradiction | reflexivity].
Qed.

Lemma minuteOf_row r i :
  0 <= createdAt r -> entryIdOf r = Some i -> minuteOf i = Some (minuteOfRow r).
Proof.
  intros Hc. unfold entryIdOf. destruct (hash r) as [h|]; [|discriminate].
  intros E.
  assert (Ei : i = ("entry_" ++ toString (createdAt r) ++ "_" ++ substring0 8 h)%string)
    by congruence.
  unfold minuteOf. rewrite Ei, (matchEntry_row (createdAt r) (substring0 8 h) Hc).
  now rewrite (parseInt_toString _ Hc).
Qed.

Lemma mapHas_keys k m : mapHas k m = includes k (map fst m).
Proof.
  unfold mapHas, includes. induction m as [|kv m IH]; simpl; [reflexivity|].
  now rewrite IH, String.eqb_sym.
Qed.

Lemma keys_mapPush k v m : map fst (mapPush k v m) = setAdd (map fst m) k.
Proof.
  unfold mapPush, setAdd. rewrite mapHas_keys, map_map.
  assert (E : forall l : PromptMap,
             map (fun kv => fst (if (fst kv =? k)%string
                                 then (fst kv, snd kv ++ [v]) else kv)) l
             = map fst l).
  { intros l. apply map_ext. intros kv. now destruct (fst kv =? k)%string. }
  rewrite E. destruct (includes k (map fst m)); [reflexivity|].
  now rewrite map_app.
Qed.

(** The keys of the prompt map after the loop: the keys of the new rows,
    added in row order. *)
Lemma fold_rowStep_keys ex rows :
  forall acc acc',
    fold_left (rowStep ex) rows (Some acc) = Some acc' ->
    map fst (promptGroupsMap acc')
    = fold_left setAdd (map promptKeyOf (filter (isNew ex) rows))
        (map fst (promptGroupsMap acc)).
Proof.
  induction rows as [|r rows IH]; intros acc acc'; cbn [fold_left].
  - now intros [= <-].
  - unfold rowStep at 2. unfold isNew. cbn [filter].
    destruct (entryIdOf r) as [i|] eqn:Ei;
      [|rewrite fold_rowStep_none; discriminate].
    destruct (includes i ex); cbn [negb]; intros H.
    + exact (IH _ _ H).
    + rewrite (IH _ _ H). cbn [promptGroupsMap map fold_left].
      now rewrite keys_mapPush.
Qed.

Lemma promptKey_minute r :
  promptKeyOf r = ("prompt_" ++ toString (minuteOfRow r))%string.
Proof. unfold promptKeyOf, minuteOfRow. now destruct (conversationId r). Qed.

Lemma toString_inj a b : 0 <= a -> 0 <= b -> toString a = toString b -> a = b.
Proof.
  intros Ha Hb E. rewrite <- (parseDigits_toString a Ha), <- (parseDigits_toString b Hb).
  now rewrite E.
Qed.

Lemma includes_keys x l :
  0 <= x -> Forall (fun z => 0 <= z) l ->
  includes ("prompt_" ++ toString x)
    (map (fun m => "prompt_" ++ toString m)%string l)
  = existsb (Z.eqb x) l.
Proof.
  intros Hx Hl. unfold includes.
  induction Hl as [|y l Hy _ IH]; cbn [map existsb]; [reflexivity|].
  rewrite IH. f_equal.
  destruct (Z.eqb_spec x y) as [->|Hne]; [apply String.eqb_refl|].
  apply String.eqb_neq. intros E. apply Hne.
  cbn [append] in E. injection E as E. now apply toString_inj.
Qed.

Lemma fold_keys l :
  forall acc,
    Forall (fun z => 0 <= z) (acc ++ l) ->
    fold_left setAdd (map (fun m => "prompt_" ++ toString m)%string l)
      (map (fun m => "prompt_" ++ toString m)%string acc)
    = map (fun m => "prompt_" ++ toString m)%string (fold_left numSetAdd l acc).
Proof.
  induction l as [|x l IH]; intros acc H; cbn [map fold_left]; [reflexivity|].
  apply Forall_app in H as [Hacc Hl]. inversion Hl as [|? ? Hx Hl']; subst.
  assert (E : setAdd (map (fun m => "prompt_" ++ toString m)%string acc)
                ("prompt_" ++ toString x)
              = map (fun m => "prompt_" ++ toString m)%string (numSetAdd acc x)).
  { unfold setAdd, numSetAdd. rewrite (includes_keys x acc Hx Hacc).
    destruct (existsb (Z.eqb x) acc); [reflexivity | now rewrite map_app]. }
  rewrite E. apply IH. apply Forall_app. split; [|exact Hl'].
  unfold numSetAdd. destruct (existsb (Z.eqb x) acc); [exact Hacc|].
  apply Forall_app. split; [exact Hacc | now constructor].
Qed.

Lemma minuteGroups_rows rows :
  (forall r, In r rows -> 0 <= createdAt r) -> hashed rows ->
  minuteGroupsOf (rowIds rows) = numSetFrom (map minuteOfRow rows).
Proof.
  unfold minuteGroupsOf, numSetFrom. generalize (@nil Z) as acc.
  induction rows as [|r rows IH]; intros acc Hpos Hh; [reflexivity|].
  destruct (Hh r (or_introl eq_refl)) as (i & Hi).
  unfold rowIds. cbn [flat_map map]. rewrite Hi. cbn [app fold_left].
  rewrite (minuteOf_row r i (Hpos r (or_introl eq_refl)) Hi).
  apply IH; intros r' Hr'; [apply Hpos | apply Hh]; now right.
Qed.

Lemma minute_nonneg r : 0 <= createdAt r -> 0 <= minuteOfRow r.
Proof. intros H. unfold minuteOfRow. now apply Z.div_pos. Qed.

Lemma numSetFrom_nonempty x l : numSetFrom (x :: l) <> [].
Proof.
  unfold numSetFrom. cbn [fold_left numSetAdd existsb app].
  assert (H : forall l acc, acc <> [] -> fold_left numSetAdd l acc <> []).
  { clear. induction l as [|y l IH]; intros acc Hacc; cbn [fold_left]; [exact Hacc|].
    apply IH. unfold numSetAdd. destruct (existsb (Z.eqb y) acc); [exact Hacc|].
    destruct acc; discriminate. }
  apply H. discriminate.
Qed.

(** X24. The prompt count of the panel agrees with the sync pass.  For a
    session the pass filled from nothing, over rows with non-negative
    creation stamps, the stored prompt groups are the distinct minutes of
    the rows; the panel, which reads sessions through the constructor and
    so never sees the stored groups, recovers the same minutes from the
    entry ids, and counts as many prompts as there are stored groups. *)
Theorem prompt_count_is_distinct_minutes (s a : Session) (rows : list Row) :
  fresh s -> rows <> [] ->
  (forall r, In r rows -> 0 <= createdAt r) ->
  syncRows s rows = Some a ->
  let minutes := numSetFrom (map minuteOfRow rows) in
  promptGroups a = Some (map (fun m => "prompt_" ++ toString m)%string minutes)
  /\ promptGroups (newSession a) = None
  /\ sessionPrompts a = Z.of_nat (List.length minutes)
  /\ sessionPrompts (newSession a) = Z.of_nat (List.length minutes)
  /\ totalPrompts None [newSession a] = Z.of_nat (List.length minutes)
  /\ 0 < Z.of_nat (List.length minutes).
Proof.
  intros Hf Hne Hpos Ha minutes.
  destruct rows as [|r rows]; [congruence|].
  assert (Hh : hashed (r :: rows)).
  { destruct (SyncSpec.syncRows_fields s r rows a Ha) as (acc & Hp & _).
    unfold processRows in Hp. exact (proj2 (proj2 (fold_rowStep_some _ _ _ _ Hp))). }
  destruct (RecalcSpec.syncRows_fresh s r rows Hf Hh)
    as (a' & acc & Ha' & Hacc & _ & He & Hg).
  assert (a' = a) by congruence. subst a'.
  assert (Hmin : Forall (fun z => 0 <= z) (map minuteOfRow (r :: rows))).
  { apply Forall_forall. intros z Hz. apply in_map_iff in Hz as (x & <- & Hx).
    apply minute_nonneg, Hpos, Hx. }
  assert (Ekeys : map fst (promptGroupsMap acc)
                  = map (fun m => "prompt_" ++ toString m)%string minutes).
  { unfold processRows in Hacc. rewrite (fold_rowStep_keys _ _ _ _ Hacc).
    rewrite (proj1 (RecalcSpec.all_new_without_refs _ Hh)).
    assert (Emap : map promptKeyOf (r :: rows)
                   = map (fun m => "prompt_" ++ toString m)%string
                       (map minuteOfRow (r :: rows))).
    { rewrite map_map. apply map_ext. intros x. apply promptKey_minute. }
    rewrite Emap.
    apply (fold_keys (map minuteOfRow (r :: rows)) [] Hmin). }
  assert (Hnd : NoDup (map fst (promptGroupsMap acc))).
  { unfold processRows in Hacc. rewrite (fold_rowStep_keys _ _ _ _ Hacc).
    apply NoDup_fold_setAdd. constructor. }
  assert (Epg : promptGroups a
                = Some (map (fun m => "prompt_" ++ toString m)%string minutes)).
  { rewrite Hg, (fold_setAdd_nodup _ [] Hnd). cbn [app]. now rewrite Ekeys. }
  assert (Hlen : 0 < Z.of_nat (List.length minutes)).
  { pose proof (numSetFrom_nonempty (minuteOfRow r) (map minuteOfRow rows)) as H.
    unfold minutes. cbn [map]. destruct (numSetFrom _); [congruence|].
    cbn [List.length]. lia. }
  assert (Epanel : sessionPrompts (newSession a) = Z.of_nat (List.length minutes)).
  { unfold sessionPrompts. cbn [newSession promptGroups tokenEntries].
    rewrite He.
    destruct (rowIds (r :: rows)) as [|i ids] eqn:Eids.
    { exfalso. destruct (Hh r (or_introl eq_refl)) as (i & Hi).
      unfold rowIds in Eids. cbn [flat_map] in Eids. rewrite Hi in Eids.
      discriminate. }
    rewrite <- Eids, (minuteGroups_rows _ Hpos Hh). fold minutes.
    destruct (Z.eqb_spec (Z.of_nat (List.length minutes)) 0); [lia | reflexivity]. }
  split; [exact Epg|]. split; [reflexivity|].
  split; [unfold sessionPrompts; rewrite Epg; now rewrite length_map|].
  split; [exact Epanel|]. split; [|exact Hlen].
  unfold totalPrompts. cbn [num_or_zero fold_left]. rewrite Epanel.
  reflexivity.
Qed.

Lemma prompt_count_is_distinct_minutes_witness :
  sessionPrompts (newSession syncedDoc) = 3
  /\ sessionPrompts syncedDoc = 3.
Proof.
  assert (Hne : threeRows <> []) by discriminate.
  assert (Hpos : forall r, In r threeRows -> 0 <= createdAt r).
  { intros r [<-|[<-|[<-|[]]]]; vm_compute; discriminate. }
  assert (Ha : syncRows startedDoc threeRows = Some syncedDoc)
    by (vm_compute; reflexivity).
  destruct (prompt_count_is_distinct_minutes startedDoc syncedDoc threeRows
              RecalcSpec.startedDoc_fresh Hne Hpos Ha)
    as (_ & _ & H3 & H4 & _).
  split; [rewrite H4 | rewrite H3]; vm_compute; reflexivity.
Defined.

(** X25. The script that adds estimated tokens: with a non-zero amount and
    a pointer that names a stored session, it raises that session's total
    by the amount and appends one reference, whether or not the session
    has ended; every other slot, and the session's id and end time, stay as
    they are.  The panel's pattern reads the minute of the run back from
    the new reference.  Without amount, pointer or session it exits and
    writes nothing. *)
Theorem add_tokens_is_additive (n now : Z) (w : World) :
  0 <= now ->
  let r := AddTokens.main n now w in
  let eid := ("entry_estimated_" ++ toString now)%string in
  minuteOf eid = Some (now / 60000)
  /\ match fst r with
     | AddTokens.Exit1 => snd r = w
     | AddTokens.Added =>
         n <> 0
         /\ exists a i s s',
              activeId w = Some a
              /\ findIndex (fun x => (id x =? a)%string) (sessions w) = Some i
              /\ nth_error (sessions w) i = Some s
              /\ snd r = saveSessions (setAt i s' (sessions w)) w
              /\ totalTokens s' = Some (num_or_zero (totalTokens s) + n)
              /\ tokenEntries s' = Some (existingOf s ++ [eid])
              /\ id s' = id s /\ endTime s' = endTime s
              /\ (forall j, j <> i ->
                    nth_error (sessions (snd r)) j = nth_error (sessions w) j)
     end.
Proof.
  intros Hnow. cbv zeta. split.
  { unfold minuteOf. rewrite (matchEntry_estimated now Hnow).
    now rewrite (parseInt_toString now Hnow). }
  unfold AddTokens.main, loadSessions.
  destruct (Z.eqb_spec n 0) as [Hn|Hn]; [reflexivity|].
  destruct (activeId w) as [a|] eqn:Ea; [|reflexivity].
  destruct (findIndex _ (sessions w)) as [i|] eqn:Ei; [|reflexivity].
  destruct (nth_error (sessions w) i) as [s|] eqn:Es; [|reflexivity].
  cbn [fst snd]. split; [exact Hn|].
  eexists a, i, s, _. split; [reflexivity|]. split; [exact Ei|].
  split; [exact Es|]. split; [reflexivity|].
  cbn [setTokenEntries setTotalTokens totalTokens tokenEntries id endTime].
  split; [reflexivity|]. split; [reflexivity|]. split; [reflexivity|].
  split; [reflexivity|].
  intros j Hj. cbn [saveSessions sessions]. apply nth_setAt_other. congruence.
Qed.

Lemma add_tokens_is_additive_witness :
  minuteOf ("entry_estimated_" ++ toString 120000) = Some 2
  /\ fst (AddTokens.main 5000 120000 Samples.sampleWorld) = AddTokens.Added.
Proof.
  assert (Hnow : 0 <= 120000) by lia.
  split; [|reflexivity].
  exact (proj1 (add_tokens_is_additive 5000 120000 Samples.sampleWorld Hnow)).
Defined.

End PromptSpec.

(* ================================================================= *)
(** ** src/utils/session-prompt.js: the chat commands *)

Module PromptCommands.
Import JS SessionManager Samples SessionQueries MoreSamples SessionPrompt.
Import ArrayFacts SweepFacts PointerSpec StartSpec StoreInvariant CliSpec.

Lemma getActiveSession_some now w active :
  fst (getActiveSession now w) = Some active ->
  exists s,
    In s (sessions (snd (checkAndEndTimedOutSessions now SESSION_TIMEOUT_MS w)))
    /\ active = newSession s /\ isEnded s = false
    /\ activeId (snd (checkAndEndTimedOutSessions now SESSION_TIMEOUT_MS w))
       = Some (id s).
Proof.
  unfold getActiveSession, getActiveSessionId, loadSessions.
  set (w1 := snd (checkAndEndTimedOutSessions now SESSION_TIMEOUT_MS w)).
  destruct (negb (truthy_opt (activeId w1))); cbn [fst]; [discriminate|].
  destruct (find _ (sessions w1)) as [x|] eqn:E; cbn [option_map]; [|discriminate].
  intros [= <-]. apply find_some in E as [Hin Hp].
  apply andb_prop in Hp as [Hp He]. exists x.
  split; [exact Hin|]. split; [reflexivity|].
  split; [now destruct (isEnded x)|].
  destruct (activeId w1) as [a|]; [|discriminate].
  apply pointsTo_eq in Hp. now rewrite Hp.
Qed.

Lemma getActiveSession_all_ended now w :
  allEnded w -> getActiveSession now w = (None, w).
Proof.
  intros Hall. unfold getActiveSession.
  rewrite (allEnded_sweep_idle now SESSION_TIMEOUT_MS w Hall).
  unfold getActiveSessionId, loadSessions.
  destruct (negb (truthy_opt (activeId w))); [reflexivity|].
  rewrite find_all_false; [reflexivity|].
  intros x Hx. rewrite (Hall x Hx). apply andb_false_r.
Qed.

Lemma startTime_finalizeTokens log s :
  startTime (finalizeTokens log s) = startTime s.
Proof. finalize_cases; reflexivity. Qed.

(** In a well-formed store with an open session, [endSession] ends it. *)
Lemma endSession_open o_desc now w s :
  wellFormed w -> In s (sessions w) -> isEnded s = false ->
  exists ended,
    fst (endSession o_desc now w) = Some ended
    /\ id ended = id s /\ startTime ended = startTime s
    /\ endTime ended = Some now.
Proof.
  intros Hwf Hs He. pose proof Hwf as (Hnd & _ & _).
  destruct (open_needs_pointer w s Hwf Hs He) as [Ea Ht].
  unfold endSession, getActiveSessionId, loadSessions. rewrite Ht. cbn [negb].
  rewrite Ea.
  change (findIndex (fun x => pointsTo (Some (id s)) x) (sessions w))
    with (findIndex (pointsTo (Some (id s))) (sessions w)).
  destruct (findIndex (pointsTo (Some (id s))) (sessions w)) as [i|] eqn:Ei.
  2:{ pose proof (findIndex_none _ _ Ei s Hs) as Hp.
      unfold pointsTo in Hp. rewrite String.eqb_refl in Hp. discriminate. }
  destruct (findIndex_nth _ _ _ Ei) as (x & Hx & Hp).
  apply pointsTo_eq in Hp.
  assert (x = s)
    by (apply (same_id_same_session (sessions w)); auto;
        eapply nth_error_In; exact Hx).
  subst x. rewrite Hx, He. cbn [fst].
  eexists. split; [reflexivity|].
  cbn [newSession id startTime endTime setEndTime].
  rewrite id_finalizeTokens, startTime_finalizeTokens.
  destruct o_desc as [d|]; [destruct (truthy d)|]; repeat split.
Qed.

(** X26. The chat command that starts a session never replaces one: on a
    well-formed store it either finds an open session after the timeout
    sweep, refuses, and leaves the swept store as it is; or no session is
    open and it appends a new one and points at it.  Either way the store
    stays well formed. *)
Theorem chat_start_never_replaces (options : HandlerOptions) (now1 now2 : Z)
    (rnd : string) (w : World) :
  wellFormed w ->
  ~ In (generateSessionId now2 rnd) (map id (sessions w)) ->
  let w1 := snd (checkAndEndTimedOutSessions now1 SESSION_TIMEOUT_MS w) in
  let r := handleStartSession options now1 now2 rnd w in
  wellFormed (snd r)
  /\ match fst r with
     | StartRefused active =>
         snd r = w1
         /\ isEnded active = false
         /\ activeId w1 = Some (id active)
         /\ exists s, In s (sessions w1) /\ active = newSession s
     | StartOk session _ =>
         allEnded w1
         /\ id session = generateSessionId now2 rnd
         /\ isEnded session = false
         /\ sessions (snd r) = sessions w1 ++ [session]
         /\ activeId (snd r) = Some (id session)
     end.
Proof.
  intros Hwf Hfresh w1 r.
  pose proof (wellFormed_sweep now1 SESSION_TIMEOUT_MS w Hwf) as Hwf1.
  fold w1 in Hwf1.
  pose proof (getActiveSession_world now1 w) as Ew. fold w1 in Ew.
  unfold r, handleStartSession.
  destruct (getActiveSession now1 w) as [active w'] eqn:Eg. cbn [snd] in Ew.
  subst w'. destruct active as [active|].
  - cbn [fst snd]. split; [exact Hwf1|]. split; [reflexivity|].
    destruct (getActiveSession_some now1 w active) as (s & Hin & -> & He & Ha);
      [now rewrite Eg|].
    fold w1 in Hin, Ha. split; [exact He|]. split; [exact Ha|]. now exists s.
  - assert (Hall : allEnded w1).
    { unfold w1. apply getActiveSession_none_all_ended; [exact Hwf | now rewrite Eg]. }
    set (opts := mkStartOptions _ _ _ _ _ _).
    assert (Eidle : snd (checkAndEndTimedOutSessions now2 SESSION_TIMEOUT_MS w1) = w1)
      by now apply allEnded_sweep_idle.
    assert (Hwf2 : wellFormed (snd (checkAndEndTimedOutSessions now2
                                      SESSION_TIMEOUT_MS w1)))
      by now rewrite Eidle.
    assert (Hfresh1 : ~ In (generateSessionId now2 rnd) (map id (sessions w1))).
    { unfold w1. rewrite sessions_sweep, ids_swept. exact Hfresh. }
    destruct (startSession_on_wellFormed opts now2 rnd w1 Hwf2)
      as [(x & Hin & He & _) | (_ & E)].
    { rewrite Eidle in Hin. rewrite (Hall x Hin) in He. discriminate. }
    rewrite E. cbn [fst snd].
    split; [apply wellFormed_afterCreate; [exact Hwf1 | exact Hfresh1 |];
            now rewrite Eidle|].
    split; [exact Hall|]. split; [reflexivity|]. split; [reflexivity|].
    unfold afterCreate. rewrite Eidle.
    cbn [setActiveSessionId saveSessions sessions activeId truthy_opt].
    split; reflexivity.
Qed.

Lemma chat_start_never_replaces_witness :
  wellFormed (snd (handleStartSession (mkHandlerOptions None None None None)
                     400 401 "aaaaaaaaa" sampleWorld))
  /\ fst (handleStartSession (mkHandlerOptions None None None None) 400 401
            "aaaaaaaaa" sampleWorld) = StartRefused (newSession openDoc2).
Proof.
  assert (Hfresh : ~ In (generateSessionId 401 "aaaaaaaaa")
                        (map id (sessions sampleWorld)))
    by (vm_compute; intros [H|[H|[]]]; discriminate).
  split; [|vm_compute; reflexivity].
  exact (proj1 (chat_start_never_replaces
                  (mkHandlerOptions None None None None) 400 401 "aaaaaaaaa"
                  sampleWorld sampleWorld_wellFormed Hfresh)).
Defined.

(** X27. The chat command that ends a session, on a well-formed store:
    it never reports a failed end; when an open session is left after the
    timeout sweep it ends that session and the summary carries its id and
    its length in minutes, rounded; afterwards no session is open, and a
    second command finds nothing to end and writes nothing. *)
Theorem chat_end_closes_the_session (o_desc o_desc2 : option string)
    (now1 now2 now3 now4 : Z) (w : World) :
  wellFormed w ->
  let w1 := snd (checkAndEndTimedOutSessions now1 SESSION_TIMEOUT_MS w) in
  let r := handleEndSession o_desc now1 now2 w in
  wellFormed (snd r)
  /\ allEnded (snd r)
  /\ handleEndSession o_desc2 now3 now4 (snd r) = (EndNoActive, snd r)
  /\ match fst r with
     | EndNoActive => snd r = w1 /\ allEnded w1
     | EndFailed => False
     | EndOk summary =>
         activeId (snd r) = None
         /\ exists s,
              In s (sessions w1) /\ isEnded s = false
              /\ e_id summary = id s
              /\ e_minutes summary
                 = (if now2 - startTime s =? 0 then 0
                    else roundDiv (now2 - startTime s) 60000)
     end.
Proof.
  intros Hwf w1 r.
  pose proof (wellFormed_sweep now1 SESSION_TIMEOUT_MS w Hwf) as Hwf1.
  fold w1 in Hwf1.
  pose proof (getActiveSession_world now1 w) as Ew. fold w1 in Ew.
  assert (Hagain : forall w', allEnded w' ->
            handleEndSession o_desc2 now3 now4 w' = (EndNoActive, w')).
  { intros w' Hall. unfold handleEndSession.
    now rewrite (getActiveSession_all_ended now3 w' Hall). }
  unfold r, handleEndSession.
  destruct (getActiveSession now1 w) as [active w'] eqn:Eg. cbn [snd] in Ew.
  subst w'. destruct active as [active|].
  - destruct (getActiveSession_some now1 w active) as (s & Hin & _ & He & Ha);
      [now rewrite Eg|].
    fold w1 in Hin, Ha.
    destruct (endSession_on_wellFormed o_desc now2 w1 Hwf1) as (H1 & H2 & H3 & _).
    destruct (endSession_open o_desc now2 w1 s Hwf1 Hin He)
      as (ended & Ee & Eid & Est & Eend).
    destruct (endSession o_desc now2 w1) as [res w2]. cbn [fst snd] in *.
    subst res. cbn [fst snd].
    split; [exact H1|]. split; [exact H2|]. split; [now apply Hagain|].
    split.
    + rewrite H3, Ha. cbn [truthy_opt].
      destruct Hwf1 as (_ & Hid & _). now rewrite (Hid s Hin).
    + exists s. split; [exact Hin|]. split; [exact He|].
      cbn [e_id e_minutes]. split; [exact Eid|].
      unfold minutesOf. now rewrite Eend, Est.
  - assert (Hall : allEnded w1).
    { unfold w1. apply getActiveSession_none_all_ended; [exact Hwf | now rewrite Eg]. }
    cbn [fst snd]. split; [exact Hwf1|]. split; [exact Hall|].
    split; [now apply Hagain|]. split; [reflexivity | exact Hall].
Qed.

Lemma chat_end_closes_the_session_witness :
  allEnded (snd (handleEndSession None 400 60100 sampleWorld))
  /\ option_map e_minutes
       (match fst (handleEndSession None 400 60100 sampleWorld) with
        | EndOk summary => Some summary
        | _ => None
        end) = Some 1.
Proof.
  split; [|vm_compute; reflexivity].
  exact (proj1 (proj2 (chat_end_closes_the_session None None 400 60100 60200 60300
                         sampleWorld sampleWorld_wellFormed))).
Defined.

End PromptCommands.

(* ================================================================= *)
(** ** The merge of the file tier into the browser cache, repeated *)

Module MergeSpec.
Import JS SessionManager SyncBridge Samples MergeRefs.
Import ArrayFacts PointerSpec.

Lemma findById_id x fs u : findById x fs = Some u -> id u = x /\ In u fs.
Proof.
  unfold findById. intros H. apply find_some in H as [Hin E].
  apply String.eqb_eq in E. auto.
Qed.

Lemma findById_unique fs f :
  NoDup (map id fs) -> In f fs -> findById (id f) fs = Some f.
Proof.
  intros Hnd Hf. destruct (findById (id f) fs) as [u|] eqn:E.
  - destruct (findById_id _ _ _ E) as [Hid Hin].
    f_equal. now apply (same_id_same_session fs).
  - unfold findById in E. pose proof (find_none _ _ E f Hf) as H.
    cbv beta in H. rewrite String.eqb_refl in H. discriminate.
Qed.

Lemma hasId_In x l : hasId x l = true <-> In x (map id l).
Proof.
  unfold hasId. rewrite existsb_exists, in_map_iff. split.
  - intros (s & Hs & E). apply String.eqb_eq in E. now exists s.
  - intros (s & E & Hs). exists s. split; [exact Hs | now apply String.eqb_eq].
Qed.

Lemma hasId_same_ids x l l' : map id l = map id l' -> hasId x l = hasId x l'.
Proof.
  intros E. destruct (hasId x l) eqn:H1, (hasId x l') eqn:H2; try reflexivity.
  - apply hasId_In in H1. rewrite E in H1. apply hasId_In in H1. congruence.
  - apply hasId_In in H2. rewrite <- E in H2. apply hasId_In in H2. congruence.
Qed.

Lemma updated_ids fs ex :
  map id (map (fun existing => match findById (id existing) fs with
                               | Some updated => updated
                               | None => existing
                               end) ex)
  = map id ex.
Proof.
  rewrite map_map. apply map_ext. intros e.
  destruct (findById (id e) fs) as [u|] eqn:E; [|reflexivity].
  now destruct (findById_id _ _ _ E).
Qed.

Lemma NoDup_ids_filter (f : Session -> bool) l :
  NoDup (map id l) -> NoDup (map id (filter f l)).
Proof.
  induction l as [|s l IH]; simpl; intros H; [constructor|].
  inversion H as [|? ? Hs Hl]; subst. destruct (f s); simpl; [|now apply IH].
  constructor; [|now apply IH].
  intros Hin. apply Hs. apply in_map_iff in Hin as (x & E & Hx).
  apply filter_In in Hx as [Hx _]. apply in_map_iff. now exists x.
Qed.

(** The merge with a file tier of distinct ids, in closed form. *)
Lemma merge_again fs ex :
  NoDup (map id fs) ->
  mergeSessions fs (mergeSessions fs ex) = mergeSessions fs ex.
Proof.
  intros Hnd. unfold mergeSessions at 1.
  set (merged := mergeSessions fs ex).
  assert (Hids : forall f, In f fs -> hasId (id f) merged = true).
  { intros f Hf. unfold merged, mergeSessions. apply hasId_In.
    rewrite map_app, updated_ids. apply in_or_app.
    destruct (hasId (id f) ex) eqn:E.
    - left. now apply hasId_In.
    - right. apply in_map. apply filter_In. split; [exact Hf | now rewrite E]. }
  rewrite (LogSpec.filter_nothing _ fs), app_nil_r.
  2:{ intros f Hf. now rewrite (Hids f Hf). }
  unfold merged, mergeSessions. rewrite map_app. f_equal.
  - rewrite map_map. apply map_ext. intros e.
    destruct (findById (id e) fs) as [u|] eqn:E.
    + destruct (findById_id _ _ _ E) as [Hid _]. now rewrite Hid, E.
    + now rewrite E.
  - rewrite <- (map_id (filter _ fs)) at 2. apply map_ext_in. intros f Hf.
    apply filter_In in Hf as [Hf _]. now rewrite (findById_unique fs f Hnd Hf).
Qed.

Lemma merge_keeps_ids_distinct fs ex :
  NoDup (map id fs) -> NoDup (map id ex) -> NoDup (map id (mergeSessions fs ex)).
Proof.
  intros Hfs Hex. unfold mergeSessions. rewrite map_app, updated_ids.
  apply NoDup_app; [exact Hex | now apply NoDup_ids_filter |].
  intros x Hx Hin. apply in_map_iff in Hin as (f & <- & Hf).
  apply filter_In in Hf as [_ Hf]. apply hasId_In in Hx. now rewrite Hx in Hf.
Qed.

Lemma merge_has_file fs ex f :
  NoDup (map id fs) -> In f fs -> In f (mergeSessions fs ex).
Proof.
  intros Hnd Hf. unfold mergeSessions. apply in_or_app.
  destruct (hasId (id f) ex) eqn:E.
  - left. apply hasId_In, in_map_iff in E as (e & Ee & He).
    apply in_map_iff. exists e. split; [|exact He].
    now rewrite Ee, (findById_unique fs f Hnd Hf).
  - right. apply filter_In. split; [exact Hf | now rewrite E].
Qed.

(** X28. Syncing the browser cache from the file tier twice with the same
    answer is syncing it once, when the answer's sessions have distinct
    ids; after the sync every session of the answer is in the cache as the
    file has it, and a cache with distinct ids keeps distinct ids. *)
Theorem sync_from_file_twice (dev : bool) (response : option FileData)
    (c : Cache) :
  NoDup (map id (fileSessionsOf response)) ->
  let c1 := syncSessionsFromFileSystem dev response c in
  syncSessionsFromFileSystem dev response c1 = c1
  /\ (dev = true -> forall f, In f (fileSessionsOf response) -> In f (cached c1))
  /\ (NoDup (map id (cached c)) -> NoDup (map id (cached c1))).
Proof.
  intros Hnd. cbv zeta. unfold syncSessionsFromFileSystem, fileSessionsOf in *.
  destruct dev; [|split; [reflexivity | split; [discriminate | trivial]]].
  destruct response as [data|];
    [|split; [reflexivity | split; [now intros _ f [] | trivial]]].
  destruct (f_sessions data) as [[|f0 fs]|] eqn:Ef;
    [split; [reflexivity | split; [now intros _ f [] | trivial]]
    | | split; [reflexivity | split; [now intros _ f [] | trivial]]].
  cbn [cursor_sessions cursor_active_session].
  fold (cached c). unfold cached at 2 3. cbn [cursor_sessions].
  split; [|split].
  - rewrite (merge_again (f0 :: fs) (cached c) Hnd).
    now destruct (truthy_opt (activeSessionId data)).
  - intros _ f Hf. now apply merge_has_file.
  - intros Hc. now apply merge_keeps_ids_distinct.
Qed.

Lemma sync_from_file_twice_witness :
  let data := mkFileData (Some [endedDoc]) None in
  let c := mkCache (Some [openDoc]) (Some "s1") in
  syncSessionsFromFileSystem true (Some data)
    (syncSessionsFromFileSystem true (Some data) c)
  = syncSessionsFromFileSystem true (Some data) c.
Proof.
  intros data c.
  assert (Hnd : NoDup (map id (fileSessionsOf (Some data))))
    by (simpl; constructor; [intros []|constructor]).
  exact (proj1 (sync_from_file_twice true (Some data) c Hnd)).
Defined.

End MergeSpec.

(* ================================================================= *)
(** ** The default projects and the statistics of a query *)

Module DefaultsSpec.
Import JS ProjectId DefaultProjects ProjectIdFacts.

Lemma range_bounds lo len z :
  In z (range lo len) -> Z.of_nat lo <= z < Z.of_nat lo + Z.of_nat len.
Proof.
  unfold range. intros H. apply in_map_iff in H as (k & <- & Hk).
  apply in_seq in Hk. lia.
Qed.

Lemma range_NoDup lo len : NoDup (range lo len).
Proof.
  unfold range. apply NoDup_map_NoDup_ForallPairs; [|apply seq_NoDup].
  intros a b _ _ E. lia.
Qed.

Lemma projectType_known i : In (projectType i) platforms.
Proof.
  unfold projectType, platforms.
  destruct (i =? 0); [simpl; tauto|].
  destruct (i <=? 6); [simpl; tauto|].
  destruct (i <=? 18); simpl; tauto.
Qed.

(** X29. The 37 default projects get pairwise distinct project codes,
    whatever the day the table is built on (years 2000..2099), and the code
    of each parses back to the project's index and type. *)
Theorem default_codes_distinct (y m : Z) :
  2000 <= y <= 2099 -> 0 <= m <= 11 ->
  NoDup (projectCodes (mkDate y m))
  /\ List.length (projectCodes (mkDate y m)) = 37%nat
  /\ forall i, 0 <= i <= 36 ->
       exists p, parseProjectId (projectCodeOf (mkDate y m) i) = Some p
                 /\ projectNumber p = Some i
                 /\ platformType p = projectType i
                 /\ year p = Some y.
Proof.
  intros Hy Hm.
  assert (Hparse : forall i, 0 <= i <= 36 ->
            parseProjectId (projectCodeOf (mkDate y m) i)
            = Some {| year := Some y; quarter := Some (m / 3 + 1);
                      platformCode := getPlatformCode (Some (projectType i));
                      platformType := projectType i;
                      projectNumber := Some i; fullYear := Some y;
                      quarterLabel := ("Q" ++ toString (m / 3 + 1))%string |}).
  { intros i Hi. unfold projectCodeOf.
    apply generate_shape; [exact Hy | exact Hm | apply projectType_known | lia]. }
  split; [|split].
  - unfold projectCodes. apply NoDup_map_NoDup_ForallPairs; [|apply range_NoDup].
    intros a b Ha Hb E. apply range_bounds in Ha, Hb.
    unfold totalHexes in Ha, Hb.
    pose proof (Hparse a ltac:(lia)) as Pa. pose proof (Hparse b ltac:(lia)) as Pb.
    rewrite E, Pb in Pa. now injection Pa.
  - unfold projectCodes, range. now rewrite !length_map, length_seq.
  - intros i Hi. eexists. split; [now apply Hparse|]. repeat split.
Qed.

Lemma default_codes_distinct_witness :
  NoDup (projectCodes (mkDate 2026 0))
  /\ nth_error (projectCodes (mkDate 2026 0)) 7 = Some "26Q1D07".
Proof.
  split; [|reflexivity].
  apply (default_codes_distinct 2026 0); lia.
Defined.

End DefaultsSpec.

Module DateRangeSpec.
Import JS TokenTracker LogSamples.

Lemma last_is_latest (l : list Entry) (d : Entry) :
  StronglySorted (fun a b => timestamp a <= timestamp b) l ->
  forall y, In y l -> timestamp y <= timestamp (last l d).
Proof.
  induction 1 as [|x l Hl IH Hx]; intros y Hy; [contradiction|].
  destruct l as [|x' l'].
  - destruct Hy as [<-|[]]. simpl. lia.
  - change (last (x :: x' :: l') d) with (last (x' :: l') d).
    destruct Hy as [<-|Hy]; [|now apply IH].
    rewrite Forall_forall in Hx.
    pose proof (Hx x' (or_introl eq_refl)).
    pose proof (IH x' (or_introl eq_refl)). lia.
Qed.

Lemma last_in {A} (x : A) l d : In (last (x :: l) d) (x :: l).
Proof.
  revert x. induction l as [|y l IH]; intros x; [now left|].
  change (last (x :: y :: l) d) with (last (y :: l) d). right. apply IH.
Qed.

(** X30. Over a log in ascending time order, the date range of a query's
    statistics is the span of the returned entries: there is none exactly
    when nothing is returned, and otherwise its two ends are the earliest
    and the latest returned time stamp.  The counters are those of the
    returned entries. *)
Theorem date_range_is_the_span (options : Options) (log : list Entry) :
  ascending log ->
  let h := getTokenHistory options log in
  totalEntries (statistics h) = List.length (entries h)
  /\ totalTokens (statistics h) = sumTokens (entries h)
  /\ match dateRange (statistics h) with
     | None => entries h = []
     | Some (a, b) =>
         (forall e, In e (entries h) -> a <= timestamp e <= b)
         /\ exists e1 e2, In e1 (entries h) /\ In e2 (entries h)
                          /\ timestamp e1 = a /\ timestamp e2 = b
     end.
Proof.
  intros Hasc h.
  assert (Hs : ascending (entries h)).
  { unfold h. rewrite TokenTrackerSpec.getTokenHistory_entries.
    now apply TokenTrackerSpec.ascending_filter. }
  assert (Est : statistics h
                = {| totalEntries := List.length (entries h);
                     totalTokens := sumTokens (entries h);
                     dateRange := match entries h with
                                  | [] => None
                                  | e :: _ =>
                                      Some (timestamp e, timestamp (last (entries h) e))
                                  end |}) by reflexivity.
  rewrite Est. cbn [totalEntries totalTokens dateRange].
  split; [reflexivity|]. split; [reflexivity|].
  destruct (entries h) as [|e r] eqn:E; [reflexivity|].
  unfold ascending in Hs. apply Sorted_StronglySorted in Hs; [|intros a b c; lia].
  split.
  - intros x Hx. split.
    + inversion Hs as [|? ? _ Hall]; subst. destruct Hx as [<-|Hx]; [lia|].
      rewrite Forall_forall in Hall. now apply Hall.
    + now apply last_is_latest.
  - exists e, (last (e :: r) e). split; [now left|].
    split; [apply last_in|]. split; reflexivity.
Qed.

Lemma date_range_is_the_span_witness :
  ascending orderedLog
  /\ dateRange (statistics (getTokenHistory zhongWindow orderedLog))
     = Some (150, 200)
  /\ totalEntries (statistics (getTokenHistory zhongWindow orderedLog)) = 2%nat
  /\ forall e, In e (entries (getTokenHistory zhongWindow orderedLog)) ->
               150 <= timestamp e <= 200.
Proof.
  assert (Hasc : ascending orderedLog).
  { unfold orderedLog. repeat (constructor; [|constructor; vm_compute; discriminate]).
    repeat constructor. }
  pose proof (date_range_is_the_span zhongWindow orderedLog Hasc) as H.
  cbv zeta in H. destruct H as (H1 & _ & H3).
  change (dateRange (statistics (getTokenHistory zhongWindow orderedLog)))
    with (Some (150, 200)) in H3.
  split; [exact Hasc|]. split; [reflexivity|]. split; [exact H1|].
  exact (proj1 H3).
Defined.

End DateRangeSpec.
